(** * gwarc: WARC record codec, stream segmenter and CDX row codec

    A shallow embedding of the Go packages [gwarc], [gwarc/warc] and
    [gwarc/cdx], together with the facts the specification states
    about them.

    Conventions of the embedding:
    - a Go [string] is a [string]; a Go [[]byte] is a [list byte];
    - Go's [int], [int64] and [uint64] are [Z] (the code never relies on
      wrap-around; range checks are written out where the library makes them);
    - a Go [map[string]string] is a [gmap string string];
    - a struct seen through [reflect] is the list of its field values,
      in declaration order, next to the static list of its field
      descriptors;
    - the Go standard library functions the code calls ([strings],
      [strconv], [time], [bufio]) are modelled in the modules [GoStrings],
      [GoStrconv], [GoTime] and [GoBufio]. *)

From Stdlib Require Import ZArith List String Ascii Strings.Byte Bool Lia.
From Stdlib Require Import Permutation DecimalString.
From stdpp Require Import gmap strings.
Import ListNotations.

Local Open Scope Z_scope.

(** ** Bytes and characters *)

Definition LF : string := String (ascii_of_nat 10) EmptyString.
Definition CR : string := String (ascii_of_nat 13) EmptyString.
Definition CRLF : string := CR +:+ LF.

Definition code (c : ascii) : Z := Z.of_N (N_of_ascii c).

(** [[]byte(s)] and [string(b)]. *)
Definition bytes_of (s : string) : list byte := list_byte_of_string s.
Definition string_of (b : list byte) : string := string_of_list_byte b.

Definition byte_eqb (a b : byte) : bool := Byte.eqb a b.

(** ** Errors

    Go's [error] values.  The packages build their errors with
    [fmt.Errorf] and [errors.New]; each constructor stands for one such
    site and carries what the message is formatted from. *)
Inductive error : Set :=
(* io, bufio, strconv, time *)
| EOF
| ErrTooLong
| ErrNoProgress
| ErrNegativeAdvance
| ErrAdvanceTooFar
| ErrSyntax
| ErrRange
| ErrTimeParse
(* gwarc and gwarc/warc *)
| ErrNotStruct                                  (* v must be a struct or pointer to struct *)
| ErrVersionFieldRequired                       (* Version field is required *)
| ErrVersionRequired                            (* WARC version is required *)
| ErrRecordIDRequired                           (* WARC-Record-ID is required *)
| ErrDateRequired                               (* WARC-Date is required *)
| ErrTypeRequired                               (* WARC-Type is required *)
| ErrReadVersion (e : error)                    (* failed to read version: %v *)
| ErrUnsupportedVersion (version : string)      (* unsupported WARC version: %s *)
| ErrMustBePointer                              (* v must be a pointer *)
| ErrReadHeader (e : error)                     (* failed to read header: %v *)
| ErrInvalidHeaderFormat (line : string)        (* invalid header format: %s *)
| ErrReadContent (e : error)                    (* failed to read content: %v *)
| ErrSetField (name : string) (e : error)       (* failed to set field %s: %v *)
(* gwarc/cdx *)
| ErrInputNil                                   (* input is nil *)
| ErrNotCDXFile                                 (* input must be a pointer to CDXFile *)
| ErrMarshalRecord (e : error)                  (* failed to marshal record: %w *)
| ErrEmptyCDX                                   (* empty CDX file *)
| ErrInvalidCDXHeader (header : string)         (* invalid CDX header: %s *)
| ErrInvalidRecordLength (got want : nat)       (* invalid record length: got %d, want %d *)
| ErrParsingField (field : Z) (e : error)       (* error parsing field %c: %v *)
| ErrUnknownField (field : Z).                  (* unknown field: %c *)

(** The error kinds of the specification, as classes of the errors the
    code builds. *)
Definition MissingRequiredField (e : error) : Prop :=
  e = ErrVersionRequired \/ e = ErrRecordIDRequired \/
  e = ErrDateRequired \/ e = ErrTypeRequired.

Definition InvalidHeaderLine (e : error) : Prop :=
  exists line, e = ErrInvalidHeaderFormat line.


Definition FieldCountMismatch (e : error) : Prop :=
  exists got want, e = ErrInvalidRecordLength got want /\ got <> want.

(** ** Package [strings] *)
Module GoStrings.

(** Width in bytes of the white space rune that starts [s], or [0]
    when [s] does not start with one.  White space is what
    [unicode.IsSpace] accepts: the six ASCII characters, U+0085,
    U+00A0, U+1680, U+2000 to U+200A, U+2028, U+2029, U+202F, U+205F
    and U+3000, in their UTF-8 encodings. *)
Definition space_width (s : string) : nat :=
  match s with
  | EmptyString => 0%nat
  | String c1 s1 =>
    let a := code c1 in
    if ((9 <=? a) && (a <=? 13)) || (a =? 32) then 1%nat
    else match s1 with
    | EmptyString => 0%nat
    | String c2 s2 =>
      let b := code c2 in
      if (a =? 194) && ((b =? 133) || (b =? 160)) then 2%nat
      else match s2 with
      | EmptyString => 0%nat
      | String c3 _ =>
        let c := code c3 in
        if (a =? 225) && (b =? 154) && (c =? 128) then 3%nat
        else if (a =? 226) && (b =? 128) &&
                (((128 <=? c) && (c <=? 138)) || (c =? 168) || (c =? 169) || (c =? 175))
             then 3%nat
        else if (a =? 226) && (b =? 129) && (c =? 159) then 3%nat
        else if (a =? 227) && (b =? 128) && (c =? 128) then 3%nat
        else 0%nat
      end
    end
  end.

(** [s] is exactly one white space rune. *)
Definition is_space_rune (s : string) : bool :=
  match space_width s with
  | O => false
  | w => Nat.eqb w (String.length s)
  end.

Fixpoint trim_left_aux (skip : nat) (s : string) : string :=
  match skip, s with
  | _, EmptyString => EmptyString
  | S k, String _ s' => trim_left_aux k s'
  | O, String _ s' =>
    match space_width s with
    | O => s
    | S k => trim_left_aux k s'
    end
  end.

Definition TrimLeftSpace (s : string) : string := trim_left_aux 0 s.

Fixpoint TrimRightSpace (s : string) : string :=
  match s with
  | EmptyString => EmptyString
  | String c s' =>
    let t := TrimRightSpace s' in
    if is_space_rune (String c t) then EmptyString else String c t
  end.

(** [strings.TrimSpace]. *)
Definition TrimSpace (s : string) : string := TrimRightSpace (TrimLeftSpace s).

(** [strings.HasPrefix] and [strings.TrimPrefix]. *)
Fixpoint HasPrefix (s p : string) : bool :=
  match p, s with
  | EmptyString, _ => true
  | String a p', String b s' => Ascii.eqb a b && HasPrefix s' p'
  | String _ _, EmptyString => false
  end.

Fixpoint drop (n : nat) (s : string) : string :=
  match n, s with
  | O, _ => s
  | S k, String _ s' => drop k s'
  | S _, EmptyString => EmptyString
  end.

Definition TrimPrefix (s p : string) : string :=
  if HasPrefix s p then drop (String.length p) s else s.

(** [strings.Cut] at a one-byte separator: the text before and after
    its first occurrence. *)
Fixpoint Cut (sep : ascii) (s : string) : option (string * string) :=
  match s with
  | EmptyString => None
  | String c s' =>
    if Ascii.eqb c sep then Some (EmptyString, s')
    else match Cut sep s' with
         | Some (a, b) => Some (String c a, b)
         | None => None
         end
  end.

(** [strings.SplitN(s, sep, 2)] for a one-byte separator. *)
Definition SplitN2 (s : string) (sep : ascii) : list string :=
  match Cut sep s with
  | Some (a, b) => [a; b]
  | None => [s]
  end.

(** [strings.Split(s, sep)] for a one-byte separator. *)
Fixpoint Split (s : string) (sep : ascii) : list string :=
  match s with
  | EmptyString => [EmptyString]
  | String c s' =>
    if Ascii.eqb c sep then EmptyString :: Split s' sep
    else match Split s' sep with
         | h :: t => String c h :: t
         | [] => [String c EmptyString]
         end
  end.

(** The concatenation of strings written one after the other. *)
Fixpoint concat_all (l : list string) : string :=
  match l with
  | [] => EmptyString
  | x :: rest => x +:+ concat_all rest
  end.

(** [strings.Join]. *)
Fixpoint Join (elems : list string) (sep : string) : string :=
  match elems with
  | [] => EmptyString
  | [e] => e
  | e :: rest => e +:+ sep +:+ Join rest sep
  end.

Definition flush (cur : string) : list string :=
  match cur with
  | EmptyString => []
  | _ => [cur]
  end.

Fixpoint fields_aux (skip : nat) (cur : string) (s : string) : list string :=
  match s with
  | EmptyString => flush cur
  | String c s' =>
    match skip with
    | S k => fields_aux k cur s'
    | O =>
      match space_width s with
      | O => fields_aux 0 (cur +:+ String c EmptyString) s'
      | S k => flush cur ++ fields_aux k EmptyString s'
      end
    end
  end.

(** [strings.Fields]: the maximal runs of non white space. *)
Definition Fields (s : string) : list string := fields_aux 0 EmptyString s.

End GoStrings.

(** ** Package [strconv] *)
Module GoStrconv.

Definition is_digit (c : ascii) : bool := (48 <=? code c) && (code c <=? 57).
Definition digit_val (c : ascii) : Z := code c - 48.

Fixpoint parse_digits (acc : Z) (s : string) : option Z :=
  match s with
  | EmptyString => Some acc
  | String c s' =>
    if is_digit c then parse_digits (acc * 10 + digit_val c) s' else None
  end.

Definition maxUint64 : Z := 2 ^ 64 - 1.

(** The loop of [strconv.ParseUint(s, 10, 64)] over the bytes of [s],
    with [n] the number read so far: a byte that is no digit is a
    syntax error, and the digit that takes the number beyond 64 bits is
    a range error, whatever follows it. *)
Fixpoint parse_uint_loop (n : Z) (s : string) : Z * option error :=
  match s with
  | EmptyString => (n, None)
  | String c s' =>
    if is_digit c then
      if maxUint64 / 10 + 1 <=? n then (maxUint64, Some ErrRange)
      else
        let n1 := n * 10 + digit_val c in
        if maxUint64 <? n1 then (maxUint64, Some ErrRange)
        else parse_uint_loop n1 s'
    else (0, Some ErrSyntax)
  end.

(** [strconv.ParseUint(s, 10, 64)]: the number and the error. *)
Definition ParseUint (s : string) : Z * option error :=
  match s with
  | EmptyString => (0, Some ErrSyntax)
  | _ => parse_uint_loop 0 s
  end.

(** [strconv.ParseInt(s, 10, 64)]: the number and the error; the
    number is [0] with a syntax error and the nearest bound with a
    range error. *)
Definition ParseInt (s : string) : Z * option error :=
  match s with
  | EmptyString => (0, Some ErrSyntax)
  | String c s' =>
    let neg := Ascii.eqb c "-"%char in
    let body := if Ascii.eqb c "+"%char || neg then s' else s in
    match ParseUint body with
    | (un, None) | (un, Some ErrRange) =>
      if negb neg && (2 ^ 63 <=? un) then (2 ^ 63 - 1, Some ErrRange)
      else if neg && (2 ^ 63 <? un) then (- 2 ^ 63, Some ErrRange)
      else (if neg then - un else un, None)
    | (_, Some e) => (0, Some e)
    end
  end.

(** [strconv.FormatInt(i, 10)], [strconv.FormatUint(i, 10)] and
    [strconv.Itoa]. *)
Definition FormatInt (i : Z) : string := NilZero.string_of_int (Z.to_int i).
Definition FormatUint (i : Z) : string := NilZero.string_of_uint (N.to_uint (Z.to_N i)).
Definition Itoa (i : Z) : string := FormatInt i.

End GoStrconv.

(** ** Package [time] *)
Module GoTime.
Import GoStrconv.

(** A [time.Time]: the instant as seconds and nanoseconds since
    January 1, year 1, 00:00:00 UTC (the zero [Time]), and the offset
    east of UTC of its location, in seconds.  The identity of the
    [*Location] is not modelled. *)
Record Time : Set := mkTime { sec : Z; nsec : Z; offset : Z }.

Definition zero : Time := mkTime 0 0 0.

Definition IsZero (t : Time) : bool := (sec t =? 0) && (nsec t =? 0).

Inductive Layout : Set :=
| RFC3339              (* 2006-01-02T15:04:05Z07:00 *)
| CDXTimestampFormat.  (* 20060102150405 *)

(** *** The proleptic Gregorian calendar *)

Definition isLeap (y : Z) : bool :=
  (y mod 4 =? 0) && (negb (y mod 100 =? 0) || (y mod 400 =? 0)).

Definition daysIn (m y : Z) : Z :=
  if m =? 2 then (if isLeap y then 29 else 28)
  else if (m =? 4) || (m =? 6) || (m =? 9) || (m =? 11) then 30 else 31.

(** Days from 0001-01-01 to the civil date [y]-[m]-[d]. *)
Definition days_from_civil (y m d : Z) : Z :=
  let y' := if m <=? 2 then y - 1 else y in
  let era := y' / 400 in
  let yoe := y' - era * 400 in
  let doy := (153 * (if 2 <? m then m - 3 else m + 9) + 2) / 5 + d - 1 in
  let doe := yoe * 365 + yoe / 4 - yoe / 100 + doy in
  era * 146097 + doe - 306.

Definition civil_from_days (z : Z) : Z * Z * Z :=
  let z' := z + 306 in
  let era := z' / 146097 in
  let doe := z' - era * 146097 in
  let yoe := (doe - doe / 1460 + doe / 36524 - doe / 146096) / 365 in
  let doy := doe - (365 * yoe + yoe / 4 - yoe / 100) in
  let mp := (5 * doy + 2) / 153 in
  let d := doy - (153 * mp + 2) / 5 + 1 in
  let m := if mp <? 10 then mp + 3 else mp - 9 in
  (if m <=? 2 then yoe + era * 400 + 1 else yoe + era * 400, m, d).

(** [time.Date(y, m, d, hh, mm, ss, ns, UTC)]. *)
Definition Date (y m d hh mm ss ns : Z) : Time :=
  mkTime (days_from_civil y m d * 86400 + hh * 3600 + mm * 60 + ss) ns 0.

(** *** Formatting *)

Fixpoint zeros (n : nat) (s : string) : string :=
  match n with
  | O => s
  | S k => zeros k ("0" +:+ s)
  end.

Definition pad_left (width : nat) (s : string) : string :=
  zeros (width - String.length s) s.

(** [appendInt(b, x, width)]: decimal, zero-padded to [width]. *)
Definition appendInt (x : Z) (width : nat) : string :=
  if x <? 0 then "-" +:+ pad_left width (FormatUint (- x))
  else pad_left width (FormatUint x).

Definition format_zone (off : Z) : string :=
  if off =? 0 then "Z"
  else
    let zone := Z.quot off 60 in
    let sign := if zone <? 0 then "-" else "+" in
    let zone := Z.abs zone in
    sign +:+ appendInt (zone / 60) 2 +:+ ":" +:+ appendInt (zone mod 60) 2.

(** [t.Format(layout)]. *)
Definition Format (t : Time) (layout : Layout) : string :=
  let abs := sec t + offset t in
  let '(y, m, d) := civil_from_days (abs / 86400) in
  let s := abs mod 86400 in
  let hh := s / 3600 in
  let mm := (s mod 3600) / 60 in
  let ss := s mod 60 in
  match layout with
  | RFC3339 =>
    appendInt y 4 +:+ "-" +:+ appendInt m 2 +:+ "-" +:+ appendInt d 2 +:+ "T" +:+
    appendInt hh 2 +:+ ":" +:+ appendInt mm 2 +:+ ":" +:+ appendInt ss 2 +:+
    format_zone (offset t)
  | CDXTimestampFormat =>
    appendInt y 4 +:+ appendInt m 2 +:+ appendInt d 2 +:+
    appendInt hh 2 +:+ appendInt mm 2 +:+ appendInt ss 2
  end.

(** *** Parsing *)

(** [getnum(s, fixed)]: one or two leading digits, exactly two when
    [fixed]. *)
Definition getnum (s : string) (fixed : bool) : option (Z * string) :=
  match s with
  | String c1 s1 =>
    if is_digit c1 then
      match s1 with
      | String c2 s2 =>
        if is_digit c2 then Some (digit_val c1 * 10 + digit_val c2, s2)
        else if fixed then None else Some (digit_val c1, s1)
      | EmptyString => if fixed then None else Some (digit_val c1, s1)
      end
    else None
  | EmptyString => None
  end.

(** The four digit year of [stdLongYear]. *)
Definition getyear (s : string) : option (Z * string) :=
  match s with
  | String c1 (String c2 (String c3 (String c4 rest))) =>
    if is_digit c1 && is_digit c2 && is_digit c3 && is_digit c4 then
      Some (((digit_val c1 * 10 + digit_val c2) * 10 + digit_val c3) * 10 + digit_val c4, rest)
    else None
  | _ => None
  end.

(** [skip(value, prefix)] for a one-byte literal of the layout. *)
Definition skip (s : string) (lit : ascii) : option string :=
  match s with
  | String c s' => if Ascii.eqb c lit then Some s' else None
  | EmptyString => None
  end.

Fixpoint span_digits (s : string) : string * string :=
  match s with
  | String c s' =>
    if is_digit c then let (d, r) := span_digits s' in (String c d, r)
    else (EmptyString, s)
  | EmptyString => (EmptyString, EmptyString)
  end.

Fixpoint scale_nanos (digits : nat) (n : Z) : Z :=
  match digits with
  | O => n
  | S k => scale_nanos k (n * 10)
  end.

(** A fractional second the layout does not mention, after the
    seconds: a comma or period and digits, of which nine count. *)
Definition fraction (s : string) : Z * string :=
  match s with
  | String c (String d rest) =>
    if (Ascii.eqb c "."%char || Ascii.eqb c ","%char) && is_digit d then
      let (ds, r) := span_digits (String d rest) in
      let ds9 := substring 0 9 ds in
      match parse_digits 0 ds9 with
      | Some n => (scale_nanos (9 - String.length ds9) n, r)
      | None => (0, r)
      end
    else (0, s)
  | _ => (0, s)
  end.

(** The zone of [Z07:00]: the offset and the rest of the text. *)
Definition getzone (s : string) : option (Z * string) :=
  match s with
  | String c rest =>
    if Ascii.eqb c "Z"%char then Some (0, rest)
    else
      match rest with
      | String h1 (String h2 (String col (String m1 (String m2 rest')))) =>
        if Ascii.eqb col ":"%char then
          match getnum (String h1 (String h2 EmptyString)) true,
                getnum (String m1 (String m2 EmptyString)) true with
          | Some (hr, _), Some (mn, _) =>
            if (24 <? hr) || (60 <? mn) then None
            else if Ascii.eqb c "+"%char then Some ((hr * 60 + mn) * 60, rest')
            else if Ascii.eqb c "-"%char then Some (- ((hr * 60 + mn) * 60), rest')
            else None
          | _, _ => None
          end
        else None
      | _ => None
      end
  | EmptyString => None
  end.

Definition bind {A B} (o : option A) (f : A -> option B) : option B :=
  match o with Some a => f a | None => None end.

Definition build (y mo d hh mi ss ns off : Z) (rest : string) : option Time :=
  match rest with
  | EmptyString =>
    if (mo <? 1) || (12 <? mo) || (24 <=? hh) || (60 <=? mi) || (60 <=? ss)
       || (d <? 1) || (daysIn mo y <? d)
    then None
    else
      let t := Date y mo d hh mi ss ns in
      Some (mkTime (sec t - off) ns off)
  | _ => None
  end.

(** [time.Parse(layout, value)]; [None] stands for its errors. *)
Definition Parse (layout : Layout) (value : string) : option Time :=
  match layout with
  | RFC3339 =>
    bind (getyear value) (fun '(y, v) =>
    bind (skip v "-"%char) (fun v =>
    bind (getnum v true) (fun '(mo, v) =>
    bind (skip v "-"%char) (fun v =>
    bind (getnum v true) (fun '(d, v) =>
    bind (skip v "T"%char) (fun v =>
    bind (getnum v false) (fun '(hh, v) =>
    bind (skip v ":"%char) (fun v =>
    bind (getnum v true) (fun '(mi, v) =>
    bind (skip v ":"%char) (fun v =>
    bind (getnum v true) (fun '(ss, v) =>
    let (ns, v) := fraction v in
    bind (getzone v) (fun '(off, v) =>
    build y mo d hh mi ss ns off v))))))))))))
  | CDXTimestampFormat =>
    bind (getyear value) (fun '(y, v) =>
    bind (getnum v true) (fun '(mo, v) =>
    bind (getnum v true) (fun '(d, v) =>
    bind (getnum v false) (fun '(hh, v) =>
    bind (getnum v true) (fun '(mi, v) =>
    bind (getnum v true) (fun '(ss, v) =>
    let (ns, v) := fraction v in
    build y mo d hh mi ss ns 0 v))))))
  end.

End GoTime.

(** ** Package [bytes] *)
Module GoBytes.

Fixpoint HasPrefix (s p : list byte) : bool :=
  match p, s with
  | [], _ => true
  | a :: p', b :: s' => byte_eqb a b && HasPrefix s' p'
  | _ :: _, [] => false
  end.

(** [bytes.Index(s, sep)]: [None] stands for [-1]. *)
Fixpoint Index (s sep : list byte) : option nat :=
  if HasPrefix s sep then Some 0%nat
  else match s with
       | [] => None
       | _ :: s' => option_map S (Index s' sep)
       end.

(** [bytes.IndexByte]. *)
Fixpoint IndexByte (s : list byte) (c : byte) : option nat :=
  match s with
  | [] => None
  | b :: s' => if byte_eqb b c then Some 0%nat else option_map S (IndexByte s' c)
  end.

(** The slice expression [s[lo:hi]]. *)
Definition slice (s : list byte) (lo hi : nat) : list byte :=
  firstn (hi - lo) (skipn lo s).

End GoBytes.

(** ** Package [bufio] *)
Module GoBufio.
Import GoBytes.

Definition newline : byte := x0a.

(** *** [bufio.Reader] over a [bytes.Reader]

    [buffered] is the unread part [b.buf[b.r:b.w]] of the buffer,
    [source] what the underlying [bytes.Reader] has not delivered yet,
    [pending_eof] whether [b.err] holds [io.EOF]. *)
Record Reader : Set := mkReader {
  buffered : list byte;
  source : list byte;
  pending_eof : bool
}.

Definition defaultBufSize : nat := 4096.

(** [bufio.NewReader(bytes.NewReader(data))]. *)
Definition NewReader (data : list byte) : Reader := mkReader [] data false.

(** [b.fill()]: one read of the source into the free part of the
    buffer. *)
Definition fill (b : Reader) : Reader :=
  match source b with
  | [] => mkReader (buffered b) [] true
  | _ =>
    let n := (defaultBufSize - length (buffered b))%nat in
    mkReader (buffered b ++ firstn n (source b)) (skipn n (source b)) (pending_eof b)
  end.

(** The loop of [ReadSlice] inside [collectFragments]: [acc] holds the
    full buffers collected so far. *)
Fixpoint read_string_loop (fuel : nat) (delim : byte) (acc : list byte) (b : Reader)
  : list byte * option error * Reader :=
  match IndexByte (buffered b) delim with
  | Some i =>
    (acc ++ firstn (S i) (buffered b), None,
     mkReader (skipn (S i) (buffered b)) (source b) (pending_eof b))
  | None =>
    if pending_eof b then
      (acc ++ buffered b, Some EOF, mkReader [] (source b) false)
    else
      match fuel with
      | O => (acc ++ buffered b, Some ErrNoProgress, b)
      | S fuel' =>
        if (defaultBufSize <=? length (buffered b))%nat then
          read_string_loop fuel' delim (acc ++ buffered b)
            (mkReader [] (source b) (pending_eof b))
        else read_string_loop fuel' delim acc (fill b)
      end
  end.

(** [b.ReadString(delim)]: the text up to and including the first
    [delim], or what is left and [io.EOF].  The loop runs at most
    twice per byte of the source. *)
Definition ReadString (b : Reader) (delim : byte) : string * option error * Reader :=
  let '(line, e, b') := read_string_loop (2 * length (source b) + 2) delim [] b in
  (string_of line, e, b').

(** [b.Read(p)] for [len(p) = n]: the bytes copied into [p], the
    error, and the reader afterwards.  One call copies from the
    buffer only, or makes one read of the source. *)
Definition Read (b : Reader) (n : nat) : list byte * option error * Reader :=
  match n with
  | O =>
    match buffered b with
    | _ :: _ => ([], None, b)
    | [] => ([], if pending_eof b then Some EOF else None, mkReader [] (source b) false)
    end
  | S _ =>
    match buffered b with
    | [] =>
      if pending_eof b then ([], Some EOF, mkReader [] (source b) false)
      else
        match source b with
        | [] => ([], Some EOF, mkReader [] [] false)
        | _ =>
          if (defaultBufSize <=? n)%nat then
            (firstn n (source b), None, mkReader [] (skipn n (source b)) false)
          else
            let buf := firstn defaultBufSize (source b) in
            (firstn n buf, None, mkReader (skipn n buf) (skipn defaultBufSize (source b)) false)
        end
    | _ => (firstn n (buffered b), None,
            mkReader (skipn n (buffered b)) (source b) (pending_eof b))
    end
  end.

(** *** [bufio.Scanner]

    An [io.Reader] is the list of the byte blocks its successive
    [Read] calls have to offer, then [io.EOF]; a block larger than
    the space offered is delivered in pieces, an empty block is a
    read of no bytes.  [bytes.Reader], [bytes.Buffer] and
    [strings.Reader] over [data] offer [data] as one block. *)
Definition ioReader : Set := list (list byte).

Definition bytesReader (data : list byte) : ioReader :=
  match data with
  | [] => []
  | _ => [data]
  end.

Definition SplitFunc : Set := list byte -> bool -> nat * option (list byte).

Record Scanner : Set := mkScanner {
  rd : ioReader;             (* s.r *)
  buf_len : nat;             (* len(s.buf) *)
  start : nat;               (* s.start *)
  data : list byte;          (* s.buf[s.start:s.end] *)
  token : list byte;         (* s.token *)
  err : option error         (* s.err *)
}.

Definition MaxScanTokenSize : nat := (64 * 1024)%nat.
Definition startBufSize : nat := 4096.
Definition maxConsecutiveEmptyReads : nat := 100.

(** [bufio.NewScanner(r)]. *)
Definition NewScanner (r : ioReader) : Scanner := mkScanner r 0 0 [] [] None.

(** The read loop of [Scan]: reads until bytes arrive, the reader
    fails, or too many reads in a row bring nothing. *)
Fixpoint read_more (loop : nat) (free : nat) (r : ioReader)
  : list byte * ioReader * option error :=
  match r with
  | [] => ([], [], Some EOF)
  | [] :: r' =>
    if (maxConsecutiveEmptyReads <? S loop)%nat then ([], r', Some ErrNoProgress)
    else read_more (S loop) free r'
  | c :: r' =>
    if (length c <=? free)%nat then (c, r', None)
    else (firstn free c, skipn free c :: r', None)
  end.

Definition set_err (s : Scanner) (e : error) : Scanner :=
  mkScanner (rd s) (buf_len s) (start s) (data s) (token s)
    (match err s with
     | None | Some EOF => Some e
     | Some e0 => Some e0
     end).

(** The head of the loop of [s.Scan()]: a token from what the buffer
    already holds.  The split functions used here return no error and
    never return a token without advancing, so those paths of [Scan]
    are left out. *)
Inductive attempt : Set :=
| Failed (s : Scanner)       (* the advance is out of range *)
| Token (s : Scanner)        (* a token: Scan returns true *)
| NoToken (s : Scanner).     (* more data is needed *)

Definition at_eof (s : Scanner) : bool :=
  match err s with
  | Some _ => true
  | None => false
  end.

Definition try_split (split : SplitFunc) (s : Scanner) : attempt :=
  if negb (Nat.eqb (length (data s)) 0) || at_eof s then
    let '(advance, tok) := split (data s) (at_eof s) in
    if (length (data s) <? advance)%nat then Failed (set_err s ErrAdvanceTooFar)
    else
      match tok with
      | Some t =>
        Token (mkScanner (rd s) (buf_len s) (start s + advance)
                 (skipn advance (data s)) t (err s))
      | None =>
        NoToken (mkScanner (rd s) (buf_len s) (start s + advance)
                   (skipn advance (data s)) [] (err s))
      end
  else NoToken s.

(** Shift the data to the front of the buffer if there is lots of
    empty space or space is needed. *)
Definition shift (s : Scanner) : Scanner :=
  if (0 <? start s)%nat &&
     (Nat.eqb (start s + length (data s)) (buf_len s) ||
      (Nat.div (buf_len s) 2 <? start s)%nat)
  then mkScanner (rd s) (buf_len s) 0 (data s) (token s) (err s)
  else s.

(** Is the buffer full?  If so, resize; a buffer of the largest size
    cannot grow. *)
Definition grow (s : Scanner) : option Scanner :=
  if Nat.eqb (start s + length (data s)) (buf_len s) then
    if (MaxScanTokenSize <=? buf_len s)%nat then None
    else
      let newSize := if Nat.eqb (buf_len s) 0 then startBufSize
                     else (buf_len s * 2)%nat in
      Some (mkScanner (rd s) (Nat.min newSize MaxScanTokenSize) 0 (data s)
              (token s) (err s))
  else Some s.

(** Read some input into the free part of the buffer. *)
Definition read_input (s : Scanner) : Scanner :=
  let '(got, r', e) :=
    read_more 0 (buf_len s - (start s + length (data s))) (rd s) in
  mkScanner r' (buf_len s) (start s) (data s ++ got) (token s) e.

(** The loop of [s.Scan()]. *)
Fixpoint scan_loop (fuel : nat) (split : SplitFunc) (s : Scanner) : bool * Scanner :=
  match fuel with
  | O => (false, s)
  | S fuel' =>
    match try_split split s with
    | Failed s' => (false, s')
    | Token s' => (true, s')
    | NoToken s1 =>
      match err s1 with
      | Some _ =>
        (* We have hit EOF or an I/O error: shut down. *)
        (false, mkScanner (rd s1) (buf_len s1) 0 [] (token s1) (err s1))
      | None =>
        (* Must read more data. *)
        match grow (shift s1) with
        | None => (false, set_err (shift s1) ErrTooLong)
        | Some s2 => scan_loop fuel' split (read_input s2)
        end
      end
    end
  end.

(** Enough turns of the loop for any reader: every turn that does not
    return takes a block, or a piece of one, from the reader. *)
Definition scan_fuel (s : Scanner) : nat :=
  (length (concat (rd s)) + length (rd s) + 2)%nat.

(** [s.Scan()]. *)
Definition Scan (split : SplitFunc) (s : Scanner) : bool * Scanner :=
  scan_loop (scan_fuel s) split s.

(** [bufio.ScanLines]. *)
Definition dropCR (d : list byte) : list byte :=
  match List.last d x00 with
  | x0d => removelast d
  | _ => d
  end.

Definition ScanLines : SplitFunc := fun d atEOF =>
  if atEOF && Nat.eqb (length d) 0 then (0%nat, None)
  else match IndexByte d newline with
       | Some i => (S i, Some (dropCR (firstn i d)))
       | None => if atEOF then (length d, Some (dropCR d)) else (0%nat, None)
       end.

End GoBufio.

(** ** Package [reflect]

    What the codecs see of a struct: the values of its fields, each of
    one of the kinds the code switches on, and the field descriptors of
    its type with their tags. *)
Module GoReflect.

Inductive Value : Set :=
| VString (s : string)           (* Kind String: string and the named string types *)
| VInt (i : Z)                   (* Kind Int and Int64 *)
| VUint (u : Z)                  (* Kind Uint64 *)
| VTime (t : GoTime.Time)        (* Kind Struct, type time.Time *)
| VStrings (l : list string)     (* Kind Slice of string *)
| VBytes (b : list byte).        (* Kind Slice of uint8 *)

(** A [reflect.StructField]: the name and the tag, as the list of its
    [key:"value"] pairs. *)
Record StructField : Set := mkField {
  Name : string;
  Tag : list (string * string)
}.

(** [Tag.Get(key)]. *)
Fixpoint Tag_Get (tag : list (string * string)) (key : string) : string :=
  match tag with
  | [] => EmptyString
  | (k, v) :: rest => if String.eqb k key then v else Tag_Get rest key
  end.

(** [FieldByName]: the index of the field of that name. *)
Fixpoint FieldByName (typ : list StructField) (name : string) : option nat :=
  match typ with
  | [] => None
  | f :: rest => if String.eqb (Name f) name then Some 0%nat
                 else option_map S (FieldByName rest name)
  end.

End GoReflect.

(** * Package [gwarc]: record types, validation and [Marshal]

    The packages [gwarc] and [gwarc/warc] declare the same
    [WARCRecord]; it is declared once here. *)
Module gwarc.
Import GoReflect.

Definition WARCVariant1_0 : string := "1.0".
Definition WARCVariant1_1 : string := "1.1".

Record WARCRecord : Set := mkWARCRecord {
  Version : string;
  RecordID : string;
  ContentLength : Z;
  Date : GoTime.Time;
  Type_ : string;
  ContentType : string;
  ConcurrentTo : list string;
  BlockDigest : string;
  PayloadDigest : string;
  IPAddress : string;
  RefersTo : string;
  RefersToTargetURI : string;
  RefersToDate : GoTime.Time;
  TargetURI : string;
  Truncated : string;
  WarcinfoID : string;
  Filename : string;
  Profile : string;
  IdentifiedPayloadType : string;
  SegmentNumber : Z;
  SegmentOriginID : string;
  SegmentTotalLength : Z;
  Content : list byte
}.

(** The zero value [WARCRecord{}]. *)
Definition zeroRecord : WARCRecord :=
  mkWARCRecord "" "" 0 GoTime.zero "" "" [] "" "" "" "" "" GoTime.zero "" "" "" "" "" "" 0 "" 0 [].

Definition warc (v : string) : list (string * string) := [("warc", v)].

(** [reflect.TypeOf(WARCRecord{})]: the fields in declaration order. *)
Definition WARCRecord_type : list StructField :=
  [ mkField "Version" [];
    mkField "RecordID" (warc "WARC-Record-ID");
    mkField "ContentLength" (warc "Content-Length");
    mkField "Date" (warc "WARC-Date");
    mkField "Type" (warc "WARC-Type");
    mkField "ContentType" (warc "Content-Type,omitempty");
    mkField "ConcurrentTo" (warc "WARC-Concurrent-To,omitempty");
    mkField "BlockDigest" (warc "WARC-Block-Digest,omitempty");
    mkField "PayloadDigest" (warc "WARC-Payload-Digest,omitempty");
    mkField "IPAddress" (warc "WARC-IP-Address,omitempty");
    mkField "RefersTo" (warc "WARC-Refers-To,omitempty");
    mkField "RefersToTargetURI" (warc "WARC-Refers-To-Target-URI,omitempty");
    mkField "RefersToDate" (warc "WARC-Refers-To-Date,omitempty");
    mkField "TargetURI" (warc "WARC-Target-URI,omitempty");
    mkField "Truncated" (warc "WARC-Truncated,omitempty");
    mkField "WarcinfoID" (warc "WARC-Warcinfo-ID,omitempty");
    mkField "Filename" (warc "WARC-Filename,omitempty");
    mkField "Profile" (warc "WARC-Profile,omitempty");
    mkField "IdentifiedPayloadType" (warc "WARC-Identified-Payload-Type,omitempty");
    mkField "SegmentNumber" (warc "WARC-Segment-Number,omitempty");
    mkField "SegmentOriginID" (warc "WARC-Segment-Origin-ID,omitempty");
    mkField "SegmentTotalLength" (warc "WARC-Segment-Total-Length,omitempty");
    mkField "Content" [] ].

(** [reflect.ValueOf(r)]: the field values, in declaration order. *)
Definition fields_of (r : WARCRecord) : list Value :=
  [ VString (Version r); VString (RecordID r); VUint (ContentLength r);
    VTime (Date r); VString (Type_ r); VString (ContentType r);
    VStrings (ConcurrentTo r); VString (BlockDigest r);
    VString (PayloadDigest r); VString (IPAddress r); VString (RefersTo r);
    VString (RefersToTargetURI r); VTime (RefersToDate r);
    VString (TargetURI r); VString (Truncated r); VString (WarcinfoID r);
    VString (Filename r); VString (Profile r);
    VString (IdentifiedPayloadType r); VInt (SegmentNumber r);
    VString (SegmentOriginID r); VUint (SegmentTotalLength r);
    VBytes (Content r) ].

(** The record whose fields hold [l]; [r0] when [l] is not the field
    list of a [WARCRecord]. *)
Definition of_fields (l : list Value) (r0 : WARCRecord) : WARCRecord :=
  match l with
  | [ VString f0; VString f1; VUint f2; VTime f3; VString f4; VString f5;
      VStrings f6; VString f7; VString f8; VString f9; VString f10;
      VString f11; VTime f12; VString f13; VString f14; VString f15;
      VString f16; VString f17; VString f18; VInt f19; VString f20;
      VUint f21; VBytes f22 ] =>
    mkWARCRecord f0 f1 f2 f3 f4 f5 f6 f7 f8 f9 f10 f11 f12 f13 f14 f15 f16
      f17 f18 f19 f20 f21 f22
  | _ => r0
  end.

(** The values a function can be handed as [any] (or as the type
    argument [T] of [Unmarshal]) in this development. *)
Inductive any : Set :=
| Nil                            (* nil *)
| NonStruct (s : string)         (* a value that is no struct, such as a string *)
| Struct (r : WARCRecord)        (* a WARCRecord, by value *)
| Pointer (r : WARCRecord).      (* a *WARCRecord, pointing at r *)

(** The method [Validate] of the pointer type of [WARCRecord]. *)
Definition Validate (w : WARCRecord) : option error :=
  if String.eqb (Version w) "" then Some ErrVersionRequired
  else if String.eqb (RecordID w) "" then Some ErrRecordIDRequired
  else if GoTime.IsZero (Date w) then Some ErrDateRequired
  else if String.eqb (Type_ w) "" then Some ErrTypeRequired
  else None.

(** The type assertion [v.(interface{ Validate() error })].  [Validate]
    has a pointer receiver, so it is in the method set of
    [*WARCRecord] only. *)
Definition as_validator (v : any) : option WARCRecord :=
  match v with
  | Pointer r => Some r
  | _ => None
  end.

Record tagInfo : Set := mkTagInfo { name : string; omitempty : bool }.

Definition parseTag (tag : string) : tagInfo :=
  match GoStrings.Split tag ","%char with
  | p0 :: p1 :: _ => mkTagInfo p0 (String.eqb p1 "omitempty")
  | p0 :: [] => mkTagInfo p0 false
  | [] => mkTagInfo "" false
  end.

(** [fmt.Sprint] of a byte slice, the only value of [WARCRecord] the
    kinds of [formatFieldValue] do not cover. *)
Definition Sprint_bytes (b : list byte) : string :=
  "[" +:+ GoStrings.Join (map (fun x => GoStrconv.FormatUint (Z.of_N (Byte.to_N x))) b) " " +:+ "]".

Definition formatFieldValue (field : Value) : string :=
  match field with
  | VString s => s
  | VInt i => GoStrconv.FormatInt i
  | VUint u => GoStrconv.FormatUint u
  | VStrings values => GoStrings.Join values ", "
  | VTime t => GoTime.Format t GoTime.RFC3339
  | VBytes b => Sprint_bytes b
  end.

(** The order in which a [range] over a map visits its entries: Go
    leaves it unspecified, and it may change from one loop to the
    next. *)
Definition map_order : Type := gmap string string -> list (string * string).

Definition valid_order (range : map_order) : Prop :=
  forall m, range m ≡ₚ map_to_list m.

(** The first loop of [Marshal]: the header of every tagged field
    that is not omitted. *)
Fixpoint collect_headers (typ : list StructField) (vals : list Value)
         (headers : gmap string string) : gmap string string :=
  match typ, vals with
  | fieldType :: typ', field :: vals' =>
    let tag := Tag_Get (Tag fieldType) "warc" in
    if String.eqb tag "" then collect_headers typ' vals' headers
    else
      let tagParts := parseTag tag in
      let headerName := name tagParts in
      if String.eqb headerName "" then collect_headers typ' vals' headers
      else
        let value := formatFieldValue field in
        if String.eqb value "" && omitempty tagParts
        then collect_headers typ' vals' headers
        else collect_headers typ' vals' (<[headerName := value]> headers)
  | _, _ => headers
  end.

Definition header_line (kv : string * string) : string :=
  fst kv +:+ ": " +:+ snd kv +:+ CRLF.

(** [Marshal(v)], under the order [range] in which its loop over the
    [headers] map runs. *)
Definition Marshal (range : map_order) (v : any) : list byte + error :=
  match v with
  | Nil | NonStruct _ => inr ErrNotStruct
  | Struct r | Pointer r =>
    match match as_validator v with
          | Some w => Validate w
          | None => None
          end with
    | Some e => inr e
    | None =>
      match FieldByName WARCRecord_type "Version" with
      | None => inr ErrVersionFieldRequired
      | Some _ =>
        let head := "WARC/" +:+ Version r +:+ CRLF in
        let headers := collect_headers WARCRecord_type (fields_of r) ∅ in
        let lines := GoStrings.concat_all (map header_line (range headers)) in
        match FieldByName WARCRecord_type "Content" with
        | Some _ =>
          let content := Content r in
          inl (bytes_of (head +:+ lines +:+
                         "Content-Length: " +:+ GoStrconv.Itoa (Z.of_nat (length content)) +:+ CRLF +:+
                         CRLF)
               ++ content)
        | None =>
          inl (bytes_of (head +:+ lines +:+ "Content-Length: 0" +:+ CRLF +:+ CRLF))
        end
      end
    end
  end.

End gwarc.

(** * Package [gwarc/warc]: [Unmarshal] and the stream segmenter *)
Module warc.
Import GoReflect gwarc.

(** How a call ends: it returns, leaving [final] behind the pointer
    it was handed (its argument itself when that is no pointer) and
    the error [failure], or it panics. *)
Inductive outcome : Set :=
| Returns (final : any) (failure : option error)
| Panics.

(** [setField(field, value)]: the field afterwards, and the error. *)
Definition setField (field : Value) (value : string) : Value * option error :=
  match field with
  | VString _ => (VString value, None)
  | VInt i =>
    match GoStrconv.ParseInt value with
    | (v, None) => (VInt v, None)
    | (_, Some _) => (VInt i, None)
    end
  | VTime t0 =>
    match GoTime.Parse GoTime.RFC3339 value with
    | Some t => (VTime t, None)
    | None => (VTime t0, None)
    end
  | other => (other, None)
  end.

(** The header loop of [Unmarshal]: lines up to the first blank
    one. *)
Fixpoint read_headers (fuel : nat) (reader : GoBufio.Reader)
         (headers : gmap string string)
  : (gmap string string * GoBufio.Reader) + error :=
  match fuel with
  | O => inr (ErrReadHeader ErrNoProgress)
  | S fuel' =>
    let '(line, e, reader') := GoBufio.ReadString reader GoBufio.newline in
    match e with
    | Some e => inr (ErrReadHeader e)
    | None =>
      let line := GoStrings.TrimSpace line in
      if String.eqb line "" then inl (headers, reader')
      else
        match GoStrings.SplitN2 line ":"%char with
        | [k; v] =>
          read_headers fuel' reader'
            (<[GoStrings.TrimSpace k := GoStrings.TrimSpace v]> headers)
        | _ => inr (ErrInvalidHeaderFormat line)
        end
    end
  end.

(** The index expression [value, exists := headers[key]]: [index] is
    the value, the empty string for a missing key, and [has_key]
    whether the key is there. *)
Definition index (headers : gmap string string) (key : string) : string :=
  default "" (headers !! key).

Definition has_key (headers : gmap string string) (key : string) : bool :=
  bool_decide (is_Some (headers !! key)).

(** [make([]byte, n)] for [n] within the limits of the allocator. *)
Definition maxAlloc : Z := 2 ^ 48.
Definition make (n : Z) : list byte := repeat x00 (Z.to_nat n).

(** [copy(dst, src)] into a [dst] at least as long as [src]. *)
Definition copy (dst src : list byte) : list byte :=
  src ++ skipn (length src) dst.

(** The field loop of [Unmarshal]. *)
Fixpoint set_fields (typ : list StructField) (elem : list Value)
         (headers : gmap string string) : list Value + error :=
  match typ, elem with
  | fieldType :: typ', field :: elem' =>
    let tag := Tag_Get (Tag fieldType) "warc" in
    if String.eqb tag "" then
      match set_fields typ' elem' headers with
      | inl rest => inl (field :: rest)
      | inr e => inr e
      end
    else
      let tagParts := GoStrings.Split tag ","%char in
      let headerName := nth 0 tagParts "" in
      let value := index headers headerName in
      let exists_ := has_key headers headerName in
      if negb exists_ && (1 <? length tagParts)%nat &&
         String.eqb (nth 1 tagParts "") "omitempty"
      then
        match set_fields typ' elem' headers with
        | inl rest => inl (field :: rest)
        | inr e => inr e
        end
      else
        match setField field value with
        | (_, Some e) => inr (ErrSetField (Name fieldType) e)
        | (field', None) =>
          match set_fields typ' elem' headers with
          | inl rest => inl (field' :: rest)
          | inr e => inr e
          end
        end
  | _, _ => inl elem
  end.

Definition set_Version (r : WARCRecord) (v : string) : WARCRecord :=
  of_fields (<[0%nat := VString v]> (fields_of r)) r.

Definition set_Content (r : WARCRecord) (content : list byte) : WARCRecord :=
  of_fields (<[22%nat := VBytes content]> (fields_of r)) r.

(** [Unmarshal(data, v)] for the values of [any]: none of them has a
    method [UnmarshalWARCRecord], so the type switch at the head of
    the function passes them on to the code below it, which this
    definition embeds.  The function with its type switch, for the
    pointers to the record types that have the method as well, is
    [dispatch.Unmarshal].  Every line of the header block ends in a
    line feed and holds at least one byte, so the header loop runs at
    most once per byte of [data]. *)
Definition Unmarshal (data : list byte) (v : any) : outcome :=
  let reader := GoBufio.NewReader data in
  let '(versionLine, e, reader) := GoBufio.ReadString reader GoBufio.newline in
  match e with
  | Some e => Returns v (Some (ErrReadVersion e))
  | None =>
    let version := GoStrings.TrimSpace (GoStrings.TrimPrefix versionLine "WARC/") in
    if negb (String.eqb version WARCVariant1_0) && negb (String.eqb version WARCVariant1_1)
    then Returns v (Some (ErrUnsupportedVersion version))
    else
      match v with
      | Nil | NonStruct _ | Struct _ => Returns v (Some ErrMustBePointer)
      | Pointer r =>
        let r := set_Version r version in
        match read_headers (S (length data)) reader ∅ with
        | inr e => Returns (Pointer r) (Some e)
        | inl (headers, reader) =>
          let contentLength := fst (GoStrconv.ParseInt (index headers "Content-Length")) in
          if (contentLength <? 0) || (maxAlloc <? contentLength) then Panics
          else
            let content := make contentLength in
            let '(got, e, _) := GoBufio.Read reader (length content) in
            match e with
            | Some e => Returns (Pointer r) (Some (ErrReadContent e))
            | None =>
              let content := copy content got in
              let r := set_Content r content in
              match set_fields WARCRecord_type (fields_of r) headers with
              | inr e => Returns (Pointer r) (Some e)
              | inl elem => Returns (Pointer (of_fields elem r)) None
              end
            end
        end
      end
  end.

(** ** [Valid] *)

(** The errors of [Valid]: those it shares with [Unmarshal], and two
    of its own. *)
Inductive Valid_error : Set :=
| Shared (e : error)
| ErrMissingContentLength                 (* "missing Content-Length header" *)
| ErrInvalidContentLength (e : error).    (* "invalid Content-Length value: %v" *)

(** How a call of [Valid] ends: it returns its error, or it panics. *)
Inductive validity : Set :=
| Valid_returns (failure : option Valid_error)
| Valid_panics.

(** [Valid(data)].  Its header loop is the text of the header loop of
    [Unmarshal]. *)
Definition Valid (data : list byte) : validity :=
  let reader := GoBufio.NewReader data in
  let '(versionLine, e, reader) := GoBufio.ReadString reader GoBufio.newline in
  match e with
  | Some e => Valid_returns (Some (Shared (ErrReadVersion e)))
  | None =>
    let version := GoStrings.TrimSpace (GoStrings.TrimPrefix versionLine "WARC/") in
    if negb (String.eqb version WARCVariant1_0) && negb (String.eqb version WARCVariant1_1)
    then Valid_returns (Some (Shared (ErrUnsupportedVersion version)))
    else
      match read_headers (S (length data)) reader ∅ with
      | inr e => Valid_returns (Some (Shared e))
      | inl (headers, reader) =>
        if negb (has_key headers "Content-Length")
        then Valid_returns (Some ErrMissingContentLength)
        else
          match GoStrconv.ParseInt (index headers "Content-Length") with
          | (_, Some e) => Valid_returns (Some (ErrInvalidContentLength e))
          | (contentLength, None) =>
            if (contentLength <? 0) || (maxAlloc <? contentLength) then Valid_panics
            else
              let content := make contentLength in
              let '(_, e, _) := GoBufio.Read reader (length content) in
              match e with
              | Some e => Valid_returns (Some (Shared (ErrReadContent e)))
              | None => Valid_returns None
              end
          end
      end
  end.

(** ** The stream segmenter *)

Definition marker : list byte := bytes_of "WARC/".

(** The split function [NewWARC] installs in its scanner. *)
Definition split : GoBufio.SplitFunc := fun data atEOF =>
  if atEOF && Nat.eqb (length data) 0 then (0%nat, None)
  else
    match GoBytes.Index data marker with
    | Some i =>
      if (0 <? i)%nat then (i, Some (GoBytes.slice data 0 i))
      else
        match GoBytes.Index (skipn (i + 5) data) marker with
        | Some j => ((i + j + 5)%nat, Some (GoBytes.slice data i (i + j + 5)))
        | None => if atEOF then (length data, Some data) else (0%nat, None)
        end
    | None => (0%nat, None)
    end.

(** A [*WARC]: its scanner. *)
Definition WARC : Set := GoBufio.Scanner.

Definition NewWARC (r : GoBufio.ioReader) : WARC := GoBufio.NewScanner r.

Definition NewWARCFromBytes (b : list byte) : WARC := NewWARC (GoBufio.bytesReader b).

Definition NewWARCFromString (s : string) : WARC := NewWARC (GoBufio.bytesReader (bytes_of s)).

(** [w.NextChunk()]: the chunk, or [io.EOF], and the segmenter
    afterwards. *)
Definition NextChunk (w : WARC) : (list byte + error) * WARC :=
  let (ok, w') := GoBufio.Scan split w in
  if ok then (inl (GoBufio.token w'), w') else (inr EOF, w').

(** The chunks of [n] calls of [NextChunk], up to the first [io.EOF]. *)
Fixpoint chunks (n : nat) (w : WARC) : list (list byte) :=
  match n with
  | O => []
  | S k =>
    match NextChunk w with
    | (inl chunk, w') => chunk :: chunks k w'
    | (inr _, _) => []
    end
  end.

End warc.

(** * Package [gwarc/cdx]: the CDX row codec *)
Module cdx.
Import GoReflect.

(** A [CDXField] is a rune, the code of a column. *)
Definition CDXField : Set := Z.

(** The conversion [string(r)] of a rune: its UTF-8 encoding, that of
    U+FFFD for a value that is no Unicode scalar. *)
Definition chr (n : Z) : string := String (ascii_of_N (Z.to_N n)) EmptyString.

Definition string_of_rune (r : Z) : string :=
  if (r <? 0) || (1114111 <? r) || ((55296 <=? r) && (r <=? 57343)) then
    chr 239 +:+ chr 191 +:+ chr 189
  else if r <? 128 then chr r
  else if r <? 2048 then chr (192 + r / 64) +:+ chr (128 + r mod 64)
  else if r <? 65536 then
    chr (224 + r / 4096) +:+ chr (128 + (r / 64) mod 64) +:+ chr (128 + r mod 64)
  else
    chr (240 + r / 262144) +:+ chr (128 + (r / 4096) mod 64) +:+
    chr (128 + (r / 64) mod 64) +:+ chr (128 + r mod 64).

(** The rune of a character literal. *)
Definition rune (c : ascii) : CDXField := code c.

Definition FieldMassagedURL : CDXField := rune "N".
Definition FieldDate : CDXField := rune "b".
Definition FieldOriginalURL : CDXField := rune "a".
Definition FieldMIMEType : CDXField := rune "m".
Definition FieldStatusCode : CDXField := rune "s".
Definition FieldNewChecksum : CDXField := rune "k".
Definition FieldRedirect : CDXField := rune "r".
Definition FieldMetaTags : CDXField := rune "M".
Definition FieldCompressedSize : CDXField := rune "S".
Definition FieldCompressedArcOffset : CDXField := rune "V".
Definition FieldFilename : CDXField := rune "g".
Definition FieldLanguageDesc : CDXField := rune "G".

(** A [CDXFormat]: the column codes, in order. *)
Definition CDXFormat : Set := list CDXField.

Definition CDX9 : CDXFormat :=
  [ FieldMassagedURL; FieldDate; FieldOriginalURL; FieldMIMEType;
    FieldStatusCode; FieldNewChecksum; FieldRedirect;
    FieldCompressedArcOffset; FieldFilename ].

Definition CDX11 : CDXFormat :=
  [ FieldMassagedURL; FieldDate; FieldOriginalURL; FieldMIMEType;
    FieldStatusCode; FieldNewChecksum; FieldRedirect; FieldMetaTags;
    FieldCompressedSize; FieldCompressedArcOffset; FieldFilename ].

(** [f.String()]. *)
Definition String_ (f : CDXFormat) : string :=
  GoStrings.Join ("CDX" :: map string_of_rune f) " ".

Record CDXRecord : Set := mkCDXRecord {
  CanonizedURL : string;
  NewsGroup : string;
  RulespaceCategory : string;
  CanonizedFrame : string;
  CanonizedHost : string;
  CanonizedImage : string;
  CanonizedJump : string;
  CanonizedLink : string;
  MassagedURL : string;
  CanonizedPath : string;
  CanonizedRedirect : string;
  OriginalURL : string;
  OriginalHost : string;
  OriginalPath : string;
  Date : GoTime.Time;
  IP : string;
  Language : string;
  Port : Z;
  Title : string;
  MetaTags : string;
  OldChecksum : string;
  NewChecksum : string;
  CompressedSize : Z;
  ArcDocumentLength : Z;
  CompressedDatOffset : Z;
  UncompressedDatOffset : Z;
  CompressedArcOffset : Z;
  UncompressedArcOffset : Z;
  Frame : string;
  Image : string;
  JumpPoint : string;
  Link : string;
  URLsInHref : string;
  URLsInSrc : string;
  URLsInScript : string;
  MIMEType : string;
  StatusCode : Z;
  Redirect : string;
  Filename : string;
  FBIS : string;
  Uniqueness : string
}.

(** The zero value [CDXRecord{}]. *)
Definition zeroRecord : CDXRecord :=
  mkCDXRecord "" "" "" "" "" "" "" "" "" "" "" "" "" "" GoTime.zero "" "" 0 "" "" "" "" 0 0 0 0 0 0 "" "" "" "" "" "" "" "" 0 "" "" "" "".

Definition tags (c j : string) : list (string * string) := [("cdx", c); ("json", j)].

(** [reflect.TypeOf(CDXRecord{})]: the fields in declaration order. *)
Definition CDXRecord_type : list StructField :=
  [ mkField "CanonizedURL" (tags "A" "canonized_url");
    mkField "NewsGroup" (tags "B" "news_group");
    mkField "RulespaceCategory" (tags "C" "rulespace_category");
    mkField "CanonizedFrame" (tags "F" "canonized_frame");
    mkField "CanonizedHost" (tags "H" "canonized_host");
    mkField "CanonizedImage" (tags "I" "canonized_image");
    mkField "CanonizedJump" (tags "J" "canonized_jump");
    mkField "CanonizedLink" (tags "L" "canonized_link");
    mkField "MassagedURL" (tags "N" "massaged_url");
    mkField "CanonizedPath" (tags "P" "canonized_path");
    mkField "CanonizedRedirect" (tags "R" "canonized_redirect");
    mkField "OriginalURL" (tags "a" "original_url");
    mkField "OriginalHost" (tags "h" "original_host");
    mkField "OriginalPath" (tags "p" "original_path");
    mkField "Date" (tags "b" "date");
    mkField "IP" (tags "e" "ip");
    mkField "Language" (tags "Q" "language");
    mkField "Port" (tags "o" "port");
    mkField "Title" (tags "t" "title");
    mkField "MetaTags" (tags "M" "meta_tags");
    mkField "OldChecksum" (tags "c" "old_checksum");
    mkField "NewChecksum" (tags "k" "new_checksum");
    mkField "CompressedSize" (tags "S" "compressed_size");
    mkField "ArcDocumentLength" (tags "n" "arc_document_length");
    mkField "CompressedDatOffset" (tags "D" "compressed_dat_offset");
    mkField "UncompressedDatOffset" (tags "d" "uncompressed_dat_offset");
    mkField "CompressedArcOffset" (tags "V" "compressed_arc_offset");
    mkField "UncompressedArcOffset" (tags "v" "uncompressed_arc_offset");
    mkField "Frame" (tags "f" "frame");
    mkField "Image" (tags "i" "image");
    mkField "JumpPoint" (tags "j" "jump_point");
    mkField "Link" (tags "l" "link");
    mkField "URLsInHref" (tags "x" "urls_in_href");
    mkField "URLsInSrc" (tags "y" "urls_in_src");
    mkField "URLsInScript" (tags "z" "urls_in_script");
    mkField "MIMEType" (tags "m" "mime_type");
    mkField "StatusCode" (tags "s" "status_code");
    mkField "Redirect" (tags "r" "redirect");
    mkField "Filename" (tags "g" "filename");
    mkField "FBIS" (tags "K" "fbis");
    mkField "Uniqueness" (tags "U" "uniqueness") ].

(** [reflect.ValueOf(r)]: the field values, in declaration order. *)
Definition fields_of (r : CDXRecord) : list Value :=
  [ VString (CanonizedURL r);
    VString (NewsGroup r);
    VString (RulespaceCategory r);
    VString (CanonizedFrame r);
    VString (CanonizedHost r);
    VString (CanonizedImage r);
    VString (CanonizedJump r);
    VString (CanonizedLink r);
    VString (MassagedURL r);
    VString (CanonizedPath r);
    VString (CanonizedRedirect r);
    VString (OriginalURL r);
    VString (OriginalHost r);
    VString (OriginalPath r);
    VTime (Date r);
    VString (IP r);
    VString (Language r);
    VInt (Port r);
    VString (Title r);
    VString (MetaTags r);
    VString (OldChecksum r);
    VString (NewChecksum r);
    VInt (CompressedSize r);
    VInt (ArcDocumentLength r);
    VInt (CompressedDatOffset r);
    VInt (UncompressedDatOffset r);
    VInt (CompressedArcOffset r);
    VInt (UncompressedArcOffset r);
    VString (Frame r);
    VString (Image r);
    VString (JumpPoint r);
    VString (Link r);
    VString (URLsInHref r);
    VString (URLsInSrc r);
    VString (URLsInScript r);
    VString (MIMEType r);
    VInt (StatusCode r);
    VString (Redirect r);
    VString (Filename r);
    VString (FBIS r);
    VString (Uniqueness r) ].

(** The record whose fields hold [l]; [r0] when [l] is not the field
    list of a [CDXRecord]. *)
Definition of_fields (l : list Value) (r0 : CDXRecord) : CDXRecord :=
  match l with
  | [ VString f0;
      VString f1;
      VString f2;
      VString f3;
      VString f4;
      VString f5;
      VString f6;
      VString f7;
      VString f8;
      VString f9;
      VString f10;
      VString f11;
      VString f12;
      VString f13;
      VTime f14;
      VString f15;
      VString f16;
      VInt f17;
      VString f18;
      VString f19;
      VString f20;
      VString f21;
      VInt f22;
      VInt f23;
      VInt f24;
      VInt f25;
      VInt f26;
      VInt f27;
      VString f28;
      VString f29;
      VString f30;
      VString f31;
      VString f32;
      VString f33;
      VString f34;
      VString f35;
      VInt f36;
      VString f37;
      VString f38;
      VString f39;
      VString f40 ] =>
    mkCDXRecord f0 f1 f2 f3 f4 f5 f6 f7 f8 f9 f10 f11 f12 f13 f14 f15 f16 f17 f18 f19 f20 f21 f22 f23 f24 f25 f26 f27 f28 f29 f30 f31 f32 f33 f34 f35 f36 f37 f38 f39 f40
  | _ => r0
  end.

Record CDXHeader : Set := mkCDXHeader {
  Format : CDXFormat;
  Fields : list CDXField;
  Delimiter : Z
}.

Record CDXFile : Set := mkCDXFile {
  Header : CDXHeader;
  Records : list CDXRecord
}.

(** The code of the first byte of a string, [s[0]] as a rune. *)
Definition first_byte (s : string) : CDXField :=
  match s with
  | String c _ => code c
  | EmptyString => 0
  end.

Definition parseFormat (format : CDXFormat) : list CDXField :=
  let parts := GoStrings.Fields (GoStrings.concat_all (map string_of_rune format)) in
  if (1 <? length parts)%nat then map first_byte (tl parts) else [].

Definition NewCDXFile (format : CDXFormat) : CDXFile :=
  mkCDXFile (mkCDXHeader format (parseFormat format) (rune " ")) [].

(** The values handed to [Marshal] and [Unmarshal] in this
    development. *)
Inductive any : Set :=
| Nil                          (* nil *)
| NonPointer                   (* a value that is no pointer *)
| Pointer (f : CDXFile).       (* a *CDXFile, pointing at f *)

(** ** Encoding *)

Definition formatField (v : Value) : string :=
  match v with
  | VString s => if String.eqb s "" then "-" else s
  | VInt i => if i =? 0 then "-" else GoStrconv.FormatInt i
  | VTime t => if GoTime.IsZero t then "-" else GoTime.Format t GoTime.CDXTimestampFormat
  | _ => "-"
  end.

(** The inner loop of [marshalRecord]: the first struct field whose
    [cdx] tag is [fieldTag], formatted. *)
Fixpoint find_field (typ : list StructField) (vals : list Value) (fieldTag : string)
  : option Value :=
  match typ, vals with
  | f :: typ', v :: vals' =>
    if String.eqb (Tag_Get (Tag f) "cdx") fieldTag then Some v
    else find_field typ' vals' fieldTag
  | _, _ => None
  end.

Definition joinFields (fields : list string) (delimiter : Z) : string :=
  GoStrings.Join fields (string_of_rune delimiter).

Definition column (record : CDXRecord) (field : CDXField) : string :=
  match find_field CDXRecord_type (fields_of record) (string_of_rune field) with
  | Some fieldValue => formatField fieldValue
  | None => ""
  end.

Definition marshalRecord (record : CDXRecord) (fields : list CDXField) (delimiter : Z)
  : string + error :=
  inl (joinFields (map (column record) fields) delimiter).

Fixpoint marshal_records (records : list CDXRecord) (format : CDXFormat) (delimiter : Z)
  : string + error :=
  match records with
  | [] => inl ""
  | record :: rest =>
    match marshalRecord record format delimiter with
    | inr e => inr (ErrMarshalRecord e)
    | inl line =>
      match marshal_records rest format delimiter with
      | inr e => inr e
      | inl lines => inl (line +:+ LF +:+ lines)
      end
    end
  end.

Definition Marshal (v : any) : list byte + error :=
  match v with
  | Nil => inr ErrInputNil
  | NonPointer => inr ErrNotCDXFile
  | Pointer cdxFile =>
    let head :=
      if (0 <? length (Format (Header cdxFile)))%nat
      then String_ (Format (Header cdxFile)) +:+ LF else "" in
    match marshal_records (Records cdxFile) (Format (Header cdxFile))
            (Delimiter (Header cdxFile)) with
    | inr e => inr e
    | inl lines => inl (bytes_of (head +:+ lines))
    end
  end.

(** ** Decoding *)

(** [setField]'s switch on the kind of the field it found. *)
Definition set_value (f : Value) (value : string) : Value * option error :=
  match f with
  | VString _ => (VString value, None)
  | VInt i =>
    match GoStrconv.ParseInt value with
    | (n, None) => (VInt n, None)
    | (_, Some e) => (VInt i, Some e)
    end
  | VTime t0 =>
    match GoTime.Parse GoTime.CDXTimestampFormat value with
    | Some t => (VTime t, None)
    | None => (VTime t0, Some ErrTimeParse)
    end
  | other => (other, None)
  end.

(** [setField]'s loop over the struct fields. *)
Fixpoint set_first (typ : list StructField) (vals : list Value)
         (field : CDXField) (value : string) : list Value * option error :=
  match typ, vals with
  | f :: typ', v :: vals' =>
    if String.eqb (Tag_Get (Tag f) "cdx") (string_of_rune field) then
      let (v', e) := set_value v value in (v' :: vals', e)
    else
      let (rest, e) := set_first typ' vals' field value in (v :: rest, e)
  | _, _ => (vals, Some (ErrUnknownField field))
  end.

(** [setField(record, field, value)]: the record afterwards, and the
    error. *)
Definition setField (record : CDXRecord) (field : CDXField) (value : string)
  : CDXRecord * option error :=
  let (vals, e) := set_first CDXRecord_type (fields_of record) field value in
  (of_fields vals record, e).

(** The loop over the columns of one row; [parts] is as long as
    [format]. *)
Fixpoint parse_row (format : CDXFormat) (parts : list string) (record : CDXRecord)
  : CDXRecord + error :=
  match format, parts with
  | field :: format', value :: parts' =>
    match setField record field value with
    | (_, Some e) => inr (ErrParsingField field e)
    | (record', None) => parse_row format' parts' record'
    end
  | _, _ => inl record
  end.

(** One turn of the row loop on the line the scanner holds. *)
Definition parse_line (format : CDXFormat) (line : string) (records : list CDXRecord)
  : list CDXRecord + error :=
  if String.eqb line "" then inl records
  else
    let parts := GoStrings.Fields line in
    if negb (Nat.eqb (length parts) (length format)) then
      inr (ErrInvalidRecordLength (length parts) (length format))
    else
      match parse_row format parts zeroRecord with
      | inr e => inr e
      | inl record => inl (records ++ [record])
      end.

(** The row loop of [Unmarshal]. *)
Fixpoint parse_rows (fuel : nat) (scanner : GoBufio.Scanner) (format : CDXFormat)
         (records : list CDXRecord) : (list CDXRecord * GoBufio.Scanner) + error :=
  match fuel with
  | O => inl (records, scanner)
  | S fuel' =>
    let (ok, scanner) := GoBufio.Scan GoBufio.ScanLines scanner in
    if negb ok then inl (records, scanner)
    else
      match parse_line format (string_of (GoBufio.token scanner)) records with
      | inr e => inr e
      | inl records => parse_rows fuel' scanner format records
      end
  end.

(** [scanner.Err()]. *)
Definition Err (s : GoBufio.Scanner) : option error :=
  match GoBufio.err s with
  | Some EOF => None
  | e => e
  end.

(** How [Unmarshal] ends: what it leaves behind the pointer it was
    handed (its argument itself when that is no pointer), and the
    error. *)
Inductive outcome : Set :=
| Returns (final : any) (failure : option error).

(** [Unmarshal(data, v)].  Every scanned line takes at least one byte
    of [data], so the row loop runs at most once per byte. *)
Definition Unmarshal (data : list byte) (v : any) : outcome :=
  let scanner := GoBufio.NewScanner (GoBufio.bytesReader data) in
  let (ok, scanner) := GoBufio.Scan GoBufio.ScanLines scanner in
  if negb ok then Returns v (Some ErrEmptyCDX)
  else
    let header := string_of (GoBufio.token scanner) in
    if negb (GoStrings.HasPrefix header "CDX") then
      Returns v (Some (ErrInvalidCDXHeader header))
    else
      let fields := GoStrings.Fields header in
      let format := map first_byte (tl fields) in
      let cdxFile := NewCDXFile format in
      match parse_rows (S (length data)) scanner format (Records cdxFile) with
      | inr e => Returns v (Some e)
      | inl (records, scanner) =>
        match v with
        | Nil | NonPointer => Returns v (Some ErrMustBePointer)
        | Pointer _ =>
          Returns (Pointer (mkCDXFile (Header cdxFile) records)) (Err scanner)
        end
      end.

End cdx.

(** ** Package [warc]: the records with a decoder of their own *)

(** *** [WarcInfoRecord] *)
Module warcinfo.
Import gwarc.

Record warcInfoExtraRecord : Set := mkExtra {
  Operator : string;
  Software : string;
  Robots : string;
  Hostname : string;
  IP : string;
  UserAgent : string;
  From_ : string
}.

(** A [WarcInfoRecord]: the two structs it embeds. *)
Record WarcInfoRecord : Set := mkWarcInfoRecord {
  WARCRecord_ : WARCRecord;
  warcInfoExtraRecord_ : warcInfoExtraRecord
}.

Definition zeroExtra : warcInfoExtraRecord := mkExtra "" "" "" "" "" "" "".

(** The zero value [WarcInfoRecord{}]. *)
Definition zeroInfo : WarcInfoRecord := mkWarcInfoRecord zeroRecord zeroExtra.

(** The [switch key] of [UnmarshalWARCRecord]. *)
Definition set_extra (x : warcInfoExtraRecord) (key value : string)
  : warcInfoExtraRecord :=
  if String.eqb key "robots" then
    mkExtra (Operator x) (Software x) value (Hostname x) (IP x) (UserAgent x) (From_ x)
  else if String.eqb key "hostname" then
    mkExtra (Operator x) (Software x) (Robots x) value (IP x) (UserAgent x) (From_ x)
  else if String.eqb key "software" then
    mkExtra (Operator x) value (Robots x) (Hostname x) (IP x) (UserAgent x) (From_ x)
  else if String.eqb key "operator" then
    mkExtra value (Software x) (Robots x) (Hostname x) (IP x) (UserAgent x) (From_ x)
  else x.

(** One turn of the loop over the lines of the content. *)
Definition extra_line (x : warcInfoExtraRecord) (line : string) : warcInfoExtraRecord :=
  match GoStrings.SplitN2 line ":"%char with
  | [k; v] => set_extra x (GoStrings.TrimSpace k) (GoStrings.TrimSpace v)
  | _ => x
  end.

(** [w.UnmarshalWARCRecord(data)]: the record afterwards and the
    error, [None] when the call panics. *)
Definition UnmarshalWARCRecord (w : WarcInfoRecord) (data : list byte)
  : option (WarcInfoRecord * option error) :=
  match warc.Unmarshal data (Pointer (WARCRecord_ w)) with
  | warc.Panics => None
  | warc.Returns (Pointer r) (Some e) =>
    Some (mkWarcInfoRecord r (warcInfoExtraRecord_ w), Some e)
  | warc.Returns (Pointer r) None =>
    let lines := GoStrings.Split (string_of (Content r)) "010"%char in
    Some (mkWarcInfoRecord r (fold_left extra_line lines (warcInfoExtraRecord_ w)), None)
  | warc.Returns _ e => Some (w, e)
  end.

(** The errors of [Validate]. *)
Inductive invalid : Set :=
| ErrRecordInvalid          (* "WARC record is invalid" *)
| ErrOperatorRequired
| ErrSoftwareRequired
| ErrRobotsRequired
| ErrHostnameRequired
| ErrIPRequired
| ErrUserAgentRequired
| ErrFromRequired.

(** [w.Validate()]. *)
Definition Validate (w : WarcInfoRecord) : option invalid :=
  let x := warcInfoExtraRecord_ w in
  match gwarc.Validate (WARCRecord_ w) with
  | Some _ => Some ErrRecordInvalid
  | None =>
    if String.eqb (Operator x) "" then Some ErrOperatorRequired
    else if String.eqb (Software x) "" then Some ErrSoftwareRequired
    else if String.eqb (Robots x) "" then Some ErrRobotsRequired
    else if String.eqb (Hostname x) "" then Some ErrHostnameRequired
    else if String.eqb (IP x) "" then Some ErrIPRequired
    else if String.eqb (UserAgent x) "" then Some ErrUserAgentRequired
    else if String.eqb (From_ x) "" then Some ErrFromRequired
    else None
  end.

End warcinfo.

(** *** [MetadataRecord] *)
Module metadata.
Import gwarc.

Record metadataExtraRecord : Set := mkExtra {
  Via : string;
  HopsFromSeed : string;
  FetchTimeMs : Z
}.

(** A [MetadataRecord]: the two structs it embeds. *)
Record MetadataRecord : Set := mkMetadataRecord {
  WARCRecord_ : WARCRecord;
  metadataExtraRecord_ : metadataExtraRecord
}.

(** The zero value [MetadataRecord{}]. *)
Definition zeroMetadata : MetadataRecord :=
  mkMetadataRecord zeroRecord (mkExtra "" "" 0).

(** The loop of [UnmarshalWARCRecord] over the lines of the content:
    the extra fields afterwards, and the error that ended the loop.
    The assignment [m.FetchTimeMs, err = strconv.ParseUint(...)] stores
    the number also when it comes with an error. *)
Fixpoint extra_lines (x : metadataExtraRecord) (lines : list string)
  : metadataExtraRecord * option error :=
  match lines with
  | [] => (x, None)
  | line :: rest =>
    match GoStrings.SplitN2 line ":"%char with
    | [k; v] =>
      let key := GoStrings.TrimSpace k in
      let value := GoStrings.TrimSpace v in
      if String.eqb key "via" then
        extra_lines (mkExtra value (HopsFromSeed x) (FetchTimeMs x)) rest
      else if String.eqb key "hopsFromSeed" then
        extra_lines (mkExtra (Via x) value (FetchTimeMs x)) rest
      else if String.eqb key "fetchTimeMs" then
        match GoStrconv.ParseUint value with
        | (n, Some e) => (mkExtra (Via x) (HopsFromSeed x) n, Some e)
        | (n, None) => extra_lines (mkExtra (Via x) (HopsFromSeed x) n) rest
        end
      else extra_lines x rest
    | _ => extra_lines x rest
    end
  end.

(** [m.UnmarshalWARCRecord(data)]: the record afterwards and the
    error, [None] when the call panics. *)
Definition UnmarshalWARCRecord (m : MetadataRecord) (data : list byte)
  : option (MetadataRecord * option error) :=
  match warc.Unmarshal data (Pointer (WARCRecord_ m)) with
  | warc.Panics => None
  | warc.Returns (Pointer r) (Some e) =>
    Some (mkMetadataRecord r (metadataExtraRecord_ m), Some e)
  | warc.Returns (Pointer r) None =>
    let lines := GoStrings.Split (string_of (Content r)) "010"%char in
    let (x, e) := extra_lines (metadataExtraRecord_ m) lines in
    Some (mkMetadataRecord r x, e)
  | warc.Returns _ e => Some (m, e)
  end.

End metadata.

(** *** [Unmarshal] with its type switch *)
Module dispatch.
Import gwarc.

(** What [Unmarshal] is handed: a value of [any], or a pointer to one
    of the two record types with a method [UnmarshalWARCRecord]. *)
Inductive target : Set :=
| Plain (v : any)
| InfoPointer (w : warcinfo.WarcInfoRecord)          (* a *WarcInfoRecord *)
| MetadataPointer (m : metadata.MetadataRecord).     (* a *MetadataRecord *)

(** How a call ends: it returns, leaving [final] where [v] was, or it
    panics. *)
Inductive outcome : Set :=
| Returned (final : target) (failure : option error)
| Panicked.

(** [Unmarshal(data, v)]: a value that implements
    [WARCRecordUnmarshaler] decodes itself. *)
Definition Unmarshal (data : list byte) (v : target) : outcome :=
  match v with
  | InfoPointer w =>
    match warcinfo.UnmarshalWARCRecord w data with
    | Some (w', e) => Returned (InfoPointer w') e
    | None => Panicked
    end
  | MetadataPointer m =>
    match metadata.UnmarshalWARCRecord m data with
    | Some (m', e) => Returned (MetadataPointer m') e
    | None => Panicked
    end
  | Plain v =>
    match warc.Unmarshal data v with
    | warc.Returns final e => Returned (Plain final) e
    | warc.Panics => Panicked
    end
  end.

End dispatch.

(** ** Package [gwarc]: [Unmarshal]

    The decoder of the root package.  It is the decoder of package
    [warc] without the assignment of the content. *)
Module gwarc_decode.
Import GoReflect gwarc.

(** [setField(field, value)]: the field afterwards, and the error. *)
Definition setField (field : Value) (value : string) : Value * option error :=
  match field with
  | VString _ => (VString value, None)
  | VInt i =>
    match GoStrconv.ParseInt value with
    | (v, None) => (VInt v, None)
    | (_, Some _) => (VInt i, None)
    end
  | VTime t0 =>
    match GoTime.Parse GoTime.RFC3339 value with
    | Some t => (VTime t, None)
    | None => (VTime t0, None)
    end
  | other => (other, None)
  end.

(** The header loop. *)
Fixpoint read_headers (fuel : nat) (reader : GoBufio.Reader)
         (headers : gmap string string)
  : (gmap string string * GoBufio.Reader) + error :=
  match fuel with
  | O => inr (ErrReadHeader ErrNoProgress)
  | S fuel' =>
    let '(line, e, reader') := GoBufio.ReadString reader GoBufio.newline in
    match e with
    | Some e => inr (ErrReadHeader e)
    | None =>
      let line := GoStrings.TrimSpace line in
      if String.eqb line "" then inl (headers, reader')
      else
        match GoStrings.SplitN2 line ":"%char with
        | [k; v] =>
          read_headers fuel' reader'
            (<[GoStrings.TrimSpace k := GoStrings.TrimSpace v]> headers)
        | _ => inr (ErrInvalidHeaderFormat line)
        end
    end
  end.

(** The field loop. *)
Fixpoint set_fields (typ : list StructField) (elem : list Value)
         (headers : gmap string string) : list Value + error :=
  match typ, elem with
  | fieldType :: typ', field :: elem' =>
    let tag := Tag_Get (Tag fieldType) "warc" in
    if String.eqb tag "" then
      match set_fields typ' elem' headers with
      | inl rest => inl (field :: rest)
      | inr e => inr e
      end
    else
      let tagParts := GoStrings.Split tag ","%char in
      let headerName := nth 0 tagParts "" in
      let value := warc.index headers headerName in
      let exists_ := warc.has_key headers headerName in
      if negb exists_ && (1 <? length tagParts)%nat &&
         String.eqb (nth 1 tagParts "") "omitempty"
      then
        match set_fields typ' elem' headers with
        | inl rest => inl (field :: rest)
        | inr e => inr e
        end
      else
        match setField field value with
        | (_, Some e) => inr (ErrSetField (Name fieldType) e)
        | (field', None) =>
          match set_fields typ' elem' headers with
          | inl rest => inl (field' :: rest)
          | inr e => inr e
          end
        end
  | _, _ => inl elem
  end.

(** [Unmarshal(data, v)]. *)
Definition Unmarshal (data : list byte) (v : any) : warc.outcome :=
  let reader := GoBufio.NewReader data in
  let '(versionLine, e, reader) := GoBufio.ReadString reader GoBufio.newline in
  match e with
  | Some e => warc.Returns v (Some (ErrReadVersion e))
  | None =>
    let version := GoStrings.TrimSpace (GoStrings.TrimPrefix versionLine "WARC/") in
    if negb (String.eqb version WARCVariant1_0) && negb (String.eqb version WARCVariant1_1)
    then warc.Returns v (Some (ErrUnsupportedVersion version))
    else
      match v with
      | Nil | NonStruct _ | Struct _ => warc.Returns v (Some ErrMustBePointer)
      | Pointer r =>
        let r := warc.set_Version r version in
        match read_headers (S (length data)) reader ∅ with
        | inr e => warc.Returns (Pointer r) (Some e)
        | inl (headers, reader) =>
          let contentLength :=
            fst (GoStrconv.ParseInt (warc.index headers "Content-Length")) in
          if (contentLength <? 0) || (warc.maxAlloc <? contentLength) then warc.Panics
          else
            let content := warc.make contentLength in
            let '(_, e, _) := GoBufio.Read reader (length content) in
            match e with
            | Some e => warc.Returns (Pointer r) (Some (ErrReadContent e))
            | None =>
              match set_fields WARCRecord_type (fields_of r) headers with
              | inr e => warc.Returns (Pointer r) (Some e)
              | inl elem => warc.Returns (Pointer (of_fields elem r)) None
              end
            end
        end
      end
  end.

End gwarc_decode.

(** * Vocabulary of the statements *)

(** ** Header blocks *)

(** A line of text holds no line feed. *)
Definition no_newline (s : string) : Prop :=
  GoBytes.IndexByte (bytes_of s) GoBufio.newline = None.

(** The version a version line stands for, as [Unmarshal] reads it. *)
Definition version_of (line : string) : string :=
  GoStrings.TrimSpace (GoStrings.TrimPrefix line "WARC/").

Definition supported (version : string) : Prop :=
  version = gwarc.WARCVariant1_0 \/ version = gwarc.WARCVariant1_1.

(** The key and value [Unmarshal] reads off a header line. *)
Definition key_value (line : string) : option (string * string) :=
  match GoStrings.Cut ":"%char (GoStrings.TrimSpace line) with
  | Some (k, v) => Some (GoStrings.TrimSpace k, GoStrings.TrimSpace v)
  | None => None
  end.

(** A header line the decoder takes: no line feed inside, not blank,
    and a colon somewhere. *)
Definition header_line_ok (line : string) : Prop :=
  no_newline line /\ GoStrings.TrimSpace line <> "" /\ is_Some (key_value line).

Definition add_header (headers : gmap string string) (line : string)
  : gmap string string :=
  match key_value line with
  | Some (k, v) => <[k := v]> headers
  | None => headers
  end.

(** The map of a list of header lines; a later line of the same key
    wins. *)
Definition headers_of (lines : list string) : gmap string string :=
  fold_left add_header lines ∅.

(** The text of lines, each ended by a line feed. *)
Definition unlines (lines : list string) : string :=
  GoStrings.concat_all (map (fun l => l +:+ LF) lines).

(** The header map [Unmarshal] builds from [data], when it gets that
    far. *)
Definition header_block (data : list byte) : option (gmap string string) :=
  let '(_, e, reader) := GoBufio.ReadString (GoBufio.NewReader data) GoBufio.newline in
  match e with
  | Some _ => None
  | None =>
    match warc.read_headers (S (length data)) reader ∅ with
    | inl (headers, _) => Some headers
    | inr _ => None
    end
  end.

(** The errors [warc.Unmarshal] returns. *)
Definition Unmarshal_error (e : error) : Prop :=
  (exists e', e = ErrReadVersion e') \/ (exists v, e = ErrUnsupportedVersion v) \/
  e = ErrMustBePointer \/ (exists e', e = ErrReadHeader e') \/
  (exists line, e = ErrInvalidHeaderFormat line) \/ (exists e', e = ErrReadContent e').

(** The assignment [headers[k] = v] of one entry. *)
Definition put (m : gmap string string) (kv : string * string) : gmap string string :=
  <[kv.1 := kv.2]> m.

(** ** What a decode leaves in each field *)
Module Decoded.
Import gwarc warc.

(** A field of kind string under the tag [key]; [opt] says whether the
    tag carries [omitempty]. *)
Definition str (headers : gmap string string) (key : string) (opt : bool)
           (old : string) : string :=
  if opt && negb (has_key headers key) then old else index headers key.

Definition time (headers : gmap string string) (key : string) (opt : bool)
           (old : GoTime.Time) : GoTime.Time :=
  if opt && negb (has_key headers key) then old
  else match GoTime.Parse GoTime.RFC3339 (index headers key) with
       | Some t => t
       | None => old
       end.

Definition int (headers : gmap string string) (key : string) (opt : bool)
           (old : Z) : Z :=
  if opt && negb (has_key headers key) then old
  else match GoStrconv.ParseInt (index headers key) with
       | (n, None) => n
       | (_, Some _) => old
       end.

(** What the field loop of [Unmarshal] leaves in one field, and in
    all of them. *)
Definition field (f : GoReflect.StructField) (v : GoReflect.Value)
           (headers : gmap string string) : GoReflect.Value :=
  let tag := GoReflect.Tag_Get (GoReflect.Tag f) "warc" in
  if String.eqb tag "" then v
  else
    let tagParts := GoStrings.Split tag ","%char in
    let headerName := nth 0 tagParts "" in
    if negb (has_key headers headerName) && (1 <? length tagParts)%nat &&
       String.eqb (nth 1 tagParts "") "omitempty"
    then v
    else fst (setField v (index headers headerName)).

Fixpoint fields (typ : list GoReflect.StructField) (elem : list GoReflect.Value)
         (headers : gmap string string) : list GoReflect.Value :=
  match typ, elem with
  | f :: typ', v :: elem' => field f v headers :: fields typ' elem' headers
  | _, _ => elem
  end.

(** The record a successful [Unmarshal] leaves behind a pointer to
    [r0], from the version, the header map and the content it read. *)
Definition record (r0 : WARCRecord) (version : string)
           (headers : gmap string string) (content : list byte) : WARCRecord :=
  {| Version := version;
     RecordID := str headers "WARC-Record-ID" false (RecordID r0);
     ContentLength := ContentLength r0;
     Date := time headers "WARC-Date" false (Date r0);
     Type_ := str headers "WARC-Type" false (Type_ r0);
     ContentType := str headers "Content-Type" true (ContentType r0);
     ConcurrentTo := ConcurrentTo r0;
     BlockDigest := str headers "WARC-Block-Digest" true (BlockDigest r0);
     PayloadDigest := str headers "WARC-Payload-Digest" true (PayloadDigest r0);
     IPAddress := str headers "WARC-IP-Address" true (IPAddress r0);
     RefersTo := str headers "WARC-Refers-To" true (RefersTo r0);
     RefersToTargetURI := str headers "WARC-Refers-To-Target-URI" true (RefersToTargetURI r0);
     RefersToDate := time headers "WARC-Refers-To-Date" true (RefersToDate r0);
     TargetURI := str headers "WARC-Target-URI" true (TargetURI r0);
     Truncated := str headers "WARC-Truncated" true (Truncated r0);
     WarcinfoID := str headers "WARC-Warcinfo-ID" true (WarcinfoID r0);
     Filename := str headers "WARC-Filename" true (Filename r0);
     Profile := str headers "WARC-Profile" true (Profile r0);
     IdentifiedPayloadType :=
       str headers "WARC-Identified-Payload-Type" true (IdentifiedPayloadType r0);
     SegmentNumber := int headers "WARC-Segment-Number" true (SegmentNumber r0);
     SegmentOriginID := str headers "WARC-Segment-Origin-ID" true (SegmentOriginID r0);
     SegmentTotalLength := SegmentTotalLength r0;
     Content := content |}.

End Decoded.

(** ** What [Marshal] writes *)
Module Encoded.
Import GoReflect gwarc.

(** The header name and value of every tagged field that is not
    omitted, in declaration order. *)
Fixpoint entries (typ : list StructField) (vals : list Value) : list (string * string) :=
  match typ, vals with
  | fieldType :: typ', field :: vals' =>
    let tag := Tag_Get (Tag fieldType) "warc" in
    if String.eqb tag "" then entries typ' vals'
    else
      let tagParts := parseTag tag in
      if String.eqb (name tagParts) "" then entries typ' vals'
      else
        let value := formatFieldValue field in
        if String.eqb value "" && omitempty tagParts then entries typ' vals'
        else (name tagParts, value) :: entries typ' vals'
  | _, _ => []
  end.

Definition emitted (r : WARCRecord) : list (string * string) :=
  entries WARCRecord_type (fields_of r).

(** The header names of a struct type, in declaration order. *)
Fixpoint names (typ : list StructField) : list string :=
  match typ with
  | [] => []
  | fieldType :: typ' =>
    let tag := Tag_Get (Tag fieldType) "warc" in
    if String.eqb tag "" then names typ'
    else if String.eqb (name (parseTag tag)) "" then names typ'
    else name (parseTag tag) :: names typ'
  end.

(** A record misses a field [Validate] asks for. *)
Definition missing_required (r : WARCRecord) : Prop :=
  Version r = "" \/ RecordID r = "" \/ GoTime.IsZero (Date r) = true \/ Type_ r = "".

(** The bytes of a record whose header lines are [lines]. *)
Definition output (r : WARCRecord) (lines : list string) : list byte :=
  bytes_of (("WARC/" +:+ Version r +:+ CRLF) +:+ GoStrings.concat_all lines +:+
            "Content-Length: " +:+ GoStrconv.Itoa (Z.of_nat (length (Content r))) +:+ CRLF +:+
            CRLF)
  ++ Content r.

(** The output with the header lines in declaration order. *)
Definition in_declaration_order (r : WARCRecord) : list byte :=
  output r (map header_line (emitted r)).

(** The number of colons of a line. *)
Fixpoint colons (s : string) : nat :=
  match s with
  | EmptyString => 0%nat
  | String c s' => ((if Ascii.eqb c ":"%char then 1 else 0) + colons s')%nat
  end.

End Encoded.

(** ** Example records and blocks *)
Module Examples.
Import gwarc.

(** The block of the concrete scenario of the specification. *)
Definition scenario_lines : list string :=
  [ "WARC-Type: response" +:+ CR;
    "WARC-Date: 2024-01-01T10:00:00Z" +:+ CR;
    "WARC-Record-ID: <urn:uuid:abc>" +:+ CR;
    "Content-Length: 13" +:+ CR;
    "Content-Type: text/plain" +:+ CR ].

Definition scenario : list byte :=
  bytes_of ("WARC/1.0" +:+ CRLF +:+ unlines scenario_lines +:+ CRLF +:+ "Hello, World!").

(** What it decodes to. *)
Definition scenario_record : WARCRecord :=
  {| Version := "1.0"; RecordID := "<urn:uuid:abc>"; ContentLength := 0;
     Date := GoTime.Date 2024 1 1 10 0 0 0; Type_ := "response";
     ContentType := "text/plain"; ConcurrentTo := []; BlockDigest := "";
     PayloadDigest := ""; IPAddress := ""; RefersTo := "";
     RefersToTargetURI := ""; RefersToDate := GoTime.zero; TargetURI := "";
     Truncated := ""; WarcinfoID := ""; Filename := ""; Profile := "";
     IdentifiedPayloadType := ""; SegmentNumber := 0; SegmentOriginID := "";
     SegmentTotalLength := 0; Content := bytes_of "Hello, World!" |}.

(** A block with a version line and a content length only. *)
Definition bare_block : list byte :=
  bytes_of ("WARC/1.0" +:+ CRLF +:+ "Content-Length: 0" +:+ CRLF +:+ CRLF).

Definition bare_record : WARCRecord :=
  {| Version := "1.0"; RecordID := ""; ContentLength := 0;
     Date := GoTime.zero; Type_ := "";
     ContentType := ""; ConcurrentTo := []; BlockDigest := "";
     PayloadDigest := ""; IPAddress := ""; RefersTo := "";
     RefersToTargetURI := ""; RefersToDate := GoTime.zero; TargetURI := "";
     Truncated := ""; WarcinfoID := ""; Filename := ""; Profile := "";
     IdentifiedPayloadType := ""; SegmentNumber := 0; SegmentOriginID := "";
     SegmentTotalLength := 0; Content := [] |}.


(** The scenario with a header line that lacks its colon. *)
Definition no_colon_line : string := "Content-Length 13" +:+ CR.

Definition no_colon_block : list byte :=
  bytes_of ("WARC/1.0" +:+ CR +:+ LF +:+ unlines (firstn 3 scenario_lines) +:+
            no_colon_line +:+ LF +:+ "Content-Type: text/plain" +:+ CRLF +:+ CRLF +:+
            "Hello, World!").

(** The record "with concurrent records" of the tests of [Marshal]. *)
Definition concurrent_record : WARCRecord :=
  {| Version := "1.0"; RecordID := "<urn:uuid:12345678>"; ContentLength := 0;
     Date := GoTime.Date 2024 1 1 10 0 0 0; Type_ := "resource";
     ContentType := "";
     ConcurrentTo := ["<urn:uuid:concurrent1>"; "<urn:uuid:concurrent2>"];
     BlockDigest := ""; PayloadDigest := ""; IPAddress := ""; RefersTo := "";
     RefersToTargetURI := ""; RefersToDate := GoTime.zero; TargetURI := "";
     Truncated := ""; WarcinfoID := ""; Filename := ""; Profile := "";
     IdentifiedPayloadType := ""; SegmentNumber := 0; SegmentOriginID := "";
     SegmentTotalLength := 0; Content := [] |}.

(** The record "basic record" of the tests of [Marshal]. *)
Definition basic_record : WARCRecord :=
  {| Version := "1.0";
     RecordID := "<urn:uuid:12345678-1234-1234-1234-123456789012>";
     ContentLength := 0;
     Date := GoTime.Date 2024 1 1 10 0 0 0; Type_ := "response";
     ContentType := "text/plain"; ConcurrentTo := []; BlockDigest := "";
     PayloadDigest := ""; IPAddress := ""; RefersTo := "";
     RefersToTargetURI := ""; RefersToDate := GoTime.zero; TargetURI := "";
     Truncated := ""; WarcinfoID := ""; Filename := ""; Profile := "";
     IdentifiedPayloadType := ""; SegmentNumber := 0; SegmentOriginID := "";
     SegmentTotalLength := 0; Content := bytes_of "Hello, World!" |}.

(** The record "missing required fields" of the tests of [Marshal]. *)
Definition version_only : WARCRecord :=
  {| Version := "1.0"; RecordID := ""; ContentLength := 0;
     Date := GoTime.zero; Type_ := "";
     ContentType := ""; ConcurrentTo := []; BlockDigest := "";
     PayloadDigest := ""; IPAddress := ""; RefersTo := "";
     RefersToTargetURI := ""; RefersToDate := GoTime.zero; TargetURI := "";
     Truncated := ""; WarcinfoID := ""; Filename := ""; Profile := "";
     IdentifiedPayloadType := ""; SegmentNumber := 0; SegmentOriginID := "";
     SegmentTotalLength := 0; Content := [] |}.

(** A metadata block whose content holds a fetch time that is no
    number. *)
Definition bad_fetch_time_block : list byte :=
  bytes_of ("WARC/1.0" +:+ CRLF +:+
            unlines [ "WARC-Type: metadata" +:+ CR;
                      "WARC-Date: 2024-01-01T10:00:00Z" +:+ CR;
                      "WARC-Record-ID: <urn:uuid:abc>" +:+ CR;
                      "Content-Length: 24" +:+ CR ] +:+
            CRLF +:+ "via: x" +:+ LF +:+ "fetchTimeMs: abc" +:+ LF).

(** Two orders in which a loop may visit a map. *)
Definition forwards : map_order := map_to_list.
Definition backwards : map_order := fun m => rev (map_to_list m).

End Examples.

(** ** Streams of records *)
Module Segments.

(** The boundary marker stands at offset [i] of [s]. *)
Definition occurs (s : list byte) (i : nat) : bool :=
  GoBytes.HasPrefix (skipn i s) warc.marker.

(** The offsets of [s] at which the marker stands. *)
Definition occurrences (s : list byte) : list nat :=
  List.filter (occurs s) (seq 0 (length s)).

(** The offsets at which the records of a stream start. *)
Fixpoint offsets_from (k : nat) (records : list (list byte)) : list nat :=
  match records with
  | [] => []
  | r :: rest => k :: offsets_from (k + length r) rest
  end.

Definition offsets (records : list (list byte)) : list nat := offsets_from 0 records.

(** A record the scanner can hold: it opens with the marker, and it
    fits the largest buffer together with the marker that follows. *)
Definition fits (r : list byte) : Prop :=
  GoBytes.HasPrefix r warc.marker = true /\
  (length r + 5 <= GoBufio.MaxScanTokenSize)%nat.

(** A well-formed record whose content holds the marker. *)
Definition marker_in_content : list byte :=
  bytes_of ("WARC/1.0" +:+ CRLF +:+
            unlines [ "WARC-Type: resource" +:+ CR;
                      "WARC-Date: 2024-01-01T10:00:00Z" +:+ CR;
                      "WARC-Record-ID: <urn:uuid:abc>" +:+ CR;
                      "Content-Length: 17" +:+ CR ] +:+
            CRLF +:+ "see WARC/1.0 spec").

(** The chunks the segmenter makes of it. *)
Definition marker_chunk_1 : list byte :=
  bytes_of ("WARC/1.0" +:+ CRLF +:+
            unlines [ "WARC-Type: resource" +:+ CR;
                      "WARC-Date: 2024-01-01T10:00:00Z" +:+ CR;
                      "WARC-Record-ID: <urn:uuid:abc>" +:+ CR;
                      "Content-Length: 17" +:+ CR ] +:+
            CRLF +:+ "see ").

Definition marker_chunk_2 : list byte := bytes_of "WARC/1.0 spec".

(** Two records one after the other, offered in blocks that cut
    through the marker. *)
Definition two_records : list (list byte) := [Examples.scenario; Examples.scenario].

Definition two_records_blocks : list (list byte) :=
  [ firstn 100 Examples.scenario;
    skipn 100 Examples.scenario ++ firstn 3 Examples.scenario;
    skipn 3 Examples.scenario ].

(** The marker stands in the stream at the starts of the records and
    nowhere else. *)
Definition marks (records : list (list byte)) : Prop :=
  forall i, occurs (concat records) i = true <-> In i (offsets records).

End Segments.

(** ** CDX files *)
Module Rows.
Import GoReflect cdx.

(** The text of a scanned line: the line without its line feed and
    without a carriage return in front of it. *)
Definition text_of (line : string) : string :=
  string_of (GoBufio.dropCR (bytes_of line)).

(** A line the scanner can hold: no line feed inside, and shorter
    than its largest buffer. *)
Definition line_fits (line : string) : Prop :=
  no_newline line /\ (String.length line < GoBufio.MaxScanTokenSize)%nat.

(** The format a header line declares. *)
Definition format_of (header : string) : CDXFormat :=
  map first_byte (tl (GoStrings.Fields (text_of header))).

(** A line the row loop takes: one the scanner can hold, blank or
    decoded without error. *)
Definition row_ok (format : CDXFormat) (line : string) : Prop :=
  line_fits line /\ exists records, parse_line format (text_of line) [] = inl records.

(** The field of a record that a column code names. *)
Definition value_of (record : CDXRecord) (field : CDXField) : option Value :=
  find_field CDXRecord_type (fields_of record) (string_of_rune field).

(** The zero values: the empty string, zero, the zero time. *)
Definition is_zero (v : Value) : bool :=
  match v with
  | VString s => String.eqb s ""
  | VInt i => (i =? 0)%Z
  | VTime t => GoTime.IsZero t
  | _ => false
  end.

(** The kind of a value. *)
Definition kind (v : Value) : nat :=
  match v with
  | VString _ => 0
  | VInt _ => 1
  | VUint _ => 2
  | VTime _ => 3
  | VStrings _ => 4
  | VBytes _ => 5
  end%nat.

(** The concrete CDX scenario of the specification. *)
Definition scenario_header : string := "CDX N b a m s k r V g".

Definition scenario_row : string :=
  "http://example.com/ 20010424210312 http://example.com/ text/html 200 ZMSA5TNJUKKRYAIM5PRUJLL24DV7QYOO - 12345 example.warc.gz".

Definition scenario_file : list byte :=
  bytes_of (scenario_header +:+ LF +:+ scenario_row).

(** The row of the test "invalid field count". *)
Definition short_row : string :=
  "http://example.com/ 20010424210312 http://example.com/".

(** The scenario with two rows before its row that hold no field: a
    carriage return alone, and nothing. *)
Definition blank_rows_file : list byte :=
  bytes_of (scenario_header +:+ LF +:+ CR +:+ LF +:+ LF +:+ scenario_row).

(** A row of one field, as long as the largest buffer of the
    scanner, and the scenario with this row after its own. *)
Definition long_row : list byte := repeat "a"%byte GoBufio.MaxScanTokenSize.

Definition long_row_file : list byte :=
  bytes_of (scenario_header +:+ LF +:+ scenario_row +:+ LF) ++ long_row.

(** The scenario with the sentinel in the offset column. *)
Definition sentinel_offset_file : list byte :=
  bytes_of (scenario_header +:+ LF +:+
            "http://example.com/ 20010424210312 http://example.com/ text/html 200 ZMSA5TNJUKKRYAIM5PRUJLL24DV7QYOO - - example.warc.gz").

(** A stream that goes on with a row that is not blank. *)
Definition goes_on (row tail : string) : Prop :=
  text_of row <> EmptyString /\ line_fits row /\
  (tail = EmptyString \/ exists rest, tail = LF +:+ rest).

End Rows.

(** ** Readers and scanners at work *)
Module Scanning.
Import GoBufio.

(** What a reader has left to do: twice the bytes it has not read,
    and one more when its buffer is full. *)
Definition reader_measure (b : Reader) : nat :=
  (2 * length (source b) + (if (defaultBufSize <=? length (buffered b))%nat then 1 else 0))%nat.

(** The split function frames the token [tok] at the head of
    [stream]: it finds it, and takes [n] bytes, as soon as it sees
    [need] bytes of the stream, asks for more before, and takes a
    stream that ends earlier whole. *)
Record frame (split : SplitFunc) (stream : list byte) (n : nat) (tok : list byte)
  (need : nat) : Prop := {
  frame_need : (need <= MaxScanTokenSize)%nat;
  frame_pos : (0 < n)%nat;
  frame_le : (n <= need)%nat;
  frame_full : forall p q atEOF,
    stream = p ++ q -> (need <= length p)%nat -> split p atEOF = (n, Some tok);
  frame_part : forall p q,
    stream = p ++ q -> (length p < need)%nat -> split p false = (0%nat, None);
  frame_last :
    (length stream < need)%nat ->
    split stream true = (length stream, Some tok) /\ n = length stream
}.

(** A scanner that is ready to scan [stream]: no error so far, the
    stream is what its buffer holds followed by what its reader has to
    offer, and the data fits the buffer. *)
Definition ready (s : Scanner) (stream : list byte) : Prop :=
  err s = None /\
  data s ++ concat (rd s) = stream /\
  (start s + length (data s) <= buf_len s)%nat /\
  (buf_len s <= MaxScanTokenSize)%nat /\
  Forall (fun c => c <> []) (rd s).

(** A scanner that has seen the end of its input and handed out
    everything. *)
Definition finished (s : Scanner) : Prop :=
  err s = Some EOF /\ data s = [] /\ rd s = [].

End Scanning.

(** ** CDX files *)
Module Files.
Import cdx Rows.




(** A column code that is a printable ASCII character other than the
    blank. *)
Definition printable (r : CDXField) : Prop := 32 < r < 127.

(** A text of such characters only. *)
Fixpoint is_word (w : string) : Prop :=
  match w with
  | EmptyString => True
  | String c w' => 32 < code c < 127 /\ is_word w'
  end.


End Files.

(** ** Warcinfo records *)
Module InfoExamples.
Import gwarc warcinfo.

(** The extra lines of a warcinfo record, as [MarshalWARCRecord]
    writes them. *)
Definition info_lines : string :=
  "operator: me" +:+ LF +:+ "software: gwarc" +:+ LF +:+ "robots: obey" +:+ LF +:+
  "hostname: host" +:+ LF +:+ "ip: 127.0.0.1" +:+ LF +:+
  "http-header-user-agent: agent" +:+ LF +:+ "http-header-from: me@host" +:+ LF.

(** A warcinfo block with these lines as its content. *)
Definition info_block : list byte :=
  bytes_of ("WARC/1.0" +:+ CRLF +:+
            unlines [ "WARC-Type: warcinfo" +:+ CR;
                      "WARC-Date: 2024-01-01T10:00:00Z" +:+ CR;
                      "WARC-Record-ID: <urn:uuid:abc>" +:+ CR;
                      "Content-Length: 127" +:+ CR ] +:+
            CRLF +:+ info_lines).

End InfoExamples.

(** * Properties *)

(** * Properties *)

(** ** Bytes and strings *)
Section BytesStrings.

Lemma byte_eqb_eq a b : byte_eqb a b = true <-> a = b.
Proof.
  unfold byte_eqb. split.
  - apply Byte.byte_dec_bl.
  - apply Byte.byte_dec_lb.
Qed.

Lemma byte_eqb_refl a : byte_eqb a a = true.
Proof. now apply byte_eqb_eq. Qed.

Lemma byte_eqb_neq a b : byte_eqb a b = false <-> a <> b.
Proof.
  destruct (byte_eqb a b) eqn:E.
  - apply byte_eqb_eq in E. split; [discriminate | congruence].
  - split; [|reflexivity]. intros _ ->. rewrite byte_eqb_refl in E. discriminate.
Qed.

Lemma append_assoc s t u : (s +:+ t) +:+ u = s +:+ (t +:+ u).
Proof.
  induction s as [|c s IH]; [reflexivity|].
  change (String c ((s +:+ t) +:+ u) = String c (s +:+ (t +:+ u))). now rewrite IH.
Qed.

Lemma bytes_of_app s t : bytes_of (s +:+ t) = bytes_of s ++ bytes_of t.
Proof.
  unfold bytes_of, list_byte_of_string.
  induction s as [|c s IH]; simpl; [reflexivity|]. now rewrite IH.
Qed.

Lemma string_of_bytes_of s : string_of (bytes_of s) = s.
Proof. apply string_of_list_byte_of_string. Qed.

Lemma bytes_of_string_of b : bytes_of (string_of b) = b.
Proof. apply list_byte_of_string_of_list_byte. Qed.

Lemma string_of_app a b : string_of (a ++ b) = string_of a +:+ string_of b.
Proof.
  rewrite <- (string_of_bytes_of (string_of a +:+ string_of b)).
  now rewrite bytes_of_app, !bytes_of_string_of.
Qed.

Lemma bytes_of_LF : bytes_of LF = [GoBufio.newline].
Proof. reflexivity. Qed.

Lemma length_bytes_of s : length (bytes_of s) = String.length s.
Proof.
  unfold bytes_of, list_byte_of_string.
  induction s; simpl; congruence.
Qed.

End BytesStrings.

(** ** [bytes.IndexByte] *)
Section IndexByte.
Import GoBytes.

Lemma IndexByte_None s c : IndexByte s c = None <-> ~ In c s.
Proof.
  induction s as [|b s IH]; simpl.
  - tauto.
  - destruct (byte_eqb b c) eqn:E.
    + apply byte_eqb_eq in E. split; [discriminate | tauto].
    + apply byte_eqb_neq in E. destruct (IndexByte s c); simpl.
      * split; [discriminate|]. intros H. exfalso. apply H. right.
        destruct IH as [_ IH]. destruct (in_dec Byte.byte_eq_dec c s); [assumption|].
        specialize (IH n0). discriminate.
      * split; [|reflexivity]. intros _ [H|H]; [congruence|]. now apply IH.
Qed.

Lemma IndexByte_Some s c i :
  IndexByte s c = Some i ->
  exists pre post, s = pre ++ c :: post /\ ~ In c pre /\ length pre = i.
Proof.
  revert i. induction s as [|b s IH]; simpl; intros i H; [discriminate|].
  destruct (byte_eqb b c) eqn:E.
  - apply byte_eqb_eq in E. subst b. injection H as <-.
    exists [], s. repeat split. intros [].
  - apply byte_eqb_neq in E. destruct (IndexByte s c) as [j|] eqn:Ej; [|discriminate].
    injection H as <-. destruct (IH j eq_refl) as (pre & post & -> & Hpre & Hlen).
    exists (b :: pre), post. repeat split; simpl; [|congruence].
    intros [H|H]; [congruence | tauto].
Qed.

(** The first occurrence of a byte splits a list in one way only. *)
Lemma first_split (c : byte) pre post pre' post' :
  pre ++ c :: post = pre' ++ c :: post' ->
  ~ In c pre -> ~ In c pre' -> pre = pre' /\ post = post'.
Proof.
  revert pre'. induction pre as [|a pre IH]; intros [|a' pre'] H Hn Hn'; simpl in *.
  - injection H as ->. tauto.
  - injection H as <- _. tauto.
  - injection H as -> _. tauto.
  - injection H as -> H. destruct (IH pre' H) as [-> ->]; tauto.
Qed.

(** A list without [c] in front of the first [c] is a prefix of what
    stands before it. *)
Lemma prefix_before (c : byte) buf src line rest :
  buf ++ src = line ++ c :: rest -> ~ In c buf -> ~ In c line ->
  exists line', line = buf ++ line' /\ src = line' ++ c :: rest.
Proof.
  revert line. induction buf as [|a buf IH]; intros line H Hb Hl; simpl in *.
  - exists line. tauto.
  - destruct line as [|a' line]; simpl in *.
    + injection H as -> _. tauto.
    + injection H as -> H. destruct (IH line H) as (line' & -> & ->); [tauto..|].
      now exists line'.
Qed.

End IndexByte.

(** ** [bufio.Reader] *)
Section Reader.
Import GoBytes GoBufio Scanning.

Lemma read_string_loop_line fuel : forall acc b line rest,
  buffered b ++ source b = line ++ newline :: rest ->
  ~ In newline line ->
  pending_eof b = false ->
  (reader_measure b < fuel)%nat ->
  exists b',
    read_string_loop fuel newline acc b = (acc ++ line ++ [newline], None, b') /\
    buffered b' ++ source b' = rest /\ pending_eof b' = false.
Proof.
  induction fuel as [|fuel IH]; intros acc b line rest Hdata Hline Heof Hfuel; [lia|].
  destruct b as [buf src eof]. simpl in Hdata, Heof. subst eof.
  cbn [read_string_loop buffered source pending_eof].
  destruct (IndexByte buf newline) as [i|] eqn:Ei.
  - apply IndexByte_Some in Ei as (pre & post & -> & Hpre & <-).
    rewrite <- app_assoc in Hdata. simpl in Hdata.
    destruct (first_split _ _ _ _ _ Hdata Hpre Hline) as [-> <-].
    assert (Hf : firstn (S (length line)) (line ++ newline :: post) = line ++ [newline]).
    { replace (line ++ newline :: post) with ((line ++ [newline]) ++ post)
        by (now rewrite <- app_assoc).
      rewrite firstn_app, firstn_all2 by (rewrite length_app; simpl; lia).
      rewrite length_app. simpl.
      replace (S (length line) - (length line + 1))%nat with 0%nat by lia.
      now rewrite firstn_O, app_nil_r. }
    assert (Hs : skipn (S (length line)) (line ++ newline :: post) = post).
    { replace (line ++ newline :: post) with ((line ++ [newline]) ++ post)
        by (now rewrite <- app_assoc).
      rewrite skipn_app, skipn_all2 by (rewrite length_app; simpl; lia).
      rewrite length_app. simpl.
      replace (S (length line) - (length line + 1))%nat with 0%nat by lia.
      reflexivity. }
    rewrite Hf, Hs. exists (mkReader post src false). auto.
  - apply IndexByte_None in Ei.
    destruct (prefix_before _ _ _ _ _ Hdata Ei Hline) as (line' & -> & Hsrc).
    unfold reader_measure in Hfuel. cbn [buffered source] in Hfuel.
    destruct (defaultBufSize <=? length buf)%nat eqn:Efull.
    + destruct (IH (acc ++ buf) (mkReader [] src false) line' rest) as (b' & Hb' & Hrest & He).
      * simpl. exact Hsrc.
      * intros H. apply Hline. apply in_or_app. now right.
      * reflexivity.
      * unfold reader_measure. cbn [buffered source].
        replace (defaultBufSize <=? length (@nil byte))%nat with false by reflexivity. lia.
      * exists b'. rewrite Hb'. rewrite <- !app_assoc. auto.
    + apply Nat.leb_gt in Efull.
      destruct src as [|x src]; [destruct line'; discriminate|].
      unfold fill. cbn [source buffered pending_eof].
      set (n := (defaultBufSize - length buf)%nat).
      destruct (IH acc (mkReader (buf ++ firstn n (x :: src)) (skipn n (x :: src)) false)
                  (buf ++ line') rest) as (b' & Hb' & Hrest & He).
      * simpl. rewrite <- app_assoc, firstn_skipn, <- app_assoc. now rewrite Hsrc.
      * exact Hline.
      * reflexivity.
      * unfold reader_measure. cbn [source buffered].
        assert (Hn : (1 <= n)%nat) by (unfold n; lia).
        rewrite length_skipn.
        cbn [length] in Hfuel.
        destruct (defaultBufSize <=? _)%nat; cbn [length]; lia.
      * exists b'. auto.
Qed.

(** [ReadString] returns the first line of what is left to read, with
    its line feed, and leaves the rest to be read. *)
Lemma ReadString_line b line rest :
  buffered b ++ source b = line ++ newline :: rest ->
  ~ In newline line ->
  pending_eof b = false ->
  exists b',
    ReadString b newline = (string_of (line ++ [newline]), None, b') /\
    buffered b' ++ source b' = rest /\ pending_eof b' = false.
Proof.
  intros Hdata Hline Heof. unfold ReadString.
  destruct (read_string_loop_line (2 * length (source b) + 2) [] b line rest Hdata Hline Heof)
    as (b' & -> & Hrest & He).
  - unfold reader_measure. destruct (defaultBufSize <=? _)%nat; lia.
  - exists b'. auto.
Qed.

End Reader.

(** ** [strings.TrimSpace] on a line and its line feed *)
Section TrimSpace.
Import GoStrings.

Lemma append_cons c s t : String c s +:+ t = String c (s +:+ t).
Proof. reflexivity. Qed.

Lemma append_nil t : EmptyString +:+ t = t.
Proof. reflexivity. Qed.

Lemma space_width_LF s :
  s <> EmptyString -> space_width (s +:+ LF) = space_width s.
Proof.
  intros Hs. unfold LF.
  destruct s as [|c1 [|c2 [|c3 s]]]; [congruence|..];
    rewrite ?append_cons, ?append_nil; cbn [space_width].
  - destruct (_ || _); [reflexivity|].
    change (code (ascii_of_nat 10)) with 10.
    change (10 =? 133) with false. change (10 =? 160) with false.
    now rewrite andb_false_r.
  - destruct (_ || _); [reflexivity|].
    destruct (_ && _); [reflexivity|].
    change (code (ascii_of_nat 10)) with 10.
    cbn [Z.eqb Z.leb Z.compare Pos.compare Pos.compare_cont Pos.eqb andb orb].
    now rewrite !andb_false_r.
  - reflexivity.
Qed.

Lemma trim_left_aux_LF s : forall skip,
  trim_left_aux skip (s +:+ LF) = trim_left_aux skip s +:+ LF \/
  (trim_left_aux skip (s +:+ LF) = EmptyString /\ trim_left_aux skip s = EmptyString).
Proof.
  induction s as [|c s IH]; intros skip.
  - right. rewrite append_nil. unfold LF. destruct skip as [|[|k]]; split; reflexivity.
  - destruct skip as [|k].
    + rewrite append_cons. cbn [trim_left_aux]. rewrite <- append_cons.
      rewrite space_width_LF by discriminate.
      destruct (space_width (String c s)); [left; reflexivity|apply IH].
    + rewrite append_cons. cbn [trim_left_aux]. apply IH.
Qed.

Lemma TrimRightSpace_LF s : TrimRightSpace (s +:+ LF) = TrimRightSpace s.
Proof.
  induction s as [|c s IH]; [reflexivity|].
  rewrite append_cons. cbn [TrimRightSpace]. now rewrite IH.
Qed.

(** The line feed that ends a line does not survive [TrimSpace]. *)
Lemma TrimSpace_LF s : TrimSpace (s +:+ LF) = TrimSpace s.
Proof.
  unfold TrimSpace, TrimLeftSpace.
  destruct (trim_left_aux_LF s 0) as [-> | [-> ->]]; [apply TrimRightSpace_LF | reflexivity].
Qed.

End TrimSpace.

(** ** The field loop of [warc.Unmarshal] *)
Section FieldLoop.
Import GoReflect gwarc warc.

Lemma of_fields_fields_of r r0 : of_fields (fields_of r) r0 = r.
Proof. destruct r; reflexivity. Qed.

(** [setField] reports no error, whatever the field and the value. *)
Lemma setField_no_error field value : snd (setField field value) = None.
Proof.
  destruct field; unfold setField; try reflexivity.
  - destruct (GoStrconv.ParseInt value) as [n [e|]]; reflexivity.
  - destruct (GoTime.Parse GoTime.RFC3339 value); reflexivity.
Qed.

Lemma set_fields_fields typ : forall elem headers,
  set_fields typ elem headers = inl (Decoded.fields typ elem headers).
Proof.
  induction typ as [|f typ IH]; intros [|v elem] headers; try reflexivity.
  cbn [set_fields Decoded.fields]. unfold Decoded.field.
  rewrite IH.
  destruct (String.eqb _ ""); [reflexivity|].
  destruct (_ && _); [reflexivity|].
  pose proof (setField_no_error v (index headers (nth 0 (GoStrings.Split (Tag_Get (Tag f) "warc") ","%char) ""))) as H.
  destruct (setField v _) as [v' e]. simpl in H. subst e. reflexivity.
Qed.

Lemma fields_WARCRecord r headers :
  Decoded.fields WARCRecord_type (fields_of r) headers =
  fields_of (Decoded.record r (Version r) headers (Content r)).
Proof.
  unfold WARCRecord_type, fields_of, Decoded.record.
  cbn [Decoded.fields Version RecordID ContentLength Date Type_ ContentType
       ConcurrentTo BlockDigest PayloadDigest IPAddress RefersTo
       RefersToTargetURI RefersToDate TargetURI Truncated WarcinfoID Filename
       Profile IdentifiedPayloadType SegmentNumber SegmentOriginID
       SegmentTotalLength Content].
  repeat (f_equal; []).
  repeat match goal with
  | |- _ :: _ = _ :: _ => f_equal
  end.
  all: unfold Decoded.field, Decoded.str, Decoded.time, Decoded.int;
    cbv -[has_key index GoTime.Parse GoStrconv.ParseInt];
    try reflexivity;
    repeat match goal with
    | |- context [has_key ?h ?k] => destruct (has_key h k)
    end;
    try reflexivity.
  all: match goal with
    | |- context [GoTime.Parse ?l ?v] => destruct (GoTime.Parse l v)
    | |- context [GoStrconv.ParseInt ?v] => destruct (GoStrconv.ParseInt v) as [? [?|]]
    end; reflexivity.
Qed.

End FieldLoop.

(** ** [warc.Unmarshal] *)
Section Unmarshal.
Import GoReflect gwarc warc.

Lemma Read_length b n got e b' :
  GoBufio.Read b n = (got, e, b') -> (length got <= n)%nat.
Proof.
  unfold GoBufio.Read. intros H. cbv zeta in H.
  destruct n as [|n].
  - destruct (GoBufio.buffered b); injection H as <- _ _; simpl; lia.
  - destruct (GoBufio.buffered b) eqn:Eb.
    + destruct (GoBufio.pending_eof b); [injection H as <- _ _; simpl; lia|].
      destruct (GoBufio.source b); [injection H as <- _ _; simpl; lia|].
      destruct (GoBufio.defaultBufSize <=? S n)%nat;
        injection H as <- _ _; cbn [length]; rewrite ?length_firstn; lia.
    + injection H as <- _ _. cbn [length]. rewrite ?length_firstn; lia.
Qed.

Lemma length_copy dst src :
  (length src <= length dst)%nat -> length (copy dst src) = length dst.
Proof. intros H. unfold copy. rewrite length_app, length_skipn. lia. Qed.

Lemma length_make n : length (make n) = Z.to_nat n.
Proof. unfold make. apply repeat_length. Qed.

(** The errors of the header loop. *)
Lemma read_headers_errors fuel : forall reader headers e,
  read_headers fuel reader headers = inr e ->
  (exists e', e = ErrReadHeader e') \/ (exists line, e = ErrInvalidHeaderFormat line).
Proof.
  induction fuel as [|fuel IH]; intros reader headers e H; cbn [read_headers] in H.
  - injection H as <-. left. eauto.
  - destruct (GoBufio.ReadString reader GoBufio.newline) as [[line e0] reader'].
    destruct e0 as [e0|]; [injection H as <-; left; eauto|].
    destruct (String.eqb _ ""); [discriminate|].
    destruct (GoStrings.SplitN2 _ _) as [|k [|v [|x l]]];
      try (injection H as <-; right; eauto).
    eapply IH; eassumption.
Qed.


Lemma Unmarshal_errors data v final e :
  Unmarshal data v = Returns final (Some e) -> Unmarshal_error e.
Proof.
  unfold Unmarshal, Unmarshal_error. intros H.
  destruct (GoBufio.ReadString _ _) as [[versionLine e0] reader].
  destruct e0 as [e0|]; [injection H as _ <-; eauto|].
  destruct (_ && _); [injection H as _ <-; eauto 7|].
  destruct v as [| |r|r]; try (injection H as _ <-; tauto).
  destruct (read_headers _ _ _) as [[headers reader']|e1] eqn:Eh.
  - destruct (_ || _); [discriminate|].
    destruct (GoBufio.Read _ _) as [[got e2] reader''].
    destruct e2 as [e2|]; [injection H as _ <-; eauto 10|].
    rewrite set_fields_fields in H. discriminate.
  - injection H as _ <-. apply read_headers_errors in Eh as [[e' ->]|[l ->]]; eauto 10.
Qed.

(** The errors of [strconv.ParseUint]. *)
Lemma parse_uint_loop_errors s : forall n e,
  (GoStrconv.parse_uint_loop n s).2 = Some e -> e = ErrSyntax \/ e = ErrRange.
Proof.
  induction s as [|c s IH]; intros n e; cbn [GoStrconv.parse_uint_loop]; [discriminate|].
  destruct (GoStrconv.is_digit c); [|intros [= <-]; now left].
  destruct (_ <=? n); [intros [= <-]; now right|].
  destruct (_ <? _); [intros [= <-]; now right|]. apply IH.
Qed.

Lemma ParseUint_errors s e :
  (GoStrconv.ParseUint s).2 = Some e -> e = ErrSyntax \/ e = ErrRange.
Proof.
  destruct s as [|c s]; [intros [= <-]; now left|]. apply parse_uint_loop_errors.
Qed.

(** The loop over the content of a metadata record reports the error
    of [strconv.ParseUint] on a line [fetchTimeMs] and no other. *)
Lemma extra_lines_errors lines : forall x x' e,
  metadata.extra_lines x lines = (x', Some e) ->
  exists line k v,
    In line lines /\ GoStrings.SplitN2 line ":" = [k; v] /\
    GoStrings.TrimSpace k = "fetchTimeMs" /\
    (GoStrconv.ParseUint (GoStrings.TrimSpace v)).2 = Some e.
Proof.
  induction lines as [|line lines IH]; intros x x' e H; cbn [metadata.extra_lines] in H;
    [discriminate|].
  assert (Hrest : forall y, metadata.extra_lines y lines = (x', Some e) ->
            exists line' k v, In line' (line :: lines) /\
              GoStrings.SplitN2 line' ":" = [k; v] /\
              GoStrings.TrimSpace k = "fetchTimeMs" /\
              (GoStrconv.ParseUint (GoStrings.TrimSpace v)).2 = Some e).
  { intros y Hy. destruct (IH _ _ _ Hy) as (l & k & v & Hin & Hrest).
    exists l, k, v. split; [now right|exact Hrest]. }
  destruct (GoStrings.SplitN2 line ":") as [|k [|v [|y l]]] eqn:Es; eauto.
  destruct (String.eqb _ "via"); eauto.
  destruct (String.eqb _ "hopsFromSeed"); eauto.
  destruct (String.eqb_spec (GoStrings.TrimSpace k) "fetchTimeMs") as [Ek|]; eauto.
  destruct (GoStrconv.ParseUint (GoStrings.TrimSpace v)) as [n [e'|]] eqn:Ep; eauto.
  injection H as _ <-. exists line, k, v. rewrite Ep. repeat split; auto. now left.
Qed.

(** The errors of [Unmarshal], whatever it is handed: those of the
    decode of a [WARCRecord], and for a pointer to a metadata record
    the error of [strconv.ParseUint] on a line [fetchTimeMs] as
    well. *)
Lemma dispatch_errors data v final e :
  dispatch.Unmarshal data v = dispatch.Returned final (Some e) ->
  Unmarshal_error e \/
  (exists m line k value,
     v = dispatch.MetadataPointer m /\
     GoStrings.SplitN2 line ":" = [k; value] /\
     GoStrings.TrimSpace k = "fetchTimeMs" /\
     (GoStrconv.ParseUint (GoStrings.TrimSpace value)).2 = Some e).
Proof.
  unfold dispatch.Unmarshal. intros H. destruct v as [v|w|m].
  - destruct (Unmarshal data v) as [final' e'|] eqn:Eu; [|discriminate].
    injection H as _ ->. left. eapply Unmarshal_errors; eassumption.
  - unfold warcinfo.UnmarshalWARCRecord in H.
    destruct (Unmarshal data _) as [final' e'|] eqn:Eu; [|discriminate].
    assert (He : e' = Some e).
    { destruct final' as [|s|r|r]; try (now injection H as _ ->).
      destruct e'; now injection H as _ ->. }
    subst e'. left. eapply Unmarshal_errors; eassumption.
  - unfold metadata.UnmarshalWARCRecord in H.
    destruct (Unmarshal data _) as [final' e'|] eqn:Eu; [|discriminate].
    destruct final' as [|s|r|r];
      try (injection H as _ ->; left; eapply Unmarshal_errors; eassumption).
    destruct e' as [e'|].
    + injection H as _ ->. left. eapply Unmarshal_errors; eassumption.
    + destruct (metadata.extra_lines _ _) as [x e'] eqn:Ex.
      injection H as _ ->.
      apply extra_lines_errors in Ex as (l & k & v & _ & Hs & Hk & Hp).
      right. exists m, l, k, v. auto.
Qed.

Lemma record_set r0 version headers content :
  Decoded.record (set_Content (set_Version r0 version) content)
    version headers content = Decoded.record r0 version headers content.
Proof. destruct r0; reflexivity. Qed.

(** What a successful [Unmarshal] into a [WARCRecord] leaves: the
    record [Decoded.record] builds from a supported version, the
    header map of the block and a content as long as the header
    [Content-Length] says. *)
Lemma Unmarshal_ok data r0 r' :
  Unmarshal data (Pointer r0) = Returns (Pointer r') None ->
  exists version headers content,
    supported version /\
    header_block data = Some headers /\
    Z.of_nat (length content) = fst (GoStrconv.ParseInt (index headers "Content-Length")) /\
    r' = Decoded.record r0 version headers content.
Proof.
  unfold Unmarshal, header_block. intros H.
  destruct (GoBufio.ReadString _ _) as [[versionLine e0] reader].
  destruct e0 as [e0|]; [discriminate|].
  set (version := GoStrings.TrimSpace _) in H.
  assert (Hv : supported version \/
               negb (String.eqb version WARCVariant1_0) && negb (String.eqb version WARCVariant1_1) = true).
  { unfold supported.
    destruct (String.eqb_spec version WARCVariant1_0); [tauto|].
    destruct (String.eqb_spec version WARCVariant1_1); [tauto|]. now right. }
  destruct Hv as [Hv|Hv]; [|rewrite Hv in H; discriminate].
  destruct (_ && _); [discriminate|].
  destruct (read_headers _ _ _) as [[headers reader']|e1]; [|discriminate].
  set (n := fst _) in H.
  destruct (_ || _) eqn:En; [discriminate|].
  apply orb_false_elim in En as [En _]. apply Z.ltb_ge in En.
  destruct (GoBufio.Read _ _) as [[got e2] reader''] eqn:Er.
  destruct e2; [discriminate|].
  rewrite set_fields_fields, fields_WARCRecord, of_fields_fields_of in H.
  injection H as <-. rewrite record_set.
  exists version, headers, (copy (make n) got). repeat split; try assumption.
  apply Read_length in Er. rewrite length_make in Er.
  rewrite length_copy by (rewrite length_make; exact Er).
  rewrite length_make. fold n. lia.
Qed.

End Unmarshal.

(** ** The header loop on a block of lines *)
Section HeaderLoop.
Import GoStrings GoBufio gwarc warc.

Lemma HasPrefix_nil s : HasPrefix s "" = true.
Proof. destruct s; reflexivity. Qed.

Lemma TrimPrefix_LF s :
  TrimPrefix (s +:+ LF) "WARC/" = TrimPrefix s "WARC/" +:+ LF.
Proof.
  unfold TrimPrefix, LF.
  destruct s as [|c1 [|c2 [|c3 [|c4 [|c5 s]]]]];
    rewrite ?append_cons, ?append_nil; cbn [HasPrefix String.length drop];
    repeat match goal with
           | |- context [Ascii.eqb ?a ?b] =>
             tryif is_var b then destruct (Ascii.eqb a b)
             else (let v := eval vm_compute in (Ascii.eqb a b) in
                   change (Ascii.eqb a b) with v)
           end; rewrite ?HasPrefix_nil; reflexivity.
Qed.

Lemma version_of_LF line :
  TrimSpace (TrimPrefix (line +:+ LF) "WARC/") = version_of line.
Proof. unfold version_of. now rewrite TrimPrefix_LF, TrimSpace_LF. Qed.

Lemma string_of_line line :
  string_of (bytes_of line ++ [newline]) = line +:+ LF.
Proof. now rewrite string_of_app, string_of_bytes_of. Qed.

Lemma no_newline_In line : no_newline line -> ~ In newline (bytes_of line).
Proof. apply IndexByte_None. Qed.

Lemma bytes_of_line line tail :
  bytes_of (line +:+ LF +:+ tail) = bytes_of line ++ newline :: bytes_of tail.
Proof. now rewrite !bytes_of_app. Qed.

(** Reading one line of text. *)
Lemma ReadString_text b line tail :
  buffered b ++ source b = bytes_of (line +:+ LF +:+ tail) ->
  no_newline line ->
  pending_eof b = false ->
  exists b',
    ReadString b newline = (line +:+ LF, None, b') /\
    buffered b' ++ source b' = bytes_of tail /\ pending_eof b' = false.
Proof.
  intros Hd Hl He. rewrite bytes_of_line in Hd.
  destruct (ReadString_line b _ _ Hd (no_newline_In _ Hl) He) as (b' & Hr & Ht & He').
  exists b'. now rewrite Hr, string_of_line.
Qed.

Lemma unlines_cons line lines tail :
  unlines (line :: lines) +:+ tail = line +:+ LF +:+ (unlines lines +:+ tail).
Proof.
  unfold unlines. cbn [map concat_all].
  now rewrite !append_assoc.
Qed.

(** The header loop takes a run of well-formed header lines into the
    map, one turn per line. *)
Lemma read_headers_lines lines : forall k reader headers tail,
  Forall header_line_ok lines ->
  buffered reader ++ source reader = bytes_of (unlines lines +:+ tail) ->
  pending_eof reader = false ->
  exists reader',
    read_headers (length lines + k) reader headers =
      read_headers k reader' (fold_left add_header lines headers) /\
    buffered reader' ++ source reader' = bytes_of tail /\
    pending_eof reader' = false.
Proof.
  induction lines as [|line lines IH]; intros k reader headers tail Hok Hd He.
  - exists reader. auto.
  - inversion Hok as [|? ? (Hnl & Hnb & Hkv) Hok']; subst.
    rewrite unlines_cons in Hd.
    destruct (ReadString_text _ _ _ Hd Hnl He) as (b' & Hr & Hd' & He').
    destruct (IH k b' (add_header headers line) tail Hok' Hd' He') as (r' & Hr' & Ht & Hp).
    exists r'. split; [|auto].
    cbn [length Nat.add read_headers fold_left]. rewrite Hr, TrimSpace_LF.
    destruct (String.eqb_spec (TrimSpace line) ""); [contradiction|].
    unfold add_header, key_value in *. unfold SplitN2.
    destruct (Cut ":" (TrimSpace line)) as [[k0 v0]|]; [exact Hr'|].
    destruct Hkv; discriminate.
Qed.

(** A line without a colon stops the loop with that line in the
    error. *)
Lemma read_headers_bad k reader headers bad tail :
  buffered reader ++ source reader = bytes_of (bad +:+ LF +:+ tail) ->
  pending_eof reader = false ->
  no_newline bad -> TrimSpace bad <> "" -> key_value bad = None ->
  read_headers (S k) reader headers = inr (ErrInvalidHeaderFormat (TrimSpace bad)).
Proof.
  intros Hd He Hnl Hnb Hkv.
  destruct (ReadString_text _ _ _ Hd Hnl He) as (b' & Hr & _).
  cbn [read_headers]. rewrite Hr, TrimSpace_LF.
  destruct (String.eqb_spec (TrimSpace bad) ""); [contradiction|].
  unfold key_value in Hkv. unfold SplitN2.
  destruct (Cut ":" (TrimSpace bad)) as [[k0 v0]|]; [discriminate|reflexivity].
Qed.

(** A blank line ends the loop. *)
Lemma read_headers_blank k reader headers blank tail :
  buffered reader ++ source reader = bytes_of (blank +:+ LF +:+ tail) ->
  pending_eof reader = false ->
  no_newline blank -> TrimSpace blank = "" ->
  exists reader',
    read_headers (S k) reader headers = inl (headers, reader') /\
    buffered reader' ++ source reader' = bytes_of tail /\
    pending_eof reader' = false.
Proof.
  intros Hd He Hnl Hb.
  destruct (ReadString_text _ _ _ Hd Hnl He) as (b' & Hr & Ht & He').
  exists b'. cbn [read_headers]. rewrite Hr, TrimSpace_LF, Hb. auto.
Qed.

Lemma length_unlines lines : (length lines <= String.length (unlines lines))%nat.
Proof.
  unfold unlines. induction lines as [|l lines IH]; cbn [map concat_all length]; [lia|].
  rewrite <- !length_bytes_of in *. rewrite !bytes_of_app, !length_app.
  rewrite bytes_of_LF. cbn [length]. lia.
Qed.

End HeaderLoop.

(** * The claims about [warc.Unmarshal] *)
Section DecodeClaims.
Import GoStrings GoBufio gwarc warc Examples.

(** Decoding a block made of a version line, header lines and one more
    line: what [Unmarshal] does depends on that last line only. *)
Lemma Unmarshal_block vline lines last rest r0 :
  no_newline vline ->
  supported (version_of vline) ->
  Forall header_line_ok lines ->
  no_newline last ->
  let data := bytes_of (vline +:+ LF +:+ unlines lines +:+ last +:+ LF +:+ rest) in
  (TrimSpace last = "" -> header_block data = Some (headers_of lines)) /\
  (TrimSpace last <> "" -> key_value last = None ->
   Unmarshal data (Pointer r0) =
     Returns (Pointer (set_Version r0 (version_of vline)))
             (Some (ErrInvalidHeaderFormat (TrimSpace last)))).
Proof.
  intros Hv Hs Hl Hn data.
  assert (Hd : buffered (NewReader data) ++ source (NewReader data) =
               bytes_of (vline +:+ LF +:+ unlines lines +:+ last +:+ LF +:+ rest))
    by reflexivity.
  destruct (ReadString_text _ _ _ Hd Hv eq_refl) as (b1 & Hr1 & Hd1 & He1).
  assert (Hfuel : exists k, S (length data) = (length lines + S k)%nat).
  { exists (length data - length lines)%nat.
    pose proof (length_unlines lines) as Hu.
    unfold data. rewrite !bytes_of_app, !length_app, !length_bytes_of in *. lia. }
  destruct Hfuel as [k Hk].
  destruct (read_headers_lines lines (S k) b1 ∅ _ Hl Hd1 He1) as (b2 & Hr2 & Hd2 & He2).
  split.
  - intros Hb. unfold header_block. rewrite Hr1, Hk, Hr2.
    destruct (read_headers_blank k b2 (fold_left add_header lines ∅) last rest Hd2 He2 Hn Hb)
      as (b3 & -> & _). reflexivity.
  - intros Hnb Hkv. unfold Unmarshal. rewrite Hr1, version_of_LF.
    destruct Hs as [Hs|Hs]; rewrite Hs; cbn [String.eqb Ascii.eqb Bool.eqb negb andb];
      fold data; rewrite Hk, Hr2;
      rewrite (read_headers_bad k b2 _ last rest Hd2 He2 Hn Hnb Hkv); reflexivity.
Qed.

(** C8: the header block is read line by line up to the
    first blank line; a line is split at its first colon, so it needs
    at least one and may hold more; a line that is not blank and has
    no colon fails the decode with the invalid header line error. *)
Theorem header_line_split_at_first_colon vline lines last rest r0 :
  no_newline vline ->
  supported (version_of vline) ->
  Forall header_line_ok lines ->
  no_newline last ->
  let data := bytes_of (vline +:+ LF +:+ unlines lines +:+ last +:+ LF +:+ rest) in
  (TrimSpace last = "" -> header_block data = Some (headers_of lines)) /\
  (TrimSpace last <> "" -> key_value last = None ->
   exists final e,
     Unmarshal data (Pointer r0) = Returns final (Some e) /\
     e = ErrInvalidHeaderFormat (TrimSpace last) /\ InvalidHeaderLine e).
Proof.
  intros Hv Hs Hl Hn data.
  destruct (Unmarshal_block vline lines last rest r0 Hv Hs Hl Hn) as [H1 H2].
  split; [exact H1|]. intros Hnb Hkv.
  eexists _, _. split; [apply (H2 Hnb Hkv)|]. split; [reflexivity|].
  eexists. reflexivity.
Qed.

Lemma scenario_lines_ok : Forall header_line_ok (firstn 3 scenario_lines).
Proof.
  repeat constructor; try (vm_compute; reflexivity); try (vm_compute; discriminate);
    eexists; vm_compute; reflexivity.
Qed.

(** The scenario of the specification with the colon of its fourth
    header line taken out. *)
Lemma header_line_split_at_first_colon_witness :
  exists final e,
    Unmarshal no_colon_block (Pointer zeroRecord) = Returns final (Some e) /\
    e = ErrInvalidHeaderFormat "Content-Length 13" /\ InvalidHeaderLine e.
Proof.
  refine (proj2 (header_line_split_at_first_colon ("WARC/1.0" +:+ CR)
            (firstn 3 scenario_lines) no_colon_line
            ("Content-Type: text/plain" +:+ CRLF +:+ CRLF +:+ "Hello, World!")
            zeroRecord _ _ scenario_lines_ok _) _ _).
  - vm_compute. reflexivity.
  - left. vm_compute. reflexivity.
  - vm_compute. reflexivity.
  - vm_compute. discriminate.
  - vm_compute. reflexivity.
Defined.

(** C8, against the claim as stated: the scenario of the
    specification decodes although its date line holds three colons
    and its identifier line holds three. *)
Lemma decode_accepts_lines_with_several_colons :
  Unmarshal scenario (Pointer zeroRecord) = Returns (Pointer scenario_record) None /\
  Encoded.colons "WARC-Date: 2024-01-01T10:00:00Z" = 3%nat /\
  Encoded.colons "WARC-Record-ID: <urn:uuid:abc>" = 3%nat.
Proof. vm_compute. auto. Qed.

(** C3: the scenario of the specification decodes without error into
    a record whose content has thirteen bytes and whose field
    [ContentLength] is zero.  The field loop has no case for an
    unsigned field, so no decode stores the content length: after
    every successful decode the content is as long as the
    [Content-Length] header says, the field [ContentLength] is what it
    was before the decode, and the identifier, the kind and the date
    are what their headers carry. *)
Theorem decode_does_not_store_the_content_length :
  (Unmarshal scenario (Pointer zeroRecord) = Returns (Pointer scenario_record) None /\
   length (Content scenario_record) = 13%nat /\ ContentLength scenario_record = 0) /\
  (forall data r0 r',
     Unmarshal data (Pointer r0) = Returns (Pointer r') None ->
     exists headers,
       header_block data = Some headers /\
       Z.of_nat (length (Content r')) =
         fst (GoStrconv.ParseInt (index headers "Content-Length")) /\
       ContentLength r' = ContentLength r0 /\
       RecordID r' = index headers "WARC-Record-ID" /\
       Type_ r' = index headers "WARC-Type" /\
       Date r' = match GoTime.Parse GoTime.RFC3339 (index headers "WARC-Date") with
                 | Some t => t
                 | None => Date r0
                 end).
Proof.
  split; [vm_compute; auto|].
  intros data r0 r' H.
  apply Unmarshal_ok in H as (version & headers & content & _ & Hh & Hc & ->).
  exists headers. repeat split; assumption.
Qed.




(** C2: encoding the record with concurrent records of the tests and
    decoding the bytes loses the list, and no decode ever sets the
    list or the two unsigned lengths: the field loop has no case for
    their kinds. *)
Theorem roundtrip_loses_list_and_lengths :
  (exists data r',
     Marshal forwards (Pointer concurrent_record) = inl data /\
     Unmarshal data (Pointer zeroRecord) = Returns (Pointer r') None /\
     ConcurrentTo concurrent_record = ["<urn:uuid:concurrent1>"; "<urn:uuid:concurrent2>"] /\
     ConcurrentTo r' = []) /\
  (forall data r0 r',
     Unmarshal data (Pointer r0) = Returns (Pointer r') None ->
     ConcurrentTo r' = ConcurrentTo r0 /\ ContentLength r' = ContentLength r0 /\
     SegmentTotalLength r' = SegmentTotalLength r0).
Proof.
  split.
  - eexists _, _. split; [vm_compute; reflexivity|].
    split; [vm_compute; reflexivity|]. split; reflexivity.
  - intros data r0 r' H.
    apply Unmarshal_ok in H as (version & headers & content & _ & _ & _ & ->). auto.
Qed.

End DecodeClaims.

(** * The claims about [gwarc.Marshal] *)
Section EncodeClaims.
Import GoReflect gwarc warc Examples.

Lemma collect_headers_entries typ : forall vals headers,
  collect_headers typ vals headers = fold_left put (Encoded.entries typ vals) headers.
Proof.
  induction typ as [|f typ IH]; intros [|v vals] headers; try reflexivity.
  cbn [collect_headers Encoded.entries].
  destruct (String.eqb _ ""); [apply IH|].
  destruct (String.eqb _ ""); [apply IH|].
  destruct (_ && _); [apply IH|].
  cbn [fold_left]. apply IH.
Qed.

Lemma entries_names typ : forall vals,
  (Encoded.entries typ vals).*1 `sublist_of` Encoded.names typ.
Proof.
  induction typ as [|f typ IH]; intros [|v vals]; cbn [Encoded.entries Encoded.names fmap list_fmap].
  - constructor.
  - constructor.
  - apply sublist_nil_l.
  - destruct (String.eqb _ ""); [apply IH|].
    destruct (String.eqb _ ""); [apply IH|].
    destruct (_ && _).
    + apply sublist_cons, IH.
    + cbn [fmap list_fmap fst]. apply sublist_skip, IH.
Qed.

Lemma names_NoDup : NoDup (Encoded.names WARCRecord_type).
Proof. apply (bool_decide_unpack _). vm_compute. exact I. Qed.

Lemma entries_NoDup vals : NoDup (Encoded.entries WARCRecord_type vals).*1.
Proof. eapply sublist_NoDup; [apply names_NoDup | apply entries_names]. Qed.

(** A map filled from a list without a repeated key lists its
    entries, in some order. *)
Lemma map_to_list_put (l : list (string * string)) :
  NoDup l.*1 -> map_to_list (fold_left put l ∅) ≡ₚ l.
Proof.
  intros Hl.
  rewrite <- (fold_left_rev_right (fun kv m => put m kv) l ∅).
  change (foldr (fun kv m => put m kv) ∅ (rev l)) with
    (list_to_map (M := gmap string string) (rev l)).
  rewrite map_to_list_to_map.
  - symmetry. apply Permutation_rev.
  - assert (Hp : (rev l).*1 ≡ₚ l.*1)
      by (apply fmap_Permutation; symmetry; apply Permutation_rev).
    now rewrite Hp.
Qed.

(** The bytes [Marshal] returns once validation is passed or
    skipped. *)
Lemma Marshal_output range r v :
  v = Struct r \/ (v = Pointer r /\ Validate r = None) ->
  Marshal range v =
    inl (Encoded.output r
           (map header_line (range (collect_headers WARCRecord_type (fields_of r) ∅)))).
Proof.
  intros [->|[-> Hv]]; unfold Marshal, as_validator; [|rewrite Hv]; reflexivity.
Qed.

(** C4: for a record it accepts, [Marshal] writes the
    version line, then one header line for every tagged field that is
    not omitted, in the order in which its loop over the header map
    happens to run -- a permutation of the declaration order that
    Go does not fix --, then the [Content-Length] line of the content,
    a blank line and the content. *)
Theorem Marshal_lines_permutation range r :
  valid_order range ->
  Validate r = None ->
  exists lines,
    lines ≡ₚ map header_line (Encoded.emitted r) /\
    Marshal range (Pointer r) = inl (Encoded.output r lines).
Proof.
  intros Hrange Hv. eexists. split; [|apply Marshal_output; now right].
  apply Permutation_map. rewrite (Hrange _), collect_headers_entries.
  unfold Encoded.emitted.
  exact (map_to_list_put _ (entries_NoDup (fields_of r))).
Qed.

Lemma forwards_valid : valid_order forwards.
Proof. intros m. reflexivity. Qed.

Lemma backwards_valid : valid_order backwards.
Proof. intros m. unfold backwards. symmetry. apply Permutation_rev. Qed.

Lemma Marshal_lines_permutation_witness :
  exists lines,
    lines ≡ₚ map header_line (Encoded.emitted basic_record) /\
    Marshal backwards (Pointer basic_record) = inl (Encoded.output basic_record lines).
Proof.
  apply (Marshal_lines_permutation backwards basic_record backwards_valid).
  vm_compute. reflexivity.
Defined.

(** C4, against the claim as stated: under two orders a loop over the
    header map may take, [Marshal] returns different bytes for the
    basic record of the tests, neither with the lines in declaration
    order. *)
Lemma Marshal_order_varies :
  valid_order forwards /\ valid_order backwards /\
  Marshal forwards (Pointer basic_record) <> Marshal backwards (Pointer basic_record) /\
  Marshal forwards (Pointer basic_record) <> inl (Encoded.in_declaration_order basic_record) /\
  Marshal backwards (Pointer basic_record) <> inl (Encoded.in_declaration_order basic_record).
Proof.
  split; [apply forwards_valid|]. split; [apply backwards_valid|].
  repeat split; vm_compute; discriminate.
Qed.

Lemma Validate_missing r :
  Encoded.missing_required r -> exists e, Validate r = Some e /\ MissingRequiredField e.
Proof.
  unfold Encoded.missing_required, Validate, MissingRequiredField. intros H.
  destruct (String.eqb_spec (Version r) ""); [eauto|].
  destruct (String.eqb_spec (RecordID r) ""); [eauto 6|].
  destruct (GoTime.IsZero (Date r)); [eauto 7|].
  destruct (String.eqb_spec (Type_ r) ""); [eauto 8|].
  destruct H as [H|[H|[H|H]]]; congruence.
Qed.

(** C10: [Marshal] validates what it is handed through a pointer
    only.  For a record that misses a required field, [Marshal] of a
    pointer to it fails with the error of [Validate], and [Marshal]
    of the record itself returns its bytes. *)
Theorem Marshal_validates_through_pointer_only range r :
  Encoded.missing_required r ->
  (exists e, Marshal range (Pointer r) = inr e /\ Validate r = Some e) /\
  (exists lines, Marshal range (Struct r) = inl (Encoded.output r lines)).
Proof.
  intros H. split.
  - destruct (Validate_missing r H) as (e & He & _). exists e.
    unfold Marshal, as_validator. now rewrite He.
  - eexists. apply Marshal_output. now left.
Qed.

Lemma Marshal_validates_through_pointer_only_witness :
  (exists e, Marshal forwards (Pointer version_only) = inr e /\
             Validate version_only = Some e) /\
  (exists lines, Marshal forwards (Struct version_only) =
                 inl (Encoded.output version_only lines)).
Proof.
  apply (Marshal_validates_through_pointer_only forwards version_only).
  right. left. reflexivity.
Defined.

(** [Validate] reports the first field that is missing, in the order
    version, identifier, date, kind. *)
Lemma Validate_first_missing r :
  Encoded.missing_required r ->
  exists e,
    Validate r = Some e /\ MissingRequiredField e /\
    (Version r = "" -> e = ErrVersionRequired) /\
    (Version r <> "" -> RecordID r = "" -> e = ErrRecordIDRequired) /\
    (Version r <> "" -> RecordID r <> "" -> GoTime.IsZero (Date r) = true ->
     e = ErrDateRequired) /\
    (Version r <> "" -> RecordID r <> "" -> GoTime.IsZero (Date r) = false ->
     Type_ r = "" -> e = ErrTypeRequired).
Proof.
  unfold Encoded.missing_required, Validate, MissingRequiredField. intros H.
  destruct (String.eqb_spec (Version r) "");
    [eexists; repeat split; eauto; intros; congruence|].
  destruct (String.eqb_spec (RecordID r) "");
    [eexists; repeat split; eauto; intros; congruence|].
  destruct (GoTime.IsZero (Date r));
    [eexists; repeat split; eauto; intros; congruence|].
  destruct (String.eqb_spec (Type_ r) "");
    [eexists; repeat split; eauto 6; intros; congruence|].
  destruct H as [H|[H|[H|H]]]; congruence.
Qed.

(** C5: encoding, through a pointer, a record that misses its version,
    identifier, date or kind fails with the missing required field
    error of the first of them that is missing, in this order.
    Decoding has no such check: no decode, of whatever record type,
    fails with that error, and a successful decode into a [WARCRecord]
    of a block without the identifier or the kind header leaves that
    field empty, and of a block without the date header leaves the
    date as it was. *)
Theorem required_fields_checked_on_encode_only :
  (forall range r,
     Encoded.missing_required r ->
     exists e,
       Marshal range (Pointer r) = inr e /\ MissingRequiredField e /\
       (Version r = "" -> e = ErrVersionRequired) /\
       (Version r <> "" -> RecordID r = "" -> e = ErrRecordIDRequired) /\
       (Version r <> "" -> RecordID r <> "" -> GoTime.IsZero (Date r) = true ->
        e = ErrDateRequired) /\
       (Version r <> "" -> RecordID r <> "" -> GoTime.IsZero (Date r) = false ->
        Type_ r = "" -> e = ErrTypeRequired)) /\
  (forall data v final e,
     dispatch.Unmarshal data v = dispatch.Returned final (Some e) ->
     ~ MissingRequiredField e) /\
  (forall data r0 r' headers,
     Unmarshal data (Pointer r0) = Returns (Pointer r') None ->
     header_block data = Some headers ->
     (headers !! "WARC-Record-ID" = None -> RecordID r' = "") /\
     (headers !! "WARC-Type" = None -> Type_ r' = "") /\
     (headers !! "WARC-Date" = None -> Date r' = Date r0)).
Proof.
  split; [|split].
  - intros range r H. destruct (Validate_first_missing r H) as (e & He & Hm).
    exists e. split; [|exact Hm]. unfold Marshal, as_validator. now rewrite He.
  - intros data v final e H Hm. apply dispatch_errors in H as [H|H].
    + destruct Hm as [-> | [-> | [-> | ->]]];
        destruct H as [[? H]|[[? H]|[H|[[? H]|[[? H]|[? H]]]]]]; discriminate.
    + destruct H as (m & line & k & value & _ & _ & _ & Hp).
      apply ParseUint_errors in Hp.
      destruct Hm as [-> | [-> | [-> | ->]]]; destruct Hp; discriminate.
  - intros data r0 r' headers H Hh.
    apply Unmarshal_ok in H as (version & headers' & content & _ & Hh' & _ & ->).
    rewrite Hh in Hh'. injection Hh' as <-.
    split; [|split]; intros Hk.
    + cbn [RecordID Decoded.record]. unfold Decoded.str, index. cbn [andb].
      now rewrite Hk.
    + cbn [Type_ Decoded.record]. unfold Decoded.str, index. cbn [andb].
      now rewrite Hk.
    + cbn [Date Decoded.record]. unfold Decoded.time, index. cbn [andb].
      now rewrite Hk.
Qed.

Lemma required_fields_checked_on_encode_only_witness :
  exists e,
    Marshal forwards (Pointer version_only) = inr e /\ MissingRequiredField e /\
    e = ErrRecordIDRequired.
Proof.
  destruct (proj1 required_fields_checked_on_encode_only forwards version_only)
    as (e & He & Hm & _ & Hid & _).
  - right. left. reflexivity.
  - exists e. split; [exact He|]. split; [exact Hm|].
    apply Hid; [discriminate|reflexivity].
Defined.

(** C5, against the claim as stated: a block without the identifier,
    date and kind headers decodes without error, into a record whose
    identifier is empty; and the record of the tests that misses its
    required fields is encoded when it is handed over by value. *)
Lemma decode_accepts_missing_required_keys :
  (Unmarshal bare_block (Pointer zeroRecord) = Returns (Pointer bare_record) None /\
   RecordID bare_record = "") /\
  (exists headers, header_block bare_block = Some headers /\
                   headers !! "WARC-Record-ID" = None) /\
  (exists data, Marshal forwards (Struct version_only) = inl data).
Proof.
  split; [vm_compute; auto|]. split.
  - eexists. split; [vm_compute; reflexivity|]. vm_compute. reflexivity.
  - eexists. vm_compute. reflexivity.
Qed.

End EncodeClaims.

(** * [bufio.Scanner]: tokens are framed by the split function *)
Section Framing.
Local Open Scope nat_scope.
Import GoBufio Scanning.

Variable split : SplitFunc.

Lemma MaxScanTokenSize_pos : 0 < MaxScanTokenSize.
Proof. unfold MaxScanTokenSize. lia. Qed.

Lemma shift_spec s :
  start s + length (data s) <= buf_len s ->
  let s' := shift s in
  rd s' = rd s /\ buf_len s' = buf_len s /\ data s' = data s /\ err s' = err s /\
  start s' + length (data s') <= buf_len s' /\
  (start s' + length (data s') = buf_len s' -> start s' = 0).
Proof.
  intros H. unfold shift.
  destruct (_ && _) eqn:E; cbn [rd buf_len data err start].
  - repeat split; lia.
  - repeat split; try lia. intros Hfull.
    apply andb_false_iff in E as [E|E].
    + apply Nat.ltb_ge in E. lia.
    + apply orb_false_iff in E as [E _]. apply Nat.eqb_neq in E. lia.
Qed.

Lemma grow_spec s :
  start s + length (data s) <= buf_len s ->
  (start s + length (data s) = buf_len s -> start s = 0) ->
  length (data s) < MaxScanTokenSize ->
  buf_len s <= MaxScanTokenSize ->
  exists s',
    grow s = Some s' /\
    rd s' = rd s /\ data s' = data s /\ err s' = err s /\
    start s' + length (data s') < buf_len s' /\ buf_len s' <= MaxScanTokenSize.
Proof.
  intros Hfit Hfull Hlen Hmax. unfold grow.
  destruct (Nat.eqb_spec (start s + length (data s)) (buf_len s)) as [E|E].
  - specialize (Hfull E).
    destruct (Nat.leb_spec MaxScanTokenSize (buf_len s)) as [E'|E']; [lia|].
    eexists. split; [reflexivity|]. cbn [rd buf_len data err start].
    repeat split; [|apply Nat.le_min_r].
    destruct (Nat.eqb_spec (buf_len s) 0) as [E0|E0].
    + unfold startBufSize. pose proof MaxScanTokenSize_pos. lia.
    + lia.
  - exists s. repeat split; try lia.
Qed.

Lemma skipn_app_le {A} n (l1 l2 : list A) :
  n <= length l1 -> skipn n (l1 ++ l2) = skipn n l1 ++ l2.
Proof.
  intros H. rewrite skipn_app. replace (n - length l1) with 0 by lia. reflexivity.
Qed.

(** What [read_input] brings: the end of the input, or at least one
    more byte. *)
Lemma read_input_spec s stream :
  ready s stream ->
  start s + length (data s) < buf_len s ->
  let s' := read_input s in
  buf_len s' = buf_len s /\ start s' = start s /\
  ((rd s = [] /\ err s' = Some EOF /\ data s' = data s /\ rd s' = []) \/
   (ready s' stream /\
    length (concat (rd s')) + length (rd s') <
    length (concat (rd s)) + length (rd s))).
Proof.
  intros (He & Hd & Hfit & Hmax & Hne) Hfree. unfold read_input.
  set (free := buf_len s - (start s + length (data s))).
  assert (Hf : 0 < free) by (unfold free; lia).
  destruct (rd s) as [|c r'] eqn:Er; cbn [read_more].
  - cbn [rd buf_len data err start]. rewrite app_nil_r. split; [reflexivity|].
    split; [reflexivity|]. left. auto.
  - pose proof (Forall_inv Hne) as Hc. pose proof (Forall_inv_tail Hne) as Hr'.
    destruct c as [|x c]; [congruence|].
    destruct (Nat.leb_spec (length (x :: c)) free) as [E|E];
      cbn [rd buf_len data err start]; (split; [reflexivity|]); (split; [reflexivity|]);
      right; unfold ready; cbn [rd buf_len data err start].
    + repeat split; try assumption.
      * rewrite <- app_assoc. exact Hd.
      * rewrite length_app. unfold free in E. lia.
      * cbn [concat length]. rewrite !length_app. cbn [length]. lia.
    + repeat split; try assumption.
      * cbn [concat] in *. rewrite <- app_assoc, (app_assoc (firstn free _)), firstn_skipn.
        exact Hd.
      * rewrite length_app, length_firstn. unfold free. lia.
      * constructor; [|assumption]. intros H0.
        apply (f_equal (@length byte)) in H0. rewrite length_skipn in H0.
        cbn [length] in *. lia.
      * cbn [concat length]. rewrite !length_app, length_skipn. cbn [length] in *. lia.
Qed.

Lemma try_split_full s stream n tok need :
  frame split stream n tok need -> ready s stream -> need <= length (data s) ->
  exists s',
    try_split split s = Token s' /\ token s' = tok /\ ready s' (skipn n stream).
Proof.
  intros Hf (He & Hd & Hfit & Hmax & Hne) Hlen.
  unfold try_split, at_eof. rewrite He.
  rewrite (frame_full _ _ _ _ _ Hf (data s) (concat (rd s)) false (eq_sym Hd) Hlen).
  pose proof (frame_le _ _ _ _ _ Hf) as Hn. pose proof (frame_pos _ _ _ _ _ Hf) as Hp.
  destruct (data s) as [|x d] eqn:Ed; [cbn [length] in Hlen; lia|].
  cbn [length Nat.eqb negb orb].
  destruct (Nat.ltb_spec (S (length d)) n) as [E|E]; [cbn [length] in Hlen; lia|].
  eexists. split; [reflexivity|]. split; [reflexivity|].
  unfold ready. cbn [rd buf_len data err start].
  cbn [length] in *.
  repeat split; try assumption.
  - rewrite <- Hd. symmetry. apply skipn_app_le. cbn [length]. lia.
  - rewrite length_skipn. cbn [length]. lia.
Qed.

Lemma try_split_part s stream n tok need :
  frame split stream n tok need -> ready s stream -> length (data s) < need ->
  exists s1,
    try_split split s = NoToken s1 /\
    rd s1 = rd s /\ buf_len s1 = buf_len s /\ data s1 = data s /\
    err s1 = err s /\ start s1 = start s.
Proof.
  intros Hf (He & Hd & Hfit & Hmax & Hne) Hlen.
  unfold try_split, at_eof. rewrite He.
  destruct (negb _ || false).
  - rewrite (frame_part _ _ _ _ _ Hf (data s) (concat (rd s)) (eq_sym Hd) Hlen).
    cbn [Nat.ltb Nat.leb]. eexists. split; [reflexivity|].
    cbn [rd buf_len data err start skipn]. repeat split; auto; try lia.
  - exists s. repeat split; auto.
Qed.

(** The loop of [Scan] on a ready scanner returns the framed token
    and leaves the scanner ready for the rest, or finished. *)
Lemma scan_loop_token fuel : forall s stream n tok need,
  frame split stream n tok need ->
  ready s stream ->
  length (concat (rd s)) + length (rd s) + 2 <= fuel ->
  exists s',
    scan_loop fuel split s = (true, s') /\ token s' = tok /\
    (ready s' (skipn n stream) \/ (finished s' /\ skipn n stream = [])).
Proof.
  induction fuel as [|fuel IH]; intros s stream n tok need Hf Hr Hfuel; [lia|].
  pose proof Hr as (He & Hd & Hfit & Hmax & Hne).
  cbn [scan_loop].
  destruct (Nat.le_gt_cases need (length (data s))) as [Hlen|Hlen].
  - (* the buffer holds enough *)
    destruct (try_split_full s stream n tok need Hf Hr Hlen) as (s' & -> & Ht & Hr').
    exists s'. auto.
  - (* more data is needed *)
    destruct (try_split_part s stream n tok need Hf Hr Hlen)
      as (s1 & -> & Hrd1 & Hbl1 & Hd1 & He1 & Hst1).
    rewrite He1, He.
    destruct (shift_spec s1) as (Hrd2 & Hbl2 & Hd2 & He2 & Hfit2 & Hfull2);
      [rewrite Hst1, Hd1, Hbl1; exact Hfit|].
    pose proof (frame_need _ _ _ _ _ Hf) as Hneed.
    destruct (grow_spec (shift s1)) as (s3 & Hg & Hrd3 & Hd3 & He3 & Hfree3 & Hmax3);
      [assumption | assumption | rewrite Hd2, Hd1; lia | rewrite Hbl2, Hbl1; assumption |].
    rewrite Hg.
    assert (Hr3 : ready s3 stream).
    { unfold ready. rewrite He3, He2, He1, Hrd3, Hrd2, Hrd1, Hd3, Hd2, Hd1 in *.
      repeat split; try assumption; lia. }
    destruct (read_input_spec s3 stream Hr3 Hfree3) as (Hbl4 & Hst4 & Hcase).
    destruct Hcase as [(Hrd & He4 & Hd4 & Hrd4)|(Hr4 & Hmu)].
    + (* the input has ended: the stream is the last token *)
      rewrite Hrd3, Hrd2, Hrd1 in Hrd. rewrite Hrd in Hd, Hfuel. cbn [concat] in Hd.
      rewrite app_nil_r in Hd.
      destruct fuel as [|fuel]; [cbn [concat length] in Hfuel; lia|].
      cbn [scan_loop]. unfold try_split, at_eof. rewrite He4, Hd4, Hd3, Hd2, Hd1, Hd.
      rewrite orb_true_r.
      assert (Hl : length stream < need) by (rewrite <- Hd; exact Hlen).
      destruct (frame_last _ _ _ _ _ Hf Hl) as [-> ->].
      rewrite Nat.ltb_irrefl.
      eexists. split; [reflexivity|]. split; [reflexivity|]. right.
      unfold finished. cbn [rd buf_len data err start].
      rewrite skipn_all. auto.
    + (* more bytes came in *)
      rewrite Hrd3, Hrd2, Hrd1 in Hmu.
      apply (IH _ stream n tok need Hf Hr4). lia.
Qed.

(** On an exhausted stream [Scan] returns false. *)
Lemma scan_loop_end fuel s :
  split [] true = (0, None) ->
  ready s [] \/ finished s ->
  2 <= fuel ->
  exists s', scan_loop fuel split s = (false, s').
Proof.
  intros Hnil Hs Hfuel.
  destruct fuel as [|fuel]; [lia|].
  destruct Hs as [Hr|(He & Hd & Hrd)].
  - pose proof Hr as (He & Hd & Hfit & Hmax & Hne).
    apply app_eq_nil in Hd as [Hd Hc].
    assert (Hrd : rd s = []).
    { destruct (rd s) as [|c r]; [reflexivity|].
      pose proof (Forall_inv Hne) as Hc'. cbn [concat] in Hc.
      apply app_eq_nil in Hc as [Hc _]. congruence. }
    cbn [scan_loop]. unfold try_split, at_eof. rewrite He, Hd. cbn [length Nat.eqb negb orb].
    rewrite He.
    destruct (shift_spec s Hfit) as (Hrd2 & Hbl2 & Hd2 & He2 & Hfit2 & Hfull2).
    destruct (grow_spec (shift s)) as (s3 & Hg & Hrd3 & Hd3 & He3 & Hfree3 & Hmax3);
      [assumption | assumption | rewrite Hd2, Hd; apply MaxScanTokenSize_pos
       | rewrite Hbl2; assumption |].
    rewrite Hg.
    assert (Hr3 : ready s3 []).
    { unfold ready. rewrite He3, He2, Hrd3, Hrd2, Hd3, Hd2, Hrd, Hd in *.
      repeat split; try assumption; try lia; try constructor. }
    destruct (read_input_spec s3 [] Hr3 Hfree3) as (Hbl4 & Hst4 & Hcase).
    destruct Hcase as [(_ & He4 & Hd4 & Hrd4)|(_ & Hmu)].
    + destruct fuel as [|fuel]; [lia|].
      cbn [scan_loop]. unfold try_split, at_eof. rewrite He4, Hd4, Hd3, Hd2, Hd.
      cbn [length Nat.eqb negb orb].
      rewrite Hnil. cbn [Nat.ltb Nat.leb err]. eexists. reflexivity.
    + rewrite Hrd3, Hrd2, Hrd in Hmu. cbn [concat length] in Hmu. lia.
  - cbn [scan_loop]. unfold try_split, at_eof. rewrite He, Hd. cbn [length Nat.eqb negb orb].
    rewrite Hnil. cbn [Nat.ltb Nat.leb err]. eexists. reflexivity.
Qed.

Lemma ready_NewScanner r :
  Forall (fun c => c <> []) r -> ready (NewScanner r) (concat r).
Proof.
  intros H. unfold ready, NewScanner. cbn [rd buf_len data err start length].
  repeat split; try assumption; lia.
Qed.

(** [Scan] returns the framed token. *)
Lemma Scan_token s stream n tok need :
  frame split stream n tok need ->
  ready s stream ->
  exists s',
    Scan split s = (true, s') /\ token s' = tok /\
    (ready s' (skipn n stream) \/ (finished s' /\ skipn n stream = [])).
Proof.
  intros Hf Hr. unfold Scan, scan_fuel. eapply scan_loop_token; eauto.
Qed.

Lemma Scan_end s :
  split [] true = (0, None) ->
  ready s [] \/ finished s ->
  exists s', Scan split s = (false, s').
Proof.
  intros Hnil Hs. unfold Scan, scan_fuel. apply scan_loop_end; [assumption..|lia].
Qed.

End Framing.

(** ** [bytes.HasPrefix] and [bytes.Index] *)
Section Index.
Local Open Scope nat_scope.
Import GoBytes.

Lemma HasPrefix_length s p : HasPrefix s p = true -> length p <= length s.
Proof.
  revert s. induction p as [|a p IH]; intros [|b s] H; cbn [HasPrefix length] in *;
    try lia; try discriminate.
  apply andb_true_iff in H as [_ H]. specialize (IH _ H). lia.
Qed.

Lemma HasPrefix_app_long s q p :
  length p <= length s -> HasPrefix (s ++ q) p = HasPrefix s p.
Proof.
  revert s. induction p as [|a p IH]; intros [|b s] H; cbn [HasPrefix length app] in *;
    try reflexivity; try lia.
  - destruct (q ++ []); destruct q; reflexivity.
  - rewrite IH by lia. reflexivity.
Qed.

Lemma HasPrefix_app s q p : HasPrefix s p = true -> HasPrefix (s ++ q) p = true.
Proof.
  intros H. rewrite HasPrefix_app_long; [assumption|]. now apply HasPrefix_length.
Qed.

Lemma HasPrefix_nil_l p : HasPrefix [] p = true -> p = [].
Proof. destruct p; [reflexivity|discriminate]. Qed.

Lemma Index_Some s sep : forall i,
  Index s sep = Some i ->
  HasPrefix (skipn i s) sep = true /\
  (forall k, k < i -> HasPrefix (skipn k s) sep = false) /\ i <= length s.
Proof.
  induction s as [|b s IH]; intros i; cbn [Index].
  - destruct (HasPrefix [] sep) eqn:E; [|discriminate].
    intros [= <-]. repeat split; [assumption | lia | lia].
  - destruct (HasPrefix (b :: s) sep) eqn:E.
    + intros [= <-]. repeat split; [assumption | lia | lia].
    + destruct (Index s sep) as [j|]; [|discriminate].
      intros [= <-]. destruct (IH j eq_refl) as (H1 & H2 & H3).
      repeat split; [exact H1 | | cbn [length]; lia].
      intros [|k] Hk; [exact E|]. apply H2. lia.
Qed.

Lemma Index_None s sep :
  Index s sep = None -> forall k, HasPrefix (skipn k s) sep = false.
Proof.
  induction s as [|b s IH]; cbn [Index].
  - destruct (HasPrefix [] sep) eqn:E; [discriminate|].
    intros _ k. now rewrite skipn_nil.
  - destruct (HasPrefix (b :: s) sep) eqn:E; [discriminate|].
    destruct (Index s sep); [discriminate|].
    intros _ [|k]; [exact E|]. now apply IH.
Qed.

Lemma Index_first s sep i :
  HasPrefix (skipn i s) sep = true ->
  (forall k, k < i -> HasPrefix (skipn k s) sep = false) ->
  i <= length s ->
  Index s sep = Some i.
Proof.
  intros H1 H2 H3.
  destruct (Index s sep) as [j|] eqn:E.
  - apply Index_Some in E as (E1 & E2 & E3).
    destruct (Nat.lt_trichotomy i j) as [L|[->|L]]; [|reflexivity|].
    + rewrite (E2 i L) in H1. discriminate.
    + rewrite (H2 j L) in E1. discriminate.
  - rewrite (Index_None _ _ E i) in H1. discriminate.
Qed.

End Index.

(** ** The split function of [NewWARC] *)
Section Split.
Local Open Scope nat_scope.
Import GoBytes GoBufio warc Segments Scanning.

Lemma length_marker : length marker = 5.
Proof. reflexivity. Qed.

(** A marker seen in a prefix of a stream stands in the stream. *)
Lemma occurs_prefix p q i : occurs p i = true -> occurs (p ++ q) i = true.
Proof.
  unfold occurs. intros H.
  pose proof (HasPrefix_length _ _ H) as Hl. rewrite length_marker, length_skipn in Hl.
  rewrite skipn_app_le by lia. now apply HasPrefix_app.
Qed.

(** A marker of the stream that a prefix holds whole is seen in the
    prefix. *)
Lemma occurs_inside p q i :
  i + 5 <= length p -> occurs (p ++ q) i = occurs p i.
Proof.
  unfold occurs. intros H. rewrite skipn_app_le by lia.
  apply HasPrefix_app_long. rewrite length_marker, length_skipn. lia.
Qed.

Lemma occurs_bound s i : occurs s i = true -> i + 5 <= length s.
Proof.
  unfold occurs. intros H. apply HasPrefix_length in H.
  rewrite length_marker, length_skipn in H. lia.
Qed.

Lemma occurs_skipn s k i : occurs (skipn k s) i = occurs s (k + i).
Proof. unfold occurs. rewrite skipn_skipn. now rewrite (Nat.add_comm i k). Qed.

(** The split function frames a record that opens with the marker
    and holds no other, in front of the end of the stream or of the
    next marker. *)
Lemma split_frame rec rest :
  fits rec ->
  (forall i, 0 < i < length rec -> occurs (rec ++ rest) i = false) ->
  rest = [] \/ HasPrefix rest marker = true ->
  frame split (rec ++ rest) (length rec) rec (length rec + 5).
Proof.
  intros [Hm Hfit] Hno Hrest.
  pose proof (HasPrefix_length _ _ Hm) as Hlen. rewrite length_marker in Hlen.
  assert (H0 : forall p q, rec ++ rest = p ++ q -> 5 <= length p ->
                           Index p marker = Some 0).
  { intros p q Hpq Hp. apply Index_first; [|lia|lia].
    change (occurs p 0 = true). rewrite <- (occurs_inside p q) by lia.
    rewrite <- Hpq. apply (occurs_prefix rec rest 0). exact Hm. }
  assert (Hin : forall p q k, rec ++ rest = p ++ q -> 0 < k < length rec ->
                              occurs p k = false).
  { intros p q k Hpq Hk. destruct (occurs p k) eqn:E; [|reflexivity].
    apply (occurs_prefix p q) in E. rewrite <- Hpq, Hno in E; [discriminate|lia]. }
  split.
  - exact Hfit.
  - lia.
  - lia.
  - (* enough of the stream is seen *)
    intros p q atEOF Hpq Hp. unfold split.
    replace (length p =? 0) with false by (symmetry; apply Nat.eqb_neq; lia).
    rewrite andb_false_r, (H0 p q Hpq) by lia. cbn [Nat.ltb Nat.leb Nat.add].
    assert (Hnext : rest <> [] /\ HasPrefix rest marker = true).
    { destruct Hrest as [->|Hr].
      - rewrite app_nil_r in Hpq. apply (f_equal (@length byte)) in Hpq.
        rewrite length_app in Hpq. lia.
      - split; [|exact Hr]. intros ->. discriminate. }
    destruct Hnext as [_ Hr].
    assert (Hj : Index (skipn 5 p) marker = Some (length rec - 5)).
    { apply Index_first.
      - change (occurs (skipn 5 p) (length rec - 5) = true).
        rewrite occurs_skipn. replace (5 + (length rec - 5)) with (length rec) by lia.
        rewrite <- (occurs_inside p q) by lia. rewrite <- Hpq.
        unfold occurs. rewrite skipn_app, skipn_all, Nat.sub_diag. exact Hr.
      - intros k Hk. change (occurs (skipn 5 p) k = false).
        rewrite occurs_skipn. apply (Hin p q); [exact Hpq|lia].
      - rewrite length_skipn. lia. }
    rewrite Hj. replace (length rec - 5 + 5) with (length rec) by lia.
    f_equal. f_equal. unfold slice. rewrite Nat.sub_0_r. change (skipn 0 p) with p.
    assert (Hp' : firstn (length rec) (p ++ q) = firstn (length rec) p).
    { rewrite firstn_app. replace (length rec - length p) with 0 by lia.
      now rewrite firstn_O, app_nil_r. }
    rewrite <- Hp', <- Hpq, firstn_app, Nat.sub_diag, firstn_all, firstn_O.
    apply app_nil_r.
  - (* too little of the stream is seen *)
    intros p q Hpq Hp. unfold split. cbn [andb].
    destruct (Index p marker) as [i|] eqn:Ei; [|reflexivity].
    apply Index_Some in Ei as (E1 & _ & _).
    change (occurs p i = true) in E1. pose proof (occurs_bound _ _ E1) as Hb.
    destruct i as [|i].
    + cbn [Nat.ltb Nat.leb Nat.add].
      destruct (Index (skipn 5 p) marker) as [j|] eqn:Ej; [|reflexivity].
      apply Index_Some in Ej as (E2 & _ & _).
      change (occurs (skipn 5 p) j = true) in E2. rewrite occurs_skipn in E2.
      pose proof (occurs_bound _ _ E2) as Hb2.
      rewrite (Hin p q (5 + j) Hpq) in E2; [discriminate|lia].
    + rewrite (Hin p q (S i) Hpq) in E1; [discriminate|lia].
  - (* the stream ends with the record *)
    intros Hl. rewrite length_app in Hl.
    assert (rest = []) as ->.
    { destruct Hrest as [->|Hr]; [reflexivity|].
      apply HasPrefix_length in Hr. rewrite length_marker in Hr. lia. }
    rewrite app_nil_r in *. split; [|reflexivity].
    unfold split.
    replace (length rec =? 0) with false by (symmetry; apply Nat.eqb_neq; lia).
    rewrite andb_false_r, (H0 rec [] (eq_sym (app_nil_r _))) by lia.
    cbn [Nat.ltb Nat.leb Nat.add].
    destruct (Index (skipn 5 rec) marker) as [j|] eqn:Ej; [|reflexivity].
    apply Index_Some in Ej as (E2 & _ & _).
    change (occurs (skipn 5 rec) j = true) in E2. rewrite occurs_skipn in E2.
    pose proof (occurs_bound _ _ E2) as Hb2.
    rewrite Hno in E2; [discriminate|lia].
Qed.

End Split.

(** * The claim about the stream segmenter *)
Section Segmenter.
Local Open Scope nat_scope.
Import GoBytes GoBufio warc Segments Scanning.

Lemma offsets_from_ge records : forall k i, In i (offsets_from k records) -> k <= i.
Proof.
  induction records as [|r rest IH]; intros k i; cbn [offsets_from In]; [tauto|].
  intros [<-|H]; [lia|]. apply IH in H. lia.
Qed.

Lemma offsets_from_shift records : forall a k i,
  In (a + i) (offsets_from (a + k) records) <-> In i (offsets_from k records).
Proof.
  induction records as [|r rest IH]; intros a k i; cbn [offsets_from In]; [tauto|].
  rewrite <- Nat.add_assoc, IH. split; (intros [H|H]; [left; lia | now right]).
Qed.


Lemma marks_of_occurrences records :
  occurrences (concat records) = offsets records -> marks records.
Proof.
  intros H i. rewrite <- H. unfold occurrences. rewrite filter_In, in_seq.
  split; [|tauto]. intros Ho. pose proof (occurs_bound _ _ Ho). split; [lia|assumption].
Qed.

Lemma fits_length r : fits r -> 5 <= length r.
Proof. intros [H _]. apply HasPrefix_length in H. now rewrite length_marker in H. Qed.

Lemma marks_cons r rest :
  fits r -> marks (r :: rest) ->
  (forall i, 0 < i < length r -> occurs (r ++ concat rest) i = false) /\ marks rest.
Proof.
  intros Hr Hm. pose proof (fits_length r Hr) as Hl. split.
  - intros i Hi. destruct (occurs (r ++ concat rest) i) eqn:E; [|reflexivity].
    apply (Hm i) in E. unfold offsets in E. cbn [offsets_from In] in E.
    destruct E as [E|E]; [lia|]. apply offsets_from_ge in E. lia.
  - intros i. unfold offsets.
    rewrite <- (offsets_from_shift rest (length r) 0 i), Nat.add_0_r.
    specialize (Hm (length r + i)). unfold offsets in Hm. cbn [offsets_from In concat] in Hm.
    cbn [Nat.add] in Hm. rewrite <- occurs_skipn in Hm.
    rewrite skipn_app, skipn_all, Nat.sub_diag in Hm. cbn [app skipn] in Hm.
    rewrite Hm. split; [|tauto]. intros [H|H]; [lia|assumption].
Qed.

Lemma next_marker rest :
  Forall fits rest -> concat rest = [] \/ HasPrefix (concat rest) marker = true.
Proof.
  intros [|r rest' [Hr _] _]; [now left|]. right. cbn [concat]. now apply HasPrefix_app.
Qed.

Lemma split_nil : split [] true = (0, None).
Proof. reflexivity. Qed.

(** From a scanner that is ready to scan the records, the segmenter
    yields them one by one, and then the end of the input. *)
Lemma chunks_records records : forall w n,
  Forall fits records ->
  marks records ->
  ready w (concat records) \/ (finished w /\ concat records = []) ->
  length records < n ->
  chunks n w = records.
Proof.
  induction records as [|r rest IH]; intros w n Hfits Hm Hw Hn.
  - destruct n as [|n]; [cbn [length] in Hn; lia|].
    cbn [chunks]. unfold NextChunk.
    destruct (Scan_end split w split_nil) as (w' & ->); [tauto|reflexivity].
  - pose proof (Forall_inv Hfits) as Hr. pose proof (Forall_inv_tail Hfits) as Hrest.
    pose proof (fits_length r Hr) as Hl.
    destruct (marks_cons r rest Hr Hm) as [Hno Hm'].
    destruct Hw as [Hw|[_ Hnil]].
    2:{ cbn [concat] in Hnil. apply (f_equal (@length byte)) in Hnil.
        rewrite length_app in Hnil. cbn [length] in Hnil. lia. }
    destruct n as [|n]; [lia|]. cbn [length] in Hn.
    pose proof (split_frame r (concat rest) Hr Hno (next_marker rest Hrest)) as Hf.
    destruct (Scan_token split w _ _ _ _ Hf Hw) as (w' & Hs & Ht & Hw').
    rewrite skipn_app, skipn_all, Nat.sub_diag in Hw'. cbn [app skipn] in Hw'.
    cbn [chunks]. unfold NextChunk. rewrite Hs, Ht. f_equal.
    apply IH; [assumption | assumption | assumption | lia].
Qed.

(** C1: the segmenter cuts the stream at every
    occurrence of the marker [WARC/], whether it opens a record or
    lies in a content.  For a stream of records in which the marker
    stands at the starts of the records and nowhere else, each record
    with the marker that follows it within the largest buffer of the
    scanner, the segmenter yields exactly these records, however the
    reader hands out the stream, and then the end of the input. *)
Theorem segmenter_exact_without_marker_in_content records blocks n :
  Forall fits records ->
  occurrences (concat records) = offsets records ->
  Forall (fun c => c <> []) blocks ->
  concat blocks = concat records ->
  length records < n ->
  chunks n (NewWARC blocks) = records.
Proof.
  intros Hfits Hocc Hblocks Hcat Hn.
  apply chunks_records; [assumption | now apply marks_of_occurrences | | assumption].
  left. rewrite <- Hcat. now apply ready_NewScanner.
Qed.

Lemma scenario_fits : fits Examples.scenario.
Proof. split; [reflexivity|]. apply Nat.leb_le. vm_compute. reflexivity. Qed.

(** The scenario of the specification twice, handed out in three
    blocks. *)
Lemma segmenter_exact_without_marker_in_content_witness :
  chunks 3 (NewWARC two_records_blocks) = two_records.
Proof.
  apply (segmenter_exact_without_marker_in_content two_records two_records_blocks 3).
  - constructor; [apply scenario_fits|].
    constructor; [apply scenario_fits|constructor].
  - vm_compute. reflexivity.
  - repeat (constructor; [vm_compute; discriminate|]). constructor.
  - vm_compute. reflexivity.
  - vm_compute. lia.
Defined.

(** C1, against the claim as stated: a stream of one well-formed
    record whose content holds the marker comes out as two chunks;
    the second is no record. *)
Lemma marker_in_content_splits_record :
  (exists r, Unmarshal marker_in_content (gwarc.Pointer gwarc.zeroRecord) =
               Returns (gwarc.Pointer r) None /\
             gwarc.Content r = bytes_of "see WARC/1.0 spec") /\
  chunks 5 (NewWARCFromBytes marker_in_content) = [marker_chunk_1; marker_chunk_2] /\
  Unmarshal marker_chunk_2 (gwarc.Pointer gwarc.zeroRecord) =
    Returns (gwarc.Pointer gwarc.zeroRecord) (Some (ErrReadVersion EOF)).
Proof.
  split; [eexists; split; vm_compute; reflexivity|].
  split; vm_compute; reflexivity.
Qed.

End Segmenter.

(** * [bufio.ScanLines] frames lines *)
Section Lines.
Local Open Scope nat_scope.
Import GoBytes GoBufio Rows Scanning.

Lemma IndexByte_first line c rest :
  ~ In c line -> IndexByte (line ++ c :: rest) c = Some (length line).
Proof.
  intros H. induction line as [|b line IH]; cbn [app IndexByte length].
  - now rewrite byte_eqb_refl.
  - replace (byte_eqb b c) with false
      by (symmetry; apply byte_eqb_neq; intros ->; apply H; now left).
    rewrite IH; [reflexivity|]. intros Hin. apply H. now right.
Qed.

Lemma firstn_app_exact {A} (l r : list A) : firstn (length l) (l ++ r) = l.
Proof. rewrite firstn_app, Nat.sub_diag, firstn_all, firstn_O. apply app_nil_r. Qed.

(** A prefix of [l ++ r] no longer than [l] is a prefix of [l]. *)
Lemma prefix_short {A} (p q l r : list A) :
  l ++ r = p ++ q -> length p <= length l -> p = firstn (length p) l.
Proof.
  intros H Hl.
  assert (E : firstn (length p) (l ++ r) = p) by (rewrite H; apply firstn_app_exact).
  rewrite firstn_app in E.
  replace (length p - length l) with 0 in E by lia.
  rewrite firstn_O, app_nil_r in E. now symmetry.
Qed.

(** A prefix of [l ++ r] longer than [l] starts with [l]. *)
Lemma prefix_long {A} (p q l r : list A) :
  l ++ r = p ++ q -> length l <= length p -> p = l ++ skipn (length l) p.
Proof.
  intros H Hl.
  assert (E : firstn (length l) (p ++ q) = l) by (rewrite <- H; apply firstn_app_exact).
  rewrite firstn_app in E.
  replace (length l - length p) with 0 in E by lia.
  rewrite firstn_O, app_nil_r in E.
  symmetry. rewrite <- E at 1. apply firstn_skipn.
Qed.

Lemma not_In_firstn (c : byte) n l : ~ In c l -> ~ In c (firstn n l).
Proof. intros H Hin. apply H. rewrite <- (firstn_skipn n l). apply in_or_app. now left. Qed.

Lemma ScanLines_frame line rest :
  ~ In newline line -> length line < MaxScanTokenSize ->
  frame ScanLines (line ++ newline :: rest) (S (length line)) (dropCR line)
    (S (length line)).
Proof.
  intros Hno Hlen. split.
  - lia.
  - lia.
  - lia.
  - intros p q atEOF Hpq Hp. unfold ScanLines.
    replace (line ++ newline :: rest) with ((line ++ [newline]) ++ rest) in Hpq
      by (now rewrite <- app_assoc).
    rewrite (prefix_long p q _ _ Hpq) by (rewrite length_app; cbn [length]; lia).
    rewrite <- app_assoc. cbn [app].
    replace (length (line ++ newline :: _) =? 0) with false
      by (symmetry; apply Nat.eqb_neq; rewrite length_app; cbn [length]; lia).
    rewrite andb_false_r, IndexByte_first by assumption.
    now rewrite firstn_app_exact.
  - intros p q Hpq Hp. unfold ScanLines. cbn [andb].
    rewrite (prefix_short p q _ _ Hpq) by lia.
    replace (IndexByte (firstn (length p) line) newline) with (@None nat);
      [reflexivity|].
    symmetry. apply IndexByte_None. now apply not_In_firstn.
  - rewrite length_app. cbn [length]. lia.
Qed.

Lemma ScanLines_frame_last line :
  line <> [] -> ~ In newline line -> length line < MaxScanTokenSize ->
  frame ScanLines line (length line) (dropCR line) (S (length line)).
Proof.
  intros Hne Hno Hlen.
  assert (Hpos : 0 < length line) by (destruct line; [congruence|cbn [length]; lia]).
  split.
  - lia.
  - lia.
  - lia.
  - intros p q atEOF Hpq Hp. apply (f_equal (@length byte)) in Hpq.
    rewrite length_app in Hpq. lia.
  - intros p q Hpq Hp. unfold ScanLines. cbn [andb].
    rewrite <- (app_nil_r line) in Hpq.
    rewrite (prefix_short p q _ _ Hpq) by lia.
    replace (IndexByte (firstn (length p) line) newline) with (@None nat);
      [reflexivity|].
    symmetry. apply IndexByte_None. now apply not_In_firstn.
  - intros _. split; [|reflexivity]. unfold ScanLines.
    replace (length line =? 0) with false by (symmetry; apply Nat.eqb_neq; lia).
    cbn [andb].
    replace (IndexByte line newline) with (@None nat); [reflexivity|].
    symmetry. now apply IndexByte_None.
Qed.

Lemma line_fits_bytes line :
  line_fits line -> ~ In newline (bytes_of line) /\ length (bytes_of line) < MaxScanTokenSize.
Proof.
  intros [Hn Hl]. split; [now apply no_newline_In|]. now rewrite length_bytes_of.
Qed.

(** Scanning a line that a line feed ends. *)
Lemma Scan_line s line tail :
  ready s (bytes_of (line +:+ LF +:+ tail)) ->
  line_fits line ->
  exists s',
    Scan ScanLines s = (true, s') /\ string_of (token s') = text_of line /\
    (ready s' (bytes_of tail) \/ (finished s' /\ bytes_of tail = [])).
Proof.
  intros Hr Hfit. apply line_fits_bytes in Hfit as [Hno Hlen].
  rewrite bytes_of_line in Hr.
  destruct (Scan_token ScanLines s _ _ _ _ (ScanLines_frame _ (bytes_of tail) Hno Hlen) Hr)
    as (s' & Hs & Ht & Hs').
  exists s'. split; [exact Hs|]. split; [now rewrite Ht|].
  replace (skipn (S (length (bytes_of line))) (bytes_of line ++ newline :: bytes_of tail))
    with (bytes_of tail) in Hs'; [exact Hs'|].
  replace (bytes_of line ++ newline :: bytes_of tail)
    with ((bytes_of line ++ [newline]) ++ bytes_of tail) by (now rewrite <- app_assoc).
  rewrite skipn_app, skipn_all2 by (rewrite length_app; cbn [length]; lia).
  rewrite length_app. cbn [length].
  replace (S (length (bytes_of line)) - (length (bytes_of line) + 1)) with 0 by lia.
  reflexivity.
Qed.

(** Scanning the last line of an input that no line feed ends. *)
Lemma Scan_last_line s line :
  ready s (bytes_of line) ->
  line <> EmptyString ->
  line_fits line ->
  exists s', Scan ScanLines s = (true, s') /\ string_of (token s') = text_of line.
Proof.
  intros Hr Hne Hfit. apply line_fits_bytes in Hfit as [Hno Hlen].
  assert (Hb : bytes_of line <> []).
  { intros H. apply Hne. rewrite <- (string_of_bytes_of line), H. reflexivity. }
  destruct (Scan_token ScanLines s _ _ _ _ (ScanLines_frame_last _ Hb Hno Hlen) Hr)
    as (s' & Hs & Ht & _).
  exists s'. split; [exact Hs|]. now rewrite Ht.
Qed.

End Lines.

(** * The row loop of [cdx.Unmarshal] *)
Section RowLoop.
Local Open Scope nat_scope.
Import GoBytes GoBufio GoReflect cdx Rows Scanning.

Lemma parse_line_app format line records rows :
  parse_line format line [] = inl rows ->
  parse_line format line records = inl (records ++ rows).
Proof.
  unfold parse_line.
  destruct (String.eqb line "").
  - intros [= <-]. now rewrite app_nil_r.
  - destruct (negb _); [discriminate|].
    destruct (parse_row format (GoStrings.Fields line) zeroRecord); [|discriminate].
    now intros [= <-].
Qed.

Lemma parse_line_mismatch format line records :
  line <> EmptyString ->
  length (GoStrings.Fields line) <> length format ->
  parse_line format line records =
  inr (ErrInvalidRecordLength (length (GoStrings.Fields line)) (length format)).
Proof.
  intros Hne Hlen. unfold parse_line.
  destruct (String.eqb_spec line ""); [contradiction|].
  destruct (Nat.eqb_spec (length (GoStrings.Fields line)) (length format));
    [contradiction|reflexivity].
Qed.

Lemma append_nil_r s : s +:+ EmptyString = s.
Proof. induction s as [|c s IH]; [reflexivity|]. now rewrite append_cons, IH. Qed.

Lemma bytes_of_nil s : bytes_of s = [] -> s = EmptyString.
Proof. intros H. now rewrite <- (string_of_bytes_of s), H. Qed.


Lemma goes_on_nonempty row tail : goes_on row tail -> bytes_of (row +:+ tail) <> [].
Proof.
  intros [Hne _] H. apply bytes_of_nil in H.
  destruct row; [|discriminate]. now apply Hne.
Qed.

(** The scanner hands the row over, whether a line feed ends it or
    the input does. *)
Lemma Scan_row s row tail :
  goes_on row tail ->
  ready s (bytes_of (row +:+ tail)) ->
  exists s', Scan ScanLines s = (true, s') /\ string_of (token s') = text_of row.
Proof.
  intros (Hne & Hfit & [-> | [rest ->]]) Hr.
  - rewrite append_nil_r in Hr.
    apply Scan_last_line; [assumption| |assumption].
    intros ->. now apply Hne.
  - destruct (Scan_line s row rest Hr Hfit) as (s' & Hs & Ht & _). eauto.
Qed.

(** The row loop takes the accepted rows one by one and fails at the
    first row of the wrong length. *)
Lemma parse_rows_mismatch format row tail : forall pre fuel s records,
  Forall (row_ok format) pre ->
  goes_on row tail ->
  length (GoStrings.Fields (text_of row)) <> length format ->
  length pre < fuel ->
  ready s (bytes_of (unlines pre +:+ row +:+ tail)) ->
  parse_rows fuel s format records =
  inr (ErrInvalidRecordLength (length (GoStrings.Fields (text_of row))) (length format)).
Proof.
  induction pre as [|line pre IH]; intros fuel s records Hpre Hrow Hlen Hfuel Hr.
  - destruct fuel as [|fuel]; [cbn [length] in Hfuel; lia|].
    change (unlines [] +:+ row +:+ tail) with (row +:+ tail) in Hr.
    destruct (Scan_row s row tail Hrow Hr) as (s' & Hs & Ht).
    cbn [parse_rows]. rewrite Hs. cbn [negb]. rewrite Ht.
    now rewrite parse_line_mismatch by (assumption || apply Hrow).
  - destruct fuel as [|fuel]; [cbn [length] in Hfuel; lia|].
    apply Forall_cons_1 in Hpre as [[Hfit [rows Hrows]] Hpre].
    rewrite unlines_cons in Hr.
    destruct (Scan_line s line _ Hr Hfit) as (s' & Hs & Ht & Hs').
    cbn [parse_rows]. rewrite Hs. cbn [negb]. rewrite Ht.
    rewrite (parse_line_app _ _ _ _ Hrows).
    destruct Hs' as [Hs' | [_ Hnil]].
    + apply IH; try assumption. cbn [length] in Hfuel. lia.
    + exfalso. revert Hnil. rewrite bytes_of_app.
      intros Hnil. apply app_eq_nil in Hnil as [_ Hnil].
      now apply (goes_on_nonempty row tail).
Qed.

End RowLoop.

Section FieldCount.
Local Open Scope nat_scope.
Import GoBytes GoBufio GoReflect cdx Rows Scanning.

Lemma bytesReader_ready data :
  data <> [] -> ready (NewScanner (bytesReader data)) data.
Proof.
  intros Hne. destruct data as [|b data]; [contradiction|].
  rewrite <- (app_nil_r (b :: data)) at 2.
  apply (ready_NewScanner [b :: data]). constructor; [discriminate|constructor].
Qed.

(** C9.  A file whose header line declares a format, followed by rows
    the row loop takes, followed by a row that the scanner can hold
    (it is shorter than 64 KiB), whose text is not empty and whose
    number of white space separated fields differs from the number of
    columns of the format: [cdx.Unmarshal] fails with the field-count
    error that names both numbers, and leaves the value behind its
    argument as it was. *)
Theorem row_of_wrong_length_is_rejected header pre row tail v :
  line_fits header ->
  GoStrings.HasPrefix (text_of header) "CDX" = true ->
  Forall (row_ok (format_of header)) pre ->
  goes_on row tail ->
  length (GoStrings.Fields (text_of row)) <> length (format_of header) ->
  cdx.Unmarshal (bytes_of (header +:+ LF +:+ unlines pre +:+ row +:+ tail)) v =
    Returns v (Some (ErrInvalidRecordLength
                       (length (GoStrings.Fields (text_of row)))
                       (length (format_of header)))) /\
  FieldCountMismatch (ErrInvalidRecordLength
                        (length (GoStrings.Fields (text_of row)))
                        (length (format_of header))).
Proof.
  intros Hhead Hcdx Hpre Hrow Hlen. split; [|now eexists _, _].
  set (data := bytes_of _).
  assert (Hdata : data = bytes_of header ++ newline :: bytes_of (unlines pre +:+ row +:+ tail))
    by apply bytes_of_line.
  assert (Hne : data <> []) by (rewrite Hdata; now destruct (bytes_of header)).
  pose proof (bytesReader_ready data Hne) as Hr.
  unfold data in Hr at 2.
  destruct (Scan_line _ header _ Hr Hhead) as (s' & Hs & Ht & Hs').
  unfold cdx.Unmarshal. rewrite Hs. cbn [negb]. rewrite Ht, Hcdx. cbn [negb].
  rewrite (parse_rows_mismatch (format_of header) row tail pre); try assumption.
  - reflexivity.
  - apply Nat.lt_succ_r. rewrite Hdata, length_app. cbn [length].
    rewrite bytes_of_app, length_app, !length_bytes_of.
    pose proof (length_unlines pre). lia.
  - destruct Hs' as [Hs' | [_ Hnil]]; [assumption|].
    exfalso. rewrite bytes_of_app in Hnil.
    apply app_eq_nil in Hnil as [_ Hnil].
    now apply (goes_on_nonempty row tail).
Qed.

Lemma row_of_wrong_length_is_rejected_witness :
  cdx.Unmarshal
    (bytes_of (scenario_header +:+ LF +:+ unlines [scenario_row] +:+ short_row +:+ ""))
    Nil =
  Returns Nil (Some (ErrInvalidRecordLength 3 9)).
Proof.
  refine (proj1 (row_of_wrong_length_is_rejected scenario_header [scenario_row]
                   short_row "" Nil _ _ _ _ _)).
  - split; [reflexivity|]. apply Nat.ltb_lt. vm_compute. reflexivity.
  - reflexivity.
  - constructor; [|constructor]. split.
    + split; [reflexivity|]. apply Nat.ltb_lt. vm_compute. reflexivity.
    + eexists. vm_compute. reflexivity.
  - split; [vm_compute; discriminate|]. split; [|now left].
    split; [reflexivity|]. apply Nat.ltb_lt. vm_compute. reflexivity.
  - vm_compute. discriminate.
Defined.

(** C9, against the claim as stated.  A row that holds a carriage
    return alone and an empty row have no field, where the format has
    nine columns: the row loop passes them over before it counts, and
    the file decodes without error into the record of its one other
    row.  A row that is one word as long as the largest buffer of the
    scanner ends the row loop with the error of the scanner, not
    with the field-count error, and the file with the rows decoded
    before it is stored behind the pointer. *)
Lemma blank_and_long_rows_are_not_counted :
  (length (GoStrings.Fields (text_of CR)) = 0 /\
   length (GoStrings.Fields (text_of "")) = 0 /\
   length (format_of scenario_header) = 9 /\
   exists record,
     cdx.Unmarshal blank_rows_file (Pointer (NewCDXFile [])) =
       Returns (Pointer (mkCDXFile (Header (NewCDXFile CDX9)) [record])) None /\
     Filename record = "example.warc.gz") /\
  (exists record,
     cdx.Unmarshal long_row_file (Pointer (NewCDXFile [])) =
       Returns (Pointer (mkCDXFile (Header (NewCDXFile CDX9)) [record]))
               (Some ErrTooLong) /\
     Filename record = "example.warc.gz").
Proof.
  split.
  - split; [reflexivity|]. split; [reflexivity|]. split; [reflexivity|].
    eexists. split; [vm_compute; reflexivity|reflexivity].
  - eexists. split; [vm_compute; reflexivity|reflexivity].
Qed.

End FieldCount.

(** * The fields of a [CDXRecord], found by column code *)
Section Columns.
Local Open Scope nat_scope.
Import GoReflect cdx Rows.

Lemma cdx_of_fields_fields_of r r0 : cdx.of_fields (cdx.fields_of r) r0 = r.
Proof. destruct r; reflexivity. Qed.

Lemma kind_fields_of r :
  map kind (cdx.fields_of r) = map kind (cdx.fields_of zeroRecord).
Proof. reflexivity. Qed.

(** A list of values of the kinds of the fields of a [CDXRecord] is
    the field list of the record made of it. *)
Lemma fields_of_of_fields vals r0 :
  map kind vals = map kind (cdx.fields_of zeroRecord) ->
  cdx.fields_of (cdx.of_fields vals r0) = vals.
Proof.
  intros H. cbv [cdx.fields_of zeroRecord map kind] in H.
  repeat (destruct vals as [|[] vals]; try discriminate H;
          cbn [map kind] in H; injection H as H).
  destruct vals; [reflexivity|discriminate H].
Qed.

(** [setField] keeps the kind of the field it sets. *)
Lemma kind_set_value v value : kind (fst (set_value v value)) = kind v.
Proof.
  destruct v; unfold set_value; try reflexivity.
  - destruct (GoStrconv.ParseInt value) as [n [e|]]; reflexivity.
  - destruct (GoTime.Parse GoTime.CDXTimestampFormat value); reflexivity.
Qed.

(** The loops of [marshalRecord] and of [setField] stop at the same
    struct field. *)
Lemma set_first_found typ : forall vals field value v,
  find_field typ vals (string_of_rune field) = Some v ->
  exists pre post,
    vals = pre ++ v :: post /\
    set_first typ vals field value =
      (pre ++ fst (set_value v value) :: post, snd (set_value v value)) /\
    forall v', find_field typ (pre ++ v' :: post) (string_of_rune field) = Some v'.
Proof.
  induction typ as [|f typ IH]; intros [|x vals] field value v H;
    cbn [find_field] in H; try discriminate.
  cbn [set_first].
  destruct (String.eqb (Tag_Get (Tag f) "cdx") (string_of_rune field)) eqn:E.
  - injection H as ->. exists [], vals. cbn [app find_field]. rewrite E.
    split; [reflexivity|]. split; [|reflexivity].
    now destruct (set_value v value).
  - destruct (IH vals field value v H) as (pre & post & -> & Hset & Hfind).
    exists (x :: pre), post. cbn [app find_field]. rewrite E, Hset.
    repeat split. exact Hfind.
Qed.

Lemma set_first_unknown typ : forall vals field value,
  find_field typ vals (string_of_rune field) = None ->
  set_first typ vals field value = (vals, Some (ErrUnknownField field)).
Proof.
  induction typ as [|f typ IH]; intros [|x vals] field value H;
    cbn [find_field] in H; try reflexivity.
  cbn [set_first].
  destruct (String.eqb (Tag_Get (Tag f) "cdx") (string_of_rune field));
    [discriminate|].
  now rewrite (IH vals field value H).
Qed.

(** What [setField] does to the field that a column code names. *)
Lemma setField_found record field value v :
  value_of record field = Some v ->
  exists record',
    cdx.setField record field value = (record', snd (set_value v value)) /\
    value_of record' field = Some (fst (set_value v value)) /\
    (fst (set_value v value) = v -> record' = record).
Proof.
  unfold value_of, cdx.setField. intros H.
  destruct (set_first_found _ _ field value v H) as (pre & post & Hvals & -> & Hfind).
  eexists. split; [reflexivity|].
  assert (Hk : map kind (pre ++ fst (set_value v value) :: post) =
               map kind (cdx.fields_of zeroRecord)).
  { rewrite <- (kind_fields_of record), Hvals, !map_app. cbn [map].
    now rewrite kind_set_value. }
  split.
  - rewrite (fields_of_of_fields _ _ Hk). apply Hfind.
  - intros ->. rewrite <- Hvals. apply cdx_of_fields_fields_of.
Qed.

Lemma column_found record field v :
  value_of record field = Some v -> column record field = formatField v.
Proof. unfold value_of, column. now intros ->. Qed.

Lemma formatField_zero v : is_zero v = true -> formatField v = "-".
Proof.
  destruct v; cbn [is_zero formatField]; try discriminate; now intros ->.
Qed.

End Columns.

Section Sentinel.
Local Open Scope nat_scope.
Import GoReflect cdx Rows.

Lemma ParseInt_sentinel : GoStrconv.ParseInt "-" = (0%Z, Some ErrSyntax).
Proof. vm_compute. reflexivity. Qed.

Lemma Parse_sentinel : GoTime.Parse GoTime.CDXTimestampFormat "-" = None.
Proof. vm_compute. reflexivity. Qed.

(** C6.  The sentinel is written and not read back.  For the field
    that a column code names: on encode an empty string, a zero integer
    and the zero time are rendered as [-]; on decode a column holding
    [-] puts the one-character string [-] into a string field, and for
    an integer field or a time field [setField] fails with the parse
    error of [strconv.ParseInt] or of [time.Parse] and leaves the
    record as it was. *)
Theorem sentinel_is_written_and_not_read_back record field v :
  value_of record field = Some v ->
  (is_zero v = true -> column record field = "-") /\
  match v with
  | VString _ =>
    exists record',
      cdx.setField record field "-" = (record', None) /\
      value_of record' field = Some (VString "-")
  | VInt _ => cdx.setField record field "-" = (record, Some ErrSyntax)
  | VTime _ => cdx.setField record field "-" = (record, Some ErrTimeParse)
  | _ => cdx.setField record field "-" = (record, None)
  end.
Proof.
  intros H. split.
  - intros Hz. rewrite (column_found _ _ _ H). now apply formatField_zero.
  - destruct (setField_found record field "-" v H) as (record' & Hset & Hval & Hsame).
    destruct v; unfold set_value in *;
      rewrite ?ParseInt_sentinel, ?Parse_sentinel in *; cbn [fst snd] in *;
      try (rewrite Hset, (Hsame eq_refl); reflexivity).
    eauto.
Qed.

Lemma sentinel_is_written_and_not_read_back_witness :
  value_of zeroRecord FieldCompressedArcOffset = Some (VInt 0) /\
  column zeroRecord FieldCompressedArcOffset = "-" /\
  cdx.setField zeroRecord FieldCompressedArcOffset "-" = (zeroRecord, Some ErrSyntax).
Proof.
  split; [reflexivity|].
  destruct (sentinel_is_written_and_not_read_back zeroRecord FieldCompressedArcOffset
              (VInt 0) eq_refl) as [Hcol Hset].
  split; [apply Hcol; reflexivity|exact Hset].
Defined.

(** The sentinel in an integer column makes [cdx.Unmarshal] fail, and
    in a string column it is decoded as the string [-]: the redirect
    field of the scenario row is not empty after the decode. *)
Lemma sentinel_is_not_decoded_as_zero :
  cdx.Unmarshal sentinel_offset_file (Pointer (NewCDXFile [])) =
    Returns (Pointer (NewCDXFile []))
            (Some (ErrParsingField FieldCompressedArcOffset ErrSyntax)) /\
  exists record,
    cdx.Unmarshal scenario_file (Pointer (NewCDXFile [])) =
      Returns (Pointer (mkCDXFile (Header (NewCDXFile CDX9)) [record])) None /\
    Redirect record = "-" /\
    column record FieldRedirect = "-".
Proof.
  split; [vm_compute; reflexivity|].
  eexists. split; [vm_compute; reflexivity|].
  split; reflexivity.
Qed.

End Sentinel.

(** * More about the CDX codec *)
Section ColumnCodes.
Local Open Scope nat_scope.
Import GoReflect cdx Rows Files.

(** X1.  A column code that names no field of [CDXRecord]: on encode
    the column is left empty, without error; on decode [setField]
    fails with the unknown field error and leaves the record as it
    was. *)
Theorem unknown_column_code record field value :
  value_of record field = None ->
  column record field = "" /\
  cdx.setField record field value = (record, Some (ErrUnknownField field)).
Proof.
  unfold value_of, column, cdx.setField. intros H. rewrite H.
  split; [reflexivity|].
  rewrite (set_first_unknown _ _ field value H).
  now rewrite cdx_of_fields_fields_of.
Qed.

Lemma unknown_column_code_witness :
  column zeroRecord (rune "Z") = "" /\
  cdx.setField zeroRecord (rune "Z") "x" = (zeroRecord, Some (ErrUnknownField (rune "Z"))).
Proof.
  apply (unknown_column_code zeroRecord (rune "Z") "x"). vm_compute. reflexivity.
Defined.

Lemma set_first_other typ : forall vals field value g,
  string_of_rune g <> string_of_rune field ->
  find_field typ (set_first typ vals field value).1 (string_of_rune g) =
  find_field typ vals (string_of_rune g).
Proof.
  induction typ as [|f typ IH]; intros [|x vals] field value g Hg;
    cbn [set_first find_field fst]; try reflexivity.
  destruct (String.eqb_spec (Tag_Get (Tag f) "cdx") (string_of_rune field)) as [E|E].
  - destruct (set_value x value) as [x' e]. cbn [fst find_field].
    destruct (String.eqb_spec (Tag_Get (Tag f) "cdx") (string_of_rune g)); [congruence|].
    reflexivity.
  - specialize (IH vals field value g Hg).
    destruct (set_first typ vals field value) as [rest e]. cbn [fst find_field] in *.
    now rewrite IH.
Qed.

Lemma set_first_kinds typ : forall vals field value,
  map kind (set_first typ vals field value).1 = map kind vals.
Proof.
  induction typ as [|f typ IH]; intros [|x vals] field value;
    cbn [set_first fst]; try reflexivity.
  destruct (String.eqb (Tag_Get (Tag f) "cdx") (string_of_rune field)).
  - pose proof (kind_set_value x value) as Hk.
    destruct (set_value x value) as [x' e]. cbn [fst map] in *. now rewrite Hk.
  - specialize (IH vals field value).
    destruct (set_first typ vals field value) as [rest e]. cbn [fst map] in *.
    now rewrite IH.
Qed.

(** X2.  [setField] touches the field of its column code only: the
    field of any other column code is afterwards what it was, whether
    the call fails or not. *)
Theorem setField_leaves_other_columns record field value g :
  string_of_rune g <> string_of_rune field ->
  value_of (cdx.setField record field value).1 g = value_of record g.
Proof.
  intros Hg. unfold value_of, cdx.setField.
  pose proof (set_first_other CDXRecord_type (cdx.fields_of record) field value g Hg) as Ho.
  pose proof (set_first_kinds CDXRecord_type (cdx.fields_of record) field value) as Hk.
  destruct (set_first CDXRecord_type (cdx.fields_of record) field value) as [vals e].
  cbn [fst] in *.
  rewrite fields_of_of_fields; [exact Ho|].
  now rewrite Hk.
Qed.

Lemma setField_leaves_other_columns_witness :
  value_of (cdx.setField zeroRecord FieldStatusCode "200").1 FieldRedirect =
  value_of zeroRecord FieldRedirect.
Proof.
  apply (setField_leaves_other_columns zeroRecord FieldStatusCode "200" FieldRedirect).
  vm_compute. discriminate.
Defined.

End ColumnCodes.

Section Encode.
Local Open Scope nat_scope.
Import GoReflect cdx Rows Files.



End Encode.

Section Decode.
Local Open Scope nat_scope.
Import GoBytes GoBufio GoReflect cdx Rows Files Scanning.











End Decode.

(** * The end of the input of a scanner *)
Section ScannerEnd.
Local Open Scope nat_scope.
Import GoBufio Scanning.

Variable split : SplitFunc.



End ScannerEnd.

Section DecodeAll.
Local Open Scope nat_scope.
Import GoBytes GoBufio GoReflect cdx Rows Files Scanning.






End DecodeAll.

(** * Format headers *)
Section Words.
Import GoStrings cdx Rows Files.

Lemma code_chr r : 0 <= r < 256 -> code (ascii_of_N (Z.to_N r)) = r.
Proof. intros H. unfold code. rewrite N_ascii_embedding; lia. Qed.

Lemma string_of_rune_printable r :
  printable r -> string_of_rune r = String (ascii_of_N (Z.to_N r)) EmptyString.
Proof.
  unfold printable, string_of_rune, chr. intros H.
  replace (r <? 0) with false by (symmetry; apply Z.ltb_ge; lia).
  replace (1114111 <? r) with false by (symmetry; apply Z.ltb_ge; lia).
  replace (55296 <=? r) with false by (symmetry; apply Z.leb_gt; lia).
  replace (r <? 128) with true by (symmetry; apply Z.ltb_lt; lia).
  reflexivity.
Qed.

Lemma is_word_rune r : printable r -> is_word (string_of_rune r).
Proof.
  intros H. rewrite (string_of_rune_printable r H). cbn [is_word].
  unfold printable in H. rewrite code_chr by lia. auto.
Qed.


Lemma space_width_word c s : 32 < code c < 127 -> space_width (String c s) = 0%nat.
Proof.
  intros H. unfold space_width.
  replace (9 <=? code c) with true by (symmetry; apply Z.leb_le; lia).
  replace (code c <=? 13) with false by (symmetry; apply Z.leb_gt; lia).
  replace (code c =? 32) with false by (symmetry; apply Z.eqb_neq; lia).
  replace (code c =? 194) with false by (symmetry; apply Z.eqb_neq; lia).
  replace (code c =? 225) with false by (symmetry; apply Z.eqb_neq; lia).
  replace (code c =? 226) with false by (symmetry; apply Z.eqb_neq; lia).
  replace (code c =? 227) with false by (symmetry; apply Z.eqb_neq; lia).
  destruct s as [|c2 [|c3 s3]]; reflexivity.
Qed.

(** [Fields] runs through a word without cutting it. *)
Lemma fields_aux_word w : forall cur rest,
  is_word w -> fields_aux 0 cur (w +:+ rest) = fields_aux 0 (cur +:+ w) rest.
Proof.
  induction w as [|c w IH]; intros cur rest Hw.
  - now rewrite append_nil, append_nil_r.
  - destruct Hw as [Hc Hw]. rewrite append_cons. cbn [fields_aux].
    rewrite (space_width_word c _ Hc), (IH _ _ Hw), append_assoc.
    now rewrite append_cons, append_nil.
Qed.






(** X7.  [parseFormat] looks for blanks in the column codes written
    one after the other, where there are none: for a format of
    printable column codes it returns no fields at all, so the field
    list in the header of a file made by [NewCDXFile] is empty. *)
Theorem parseFormat_finds_no_fields format :
  Forall printable format ->
  parseFormat format = [] /\ cdx.Fields (Header (NewCDXFile format)) = [].
Proof.
  intros H.
  assert (Hp : parseFormat format = []).
  { unfold parseFormat.
    assert (Hw : is_word (concat_all (map string_of_rune format))).
    { induction H as [|r format Hr _ IH]; [exact I|].
      cbn [map concat_all].
      pose proof (is_word_rune r Hr) as Hr'.
      rewrite (string_of_rune_printable r Hr) in *.
      rewrite append_cons, append_nil. cbn [is_word] in *. tauto. }
    unfold GoStrings.Fields.
    rewrite <- (append_nil_r (concat_all _)), (fields_aux_word _ _ _ Hw), append_nil.
    cbn [fields_aux]. now destruct (concat_all _). }
  split; [exact Hp|]. cbn [NewCDXFile Header cdx.Fields]. exact Hp.
Qed.

Lemma parseFormat_finds_no_fields_witness :
  parseFormat CDX11 = [] /\ cdx.Fields (Header (NewCDXFile CDX11)) = [].
Proof.
  apply (parseFormat_finds_no_fields CDX11).
  repeat constructor.
Defined.

End Words.

Section HeaderRoundTrip.
Import GoBytes GoBufio GoStrings cdx Rows Files Scanning.














End HeaderRoundTrip.

(** * More about [warc.Unmarshal] *)
Section Blocks.
Import GoStrings GoBufio gwarc warc Examples.

(** The reader keeps nothing back in its source once the source has
    been read into the buffer. *)
Lemma read_string_loop_source fuel delim : forall acc b,
  source b = [] -> source (read_string_loop fuel delim acc b).2 = [].
Proof.
  induction fuel as [|fuel IH]; intros acc b Hs; cbn [read_string_loop].
  - destruct (GoBytes.IndexByte (buffered b) delim); [exact Hs|].
    destruct (pending_eof b); exact Hs.
  - destruct (GoBytes.IndexByte (buffered b) delim); [exact Hs|].
    destruct (pending_eof b); [exact Hs|].
    destruct (defaultBufSize <=? length (buffered b))%nat; apply IH; [exact Hs|].
    unfold fill. now rewrite Hs.
Qed.

Lemma ReadString_source b delim :
  source b = [] \/
    (buffered b = [] /\ pending_eof b = false /\
     (length (source b) <= defaultBufSize)%nat) ->
  source (ReadString b delim).2 = [].
Proof.
  intros H. unfold ReadString.
  assert (Hs : source (read_string_loop (2 * length (source b) + 2) delim [] b).2 = []).
  { destruct H as [H|(Hb & He & Hl)]; [now apply read_string_loop_source|].
    replace (2 * length (source b) + 2)%nat with (S (2 * length (source b) + 1)) by lia.
    cbn [read_string_loop]. rewrite Hb, He. cbn [GoBytes.IndexByte length].
    replace (defaultBufSize <=? 0)%nat with false by reflexivity.
    apply read_string_loop_source. unfold fill. rewrite Hb.
    destruct (source b) eqn:E; [reflexivity|]. cbn [source].
    apply skipn_all2. cbn [length] in *. lia. }
  now destruct (read_string_loop _ _ _ _) as [[line e] b'].
Qed.

Lemma read_headers_source fuel : forall reader headers headers' reader',
  read_headers fuel reader headers = inl (headers', reader') ->
  source reader = [] -> source reader' = [].
Proof.
  induction fuel as [|fuel IH]; intros reader headers headers' reader' H Hs;
    cbn [read_headers] in H; [discriminate|].
  pose proof (ReadString_source reader newline (or_introl Hs)) as Hs'.
  destruct (ReadString reader newline) as [[line e] reader1]. cbn [snd] in Hs'.
  destruct e; [discriminate|].
  destruct (String.eqb _ ""); [now injection H as _ <-|].
  destruct (SplitN2 _ _) as [|k [|v [|x l]]]; try discriminate.
  eapply IH; eassumption.
Qed.

(** Decoding a block made of a version line, header lines, a blank
    line and a rest: [Unmarshal] gets to the content with the header
    map of the lines and a reader that holds the rest. *)
Lemma Unmarshal_to_content vline lines blank rest r0 :
  no_newline vline ->
  supported (version_of vline) ->
  Forall header_line_ok lines ->
  no_newline blank ->
  TrimSpace blank = "" ->
  let data := bytes_of (vline +:+ LF +:+ unlines lines +:+ blank +:+ LF +:+ rest) in
  let version := version_of vline in
  let headers := headers_of lines in
  let n := (GoStrconv.ParseInt (index headers "Content-Length")).1 in
  exists reader,
    buffered reader ++ source reader = bytes_of rest /\
    pending_eof reader = false /\
    ((length data <= defaultBufSize)%nat -> source reader = []) /\
    header_block data = Some headers /\
    Unmarshal data (Pointer r0) =
      if (n <? 0) || (maxAlloc <? n) then Panics
      else
        match Read reader (length (make n)) with
        | (_, Some e, _) =>
          Returns (Pointer (set_Version r0 version)) (Some (ErrReadContent e))
        | (got, None, _) =>
          Returns (Pointer (Decoded.record r0 version headers (copy (make n) got))) None
        end.
Proof.
  intros Hv Hs Hl Hn Hb data version headers n.
  assert (Hd : buffered (NewReader data) ++ source (NewReader data) =
               bytes_of (vline +:+ LF +:+ unlines lines +:+ blank +:+ LF +:+ rest))
    by reflexivity.
  destruct (ReadString_text _ _ _ Hd Hv eq_refl) as (b1 & Hr1 & Hd1 & He1).
  assert (Hfuel : exists k, S (length data) = (length lines + S k)%nat).
  { exists (length data - length lines)%nat.
    pose proof (length_unlines lines) as Hu.
    unfold data. rewrite !bytes_of_app, !length_app, !length_bytes_of in *. lia. }
  destruct Hfuel as [k Hk].
  destruct (read_headers_lines lines (S k) b1 ∅ _ Hl Hd1 He1) as (b2 & Hr2 & Hd2 & He2).
  destruct (read_headers_blank k b2 (fold_left add_header lines ∅) blank rest Hd2 He2 Hn Hb)
    as (b3 & Hr3 & Hd3 & He3).
  rewrite Hr3 in Hr2. rewrite <- Hk in Hr2.
  exists b3. split; [exact Hd3|]. split; [exact He3|]. split; [|split].
  - intros Hsmall.
    apply (read_headers_source _ _ _ _ _ Hr2).
    pose proof (ReadString_source (NewReader data) newline) as Hsrc.
    rewrite Hr1 in Hsrc. apply Hsrc. right. cbn [NewReader buffered pending_eof source]. auto.
  - unfold header_block. fold data. now rewrite Hr1, Hr2.
  - unfold Unmarshal. fold data. rewrite Hr1, version_of_LF.
    assert (Hsup : negb (String.eqb (version_of vline) WARCVariant1_0) &&
                   negb (String.eqb (version_of vline) WARCVariant1_1) = false).
    { destruct Hs as [Hs|Hs]; rewrite Hs; reflexivity. }
    rewrite Hsup, Hr2. subst n headers version. unfold headers_of.
    destruct (_ || _); [reflexivity|].
    destruct (Read b3 _) as [[got e] b4].
    destruct e; [reflexivity|].
    rewrite set_fields_fields, fields_WARCRecord, of_fields_fields_of.
    now rewrite record_set.
Qed.

End Blocks.

Section Content.
Import GoStrings GoBufio gwarc warc Examples.

(** X9.  A block whose [Content-Length] header holds a negative
    number, or one beyond what can be allocated, makes
    [warc.Unmarshal] panic: the number goes to [make] unchecked. *)
Theorem bad_content_length_panics vline lines blank rest r0 :
  no_newline vline ->
  supported (version_of vline) ->
  Forall header_line_ok lines ->
  no_newline blank ->
  TrimSpace blank = "" ->
  (GoStrconv.ParseInt (index (headers_of lines) "Content-Length")).1 < 0 \/
    maxAlloc < (GoStrconv.ParseInt (index (headers_of lines) "Content-Length")).1 ->
  Unmarshal (bytes_of (vline +:+ LF +:+ unlines lines +:+ blank +:+ LF +:+ rest))
            (Pointer r0) = Panics.
Proof.
  intros Hv Hs Hl Hn Hb Hbad.
  destruct (Unmarshal_to_content vline lines blank rest r0 Hv Hs Hl Hn Hb)
    as (reader & _ & _ & _ & _ & ->).
  replace (_ || _) with true; [reflexivity|].
  symmetry. apply orb_true_iff.
  destruct Hbad as [H|H]; [left; now apply Z.ltb_lt | right; now apply Z.ltb_lt].
Qed.

Lemma bad_content_length_panics_witness :
  Unmarshal (bytes_of (("WARC/1.0" +:+ CR) +:+ LF +:+
                       unlines ["Content-Length: -1" +:+ CR] +:+ CR +:+ LF +:+ ""))
            (Pointer zeroRecord) = Panics.
Proof.
  apply (bad_content_length_panics ("WARC/1.0" +:+ CR) ["Content-Length: -1" +:+ CR]
           CR "" zeroRecord).
  - vm_compute. reflexivity.
  - left. vm_compute. reflexivity.
  - constructor; [|constructor].
    split; [vm_compute; reflexivity|]. split; [vm_compute; discriminate|].
    eexists. vm_compute. reflexivity.
  - vm_compute. reflexivity.
  - vm_compute. reflexivity.
  - left. vm_compute. reflexivity.
Defined.




End Content.

Section Validity.
Import GoStrings GoBufio gwarc warc Examples.

Lemma index_missing headers key : has_key headers key = false -> index headers key = "".
Proof.
  unfold has_key, index. intros H. apply bool_decide_eq_false in H.
  destruct (headers !! key) eqn:E; [|reflexivity].
  exfalso. apply H. eauto.
Qed.

Lemma ParseInt_empty : GoStrconv.ParseInt "" = (0, Some ErrSyntax).
Proof. reflexivity. Qed.

(** X11.  [Valid] accepts exactly the blocks that [Unmarshal] decodes
    into a record and whose [Content-Length] header is an integer:
    what it adds to the checks of [Unmarshal] is that the header is
    there and parses. *)
Theorem Valid_accepts data r0 :
  Valid data = Valid_returns None <->
  (exists r', Unmarshal data (Pointer r0) = Returns (Pointer r') None) /\
  (exists headers,
     header_block data = Some headers /\
     (GoStrconv.ParseInt (index headers "Content-Length")).2 = None).
Proof.
  unfold Valid, Unmarshal, header_block.
  destruct (ReadString _ _) as [[versionLine e0] reader].
  destruct e0 as [e0|];
    [split; [discriminate|intros [[r' H] _]; discriminate]|].
  destruct (_ && _);
    [split; [discriminate|intros [[r' H] _]; discriminate]|].
  destruct (read_headers _ _ _) as [[headers reader']|e1];
    [|split; [discriminate|intros [[r' H] _]; discriminate]].
  destruct (has_key headers "Content-Length") eqn:Ek; cbn [negb].
  - destruct (GoStrconv.ParseInt (index headers "Content-Length")) as [n [e|]] eqn:Ep;
      cbn [fst snd].
    + split; [discriminate|]. intros [_ (h & [= <-] & H)]. rewrite Ep in H. discriminate.
    + destruct (_ || _);
        [split; [discriminate|intros [[r' H] _]; discriminate]|].
      destruct (Read _ _) as [[got e2] reader''].
      destruct e2 as [e2|];
        [split; [discriminate|intros [[r' H] _]; discriminate]|].
      rewrite set_fields_fields. split; [|reflexivity].
      intros _. split; [eauto|]. exists headers. now rewrite Ep.
  - split; [discriminate|]. intros [_ (h & [= <-] & H)].
    rewrite (index_missing _ _ Ek), ParseInt_empty in H. discriminate.
Qed.

(** X12.  A decode that fails leaves all fields of the record behind
    the pointer as they were, but for the version: when the version
    line cannot be read or names no supported version, nothing is
    touched; when the decode fails later, in the header lines or at
    the content, the version of the block has already been stored. *)
Theorem failed_decode_keeps_the_version data r0 final e :
  Unmarshal data (Pointer r0) = Returns final (Some e) ->
  (final = Pointer r0 /\
   ((exists e', e = ErrReadVersion e') \/ (exists v, e = ErrUnsupportedVersion v))) \/
  (exists version,
     supported version /\ final = Pointer (set_Version r0 version) /\
     ((exists e', e = ErrReadHeader e') \/ (exists line, e = ErrInvalidHeaderFormat line) \/
      (exists e', e = ErrReadContent e'))).
Proof.
  unfold Unmarshal. intros H.
  destruct (ReadString _ _) as [[versionLine e0] reader].
  destruct e0 as [e0|]; [injection H as <- <-; left; eauto|].
  set (version := TrimSpace _) in H.
  assert (Hv : supported version \/
               negb (String.eqb version WARCVariant1_0) &&
               negb (String.eqb version WARCVariant1_1) = true).
  { unfold supported.
    destruct (String.eqb_spec version WARCVariant1_0); [tauto|].
    destruct (String.eqb_spec version WARCVariant1_1); [tauto|]. now right. }
  destruct Hv as [Hv|Hv]; [|rewrite Hv in H; injection H as <- <-; left; eauto].
  destruct (_ && _); [injection H as <- <-; left; eauto|].
  right. exists version. split; [exact Hv|].
  destruct (read_headers _ _ _) as [[headers reader']|e1] eqn:Eh.
  - destruct (_ || _); [discriminate|].
    destruct (Read _ _) as [[got e2] reader''].
    destruct e2 as [e2|]; [injection H as <- <-; eauto 6|].
    rewrite set_fields_fields in H. discriminate.
  - injection H as <- <-. split; [reflexivity|].
    apply read_headers_errors in Eh as [[e' ->]|[l ->]]; eauto.
Qed.

(** The scenario of the specification with a header line that lacks
    its colon. *)
Lemma failed_decode_keeps_the_version_witness :
  (Pointer (set_Version zeroRecord "1.0") = Pointer zeroRecord /\
   ((exists e', ErrInvalidHeaderFormat "Content-Length 13" = ErrReadVersion e') \/
    (exists v, ErrInvalidHeaderFormat "Content-Length 13" = ErrUnsupportedVersion v))) \/
  (exists version,
     supported version /\
     Pointer (set_Version zeroRecord "1.0") = Pointer (set_Version zeroRecord version) /\
     ((exists e', ErrInvalidHeaderFormat "Content-Length 13" = ErrReadHeader e') \/
      (exists line, ErrInvalidHeaderFormat "Content-Length 13" = ErrInvalidHeaderFormat line) \/
      (exists e', ErrInvalidHeaderFormat "Content-Length 13" = ErrReadContent e'))).
Proof.
  apply (failed_decode_keeps_the_version no_colon_block zeroRecord).
  vm_compute. reflexivity.
Defined.

End Validity.

(** * The decoder of the root package *)
Section RootPackage.
Import GoReflect GoBufio gwarc warc.

Lemma root_setField field value : gwarc_decode.setField field value = setField field value.
Proof. reflexivity. Qed.





End RootPackage.

(** * Warcinfo records *)
Section Warcinfo.
Import GoReflect GoBufio gwarc warc warcinfo InfoExamples.

Lemma set_extra_keeps x key value :
  IP (set_extra x key value) = IP x /\
  UserAgent (set_extra x key value) = UserAgent x /\
  From_ (set_extra x key value) = From_ x.
Proof.
  unfold set_extra.
  repeat match goal with
  | |- context [String.eqb ?a ?b] => destruct (String.eqb a b)
  end; auto.
Qed.

Lemma extra_lines_keep lines : forall x,
  IP (fold_left extra_line lines x) = IP x /\
  UserAgent (fold_left extra_line lines x) = UserAgent x /\
  From_ (fold_left extra_line lines x) = From_ x.
Proof.
  induction lines as [|line lines IH]; intros x; [auto|].
  cbn [fold_left]. destruct (IH (extra_line x line)) as (-> & -> & ->).
  unfold extra_line.
  destruct (GoStrings.SplitN2 line ":") as [|k [|v [|y l]]]; auto.
  apply set_extra_keeps.
Qed.

(** X14.  [UnmarshalWARCRecord] of a warcinfo record reads the
    operator, the software, the robots policy and the host name from
    the lines of the content; its switch has no case for [ip],
    [http-header-user-agent] and [http-header-from], so these three
    fields are afterwards what they were.  [Validate] asks for all
    three: a warcinfo record decoded into a fresh value never
    validates. *)
Theorem decoded_warcinfo_misses_three_fields w data w' e :
  UnmarshalWARCRecord w data = Some (w', e) ->
  (IP (warcInfoExtraRecord_ w') = IP (warcInfoExtraRecord_ w) /\
   UserAgent (warcInfoExtraRecord_ w') = UserAgent (warcInfoExtraRecord_ w) /\
   From_ (warcInfoExtraRecord_ w') = From_ (warcInfoExtraRecord_ w)) /\
  (warcInfoExtraRecord_ w = zeroExtra -> warcinfo.Validate w' <> None).
Proof.
  intros H.
  assert (Hkeep : IP (warcInfoExtraRecord_ w') = IP (warcInfoExtraRecord_ w) /\
                  UserAgent (warcInfoExtraRecord_ w') = UserAgent (warcInfoExtraRecord_ w) /\
                  From_ (warcInfoExtraRecord_ w') = From_ (warcInfoExtraRecord_ w)).
  { unfold UnmarshalWARCRecord in H.
    destruct (Unmarshal data (Pointer (WARCRecord_ w))) as [final failure|]; [|discriminate].
    destruct final as [|s|r|r]; try (injection H as <- _; auto).
    destruct failure; injection H as <- _; cbn [warcInfoExtraRecord_]; auto.
    apply extra_lines_keep. }
  split; [exact Hkeep|].
  intros Hz. destruct Hkeep as (Hip & _ & _). rewrite Hz in Hip. cbn [IP zeroExtra] in Hip.
  unfold warcinfo.Validate. rewrite Hip.
  destruct (gwarc.Validate _); [discriminate|].
  repeat match goal with
  | |- context [String.eqb ?a ""] => destruct (String.eqb a ""); try discriminate
  end.
Qed.

(** A warcinfo block that carries all seven lines. *)
Lemma decoded_warcinfo_misses_three_fields_witness :
  exists w',
    UnmarshalWARCRecord zeroInfo info_block = Some (w', None) /\
    Operator (warcInfoExtraRecord_ w') = "me" /\
    Hostname (warcInfoExtraRecord_ w') = "host" /\
    IP (warcInfoExtraRecord_ w') = "" /\
    warcinfo.Validate w' = Some ErrIPRequired /\
    warcinfo.Validate w' <> None.
Proof.
  eexists. split; [vm_compute; reflexivity|].
  split; [reflexivity|]. split; [reflexivity|]. split; [reflexivity|].
  split; [vm_compute; reflexivity|].
  refine (proj2 (decoded_warcinfo_misses_three_fields zeroInfo info_block _ None _) eq_refl).
  vm_compute. reflexivity.
Defined.

End Warcinfo.

(** * The two [Content-Length] lines of [gwarc.Marshal] *)
Section ContentLengthLines.
Import GoReflect gwarc warc Examples.

Lemma entries_untagged f typ v vals :
  Tag_Get (Tag f) "warc" = "" ->
  Encoded.entries (f :: typ) (v :: vals) = Encoded.entries typ vals.
Proof. intros H. cbn [Encoded.entries]. now rewrite H. Qed.

Lemma entries_required f nm typ v vals :
  Tag_Get (Tag f) "warc" = nm ->
  String.eqb nm "" = false ->
  parseTag nm = mkTagInfo nm false ->
  Encoded.entries (f :: typ) (v :: vals) =
  (nm, formatFieldValue v) :: Encoded.entries typ vals.
Proof. 
  intros H1 H2 H3. cbn [Encoded.entries]. rewrite H1, H2, H3. cbn [name omitempty].
  now rewrite H2, andb_false_r.
Qed.

(** The field [ContentLength] is a tagged field like the others. *)
Lemma emitted_ContentLength r :
  In ("Content-Length", GoStrconv.FormatUint (ContentLength r))
     (Encoded.entries WARCRecord_type (fields_of r)).
Proof.
  change WARCRecord_type with
    (mkField "Version" [] :: mkField "RecordID" (gwarc.warc "WARC-Record-ID") ::
     mkField "ContentLength" (gwarc.warc "Content-Length") :: skipn 3 WARCRecord_type).
  change (fields_of r) with
    (VString (Version r) :: VString (RecordID r) :: VUint (ContentLength r) ::
     skipn 3 (fields_of r)).
  generalize (skipn 3 WARCRecord_type) (skipn 3 (fields_of r)). intros typ vals.
  rewrite entries_untagged by reflexivity.
  rewrite (entries_required (mkField "RecordID" (gwarc.warc "WARC-Record-ID"))
             "WARC-Record-ID" _ _ _ eq_refl eq_refl eq_refl).
  
  rewrite (entries_required (mkField "ContentLength" (gwarc.warc "Content-Length"))
             "Content-Length" _ _ _ eq_refl eq_refl eq_refl).
  
  right. left. reflexivity.
Qed.

(** X15.  A record that [Marshal] accepts is written with two
    [Content-Length] lines: one among the header lines, with the value
    of the field [ContentLength], and after them the line with the
    length of the content. *)
Theorem Marshal_writes_two_content_lengths range r :
  valid_order range ->
  Validate r = None ->
  exists before after,
    Marshal range (Pointer r) =
    inl (bytes_of (("WARC/" +:+ Version r +:+ CRLF) +:+
                   GoStrings.concat_all
                     (before ++
                      ("Content-Length: " +:+ GoStrconv.FormatUint (ContentLength r) +:+ CRLF)
                      :: after) +:+
                   "Content-Length: " +:+
                   GoStrconv.Itoa (Z.of_nat (length (Content r))) +:+ CRLF +:+ CRLF)
         ++ Content r).
Proof. 
  intros Hrange Hv.
  assert (Hin : In (header_line ("Content-Length", GoStrconv.FormatUint (ContentLength r)))
                   (map header_line
                      (range (collect_headers WARCRecord_type (fields_of r) ∅)))).
  { apply in_map.
    apply (Permutation_in _ (Permutation_sym (Hrange _))).
    rewrite collect_headers_entries.
    apply (Permutation_in _
             (Permutation_sym (map_to_list_put _ (entries_NoDup (fields_of r))))).
    exact (emitted_ContentLength r). }
  apply in_split in Hin as (before & after & Hlines).
  exists before, after.
  rewrite (Marshal_output range r (Pointer r)) by (right; auto).
  rewrite Hlines. reflexivity.
Qed.

Lemma Marshal_writes_two_content_lengths_witness :
  exists before after,
    Marshal forwards (Pointer basic_record) =
    inl (bytes_of (("WARC/" +:+ "1.0" +:+ CRLF) +:+
                   GoStrings.concat_all
                     (before ++ ("Content-Length: " +:+ "0" +:+ CRLF) :: after) +:+
                   "Content-Length: " +:+ "13" +:+ CRLF +:+ CRLF)
         ++ bytes_of "Hello, World!").
Proof. 
  apply (Marshal_writes_two_content_lengths forwards basic_record forwards_valid).
  vm_compute. reflexivity.
Defined.

End ContentLengthLines.

(** * Metadata records *)
Section Metadata.
Import GoReflect GoBufio gwarc warc metadata Examples.

(** X16.  [UnmarshalWARCRecord] of a metadata record fails either
    with an error of the decode of the [WARCRecord] it embeds, or, once
    that record is decoded, with the error of [strconv.ParseUint] on a
    line [fetchTimeMs] of its content; no other line of the content
    makes it fail. *)
Theorem metadata_decode_errors m data m' e :
  UnmarshalWARCRecord m data = Some (m', Some e) ->
  Unmarshal_error e \/
  (Unmarshal data (Pointer (WARCRecord_ m)) = Returns (Pointer (WARCRecord_ m')) None /\
   exists line k v,
     In line (GoStrings.Split (string_of (Content (WARCRecord_ m'))) "010") /\
     GoStrings.SplitN2 line ":" = [k; v] /\
     GoStrings.TrimSpace k = "fetchTimeMs" /\
     (GoStrconv.ParseUint (GoStrings.TrimSpace v)).2 = Some e).
Proof.
  unfold UnmarshalWARCRecord. intros H.
  destruct (Unmarshal data _) as [final e'|] eqn:Eu; [|discriminate].
  destruct final as [|s|r|r];
    try (injection H as _ ->; left; eapply Unmarshal_errors; eassumption).
  destruct e' as [e'|].
  - injection H as _ ->. left. eapply Unmarshal_errors; eassumption.
  - destruct (extra_lines _ _) as [x e'] eqn:Ex.
    injection H as <- ->. right. cbn [WARCRecord_]. split; [reflexivity|].
    eapply extra_lines_errors; eassumption.
Qed.

Lemma metadata_decode_errors_witness :
  Unmarshal_error ErrSyntax \/
  (exists r,
     Unmarshal bad_fetch_time_block (Pointer (WARCRecord_ zeroMetadata)) =
       Returns (Pointer r) None /\
     exists line k v,
       In line (GoStrings.Split (string_of (Content r)) "010") /\
       GoStrings.SplitN2 line ":" = [k; v] /\
       GoStrings.TrimSpace k = "fetchTimeMs" /\
       (GoStrconv.ParseUint (GoStrings.TrimSpace v)).2 = Some ErrSyntax).
Proof.
  destruct (metadata_decode_errors zeroMetadata bad_fetch_time_block
              (mkMetadataRecord
                 (Decoded.record zeroRecord "1.0"
                    (headers_of [ "WARC-Type: metadata" +:+ CR;
                                  "WARC-Date: 2024-01-01T10:00:00Z" +:+ CR;
                                  "WARC-Record-ID: <urn:uuid:abc>" +:+ CR;
                                  "Content-Length: 24" +:+ CR ])
                    (bytes_of ("via: x" +:+ LF +:+ "fetchTimeMs: abc" +:+ LF)))
                 (mkExtra "x" "" 0))
              ErrSyntax) as [H|[H1 H2]].
  - vm_compute. reflexivity.
  - now left.
  - right. eexists. split; [exact H1|exact H2].
Defined.

End Metadata.
